(** * NGAReminder: the incremental crawl-and-sync engine

    A shallow embedding of [database.py], [nga_crawler.py] and
    [monitor.py], and the properties of the synchronisation engine
    proved over it.

    Conventions of the embedding
    - Python integers are [Z]; [//] and [%] are floor division and its
      remainder ([Z.div], [Z.modulo]) and raise [ZeroDivisionError] on a
      zero divisor.
    - Text is [string], one [ascii] per character (ASCII text).
    - A Python dictionary with a fixed set of possible keys is a record
      of [option] fields: [None] is an absent key, [d[k]] raises
      [KeyError] on it and [d.get(k, v)] yields [v].  JSON values have
      the type the code expects of them.
    - The SQLite connection is a pair of databases, the last committed
      one and the one the open transaction works on.
    - The network, the completion order of the worker pool and the stop
      event are oracles the functions take as arguments. *)

From stdpp Require Import gmap strings list fin_maps pretty sorting.
From Stdlib Require Import ZArith Lia Ascii.

Open Scope Z_scope.

(* ===================================================================== *)
(** ** Python primitives *)
(* ===================================================================== *)

Module Py.

(** The exceptions the modelled code can meet. *)
Inductive exn : Type :=
| KeyError (key : string)
| ValueError (literal : string)
| ZeroDivisionError
| Fault (what : string).

(** A computation either returns or raises. *)
Inductive result (A : Type) : Type :=
| Ok (a : A)
| Raise (e : exn).
Arguments Ok {A} a.
Arguments Raise {A} e.

Definition is_ok {A} (r : result A) : bool :=
  match r with Ok _ => true | Raise _ => false end.

(** [a // b] *)
Definition floordiv (a b : Z) : result Z :=
  if decide (b = 0) then Raise ZeroDivisionError else Ok (a `div` b).

(** [a % b] *)
Definition modulo (a b : Z) : result Z :=
  if decide (b = 0) then Raise ZeroDivisionError else Ok (a `mod` b).

(** [d[k]] on an optional key. *)
Definition getitem {A} (key : string) (v : option A) : result A :=
  match v with Some a => Ok a | None => Raise (KeyError key) end.

(** [k in d] on an optional key. *)
Definition has_key {A} (v : option A) : bool :=
  match v with Some _ => true | None => false end.

(** [str(n)] for an integer. *)
Definition str_int (n : Z) : string := pretty n.

(** [sep.join(parts)] *)
Fixpoint join (sep : string) (parts : list string) : string :=
  match parts with
  | [] => ""
  | [s] => s
  | s :: rest => s +:+ sep +:+ join sep rest
  end.

(** [s.split(c)] for a one-character separator: the current piece is
    accumulated in reverse in [cur]. *)
Fixpoint split_go (c : ascii) (cur : string) (s : string) : list string :=
  match s with
  | EmptyString => [String.rev cur]
  | String a s' =>
      if decide (a = c) then String.rev cur :: split_go c "" s'
      else split_go c (String a cur) s'
  end.

Definition split (c : ascii) (s : string) : list string := split_go c "" s.

(** Characters [int()] strips: tab, line feed, vertical tab, form
    feed, carriage return, the four separators 28..31 and the space. *)
Definition is_space (a : ascii) : bool :=
  let n := Z.of_nat (nat_of_ascii a) in
  bool_decide (9 ≤ n ≤ 13) || bool_decide (28 ≤ n ≤ 32).

Fixpoint lstrip (s : string) : string :=
  match s with
  | String a s' => if is_space a then lstrip s' else s
  | EmptyString => EmptyString
  end.

Definition strip (s : string) : string :=
  String.rev (lstrip (String.rev (lstrip s))).

Definition digit_val (a : ascii) : option Z :=
  let n := Z.of_nat (nat_of_ascii a) in
  if bool_decide (48 ≤ n ≤ 57) then Some (n - 48) else None.

(** Decimal digits, a single underscore allowed between two digits.
    [after_digit] tells whether the previous character was a digit. *)
Fixpoint digits (acc : Z) (after_digit : bool) (s : string) : option Z :=
  match s with
  | EmptyString => if after_digit then Some acc else None
  | String a s' =>
      if decide (a = "_"%char) then
        if after_digit then digits acc false s' else None
      else
        match digit_val a with
        | Some d => digits (10 * acc + d) true s'
        | None => None
        end
  end.

(** [int(s)] in base ten. *)
Definition int (s : string) : result Z :=
  let t := strip s in
  let parsed :=
    match t with
    | String "+" r => digits 0 false r
    | String "-" r => Z.opp <$> digits 0 false r
    | _ => digits 0 false t
    end in
  match parsed with
  | Some n => Ok n
  | None => Raise (ValueError s)
  end.

(** [bool(s)] for optional text: neither [None] nor empty. *)
Definition str_truthy (s : option string) : bool :=
  match s with
  | Some (String _ _) => true
  | _ => false
  end.

(** [max(values, default=d)] *)
Definition max_default (d : Z) (values : list Z) : Z :=
  match values with
  | [] => d
  | v :: rest => foldl Z.max v rest
  end.

(** [[f(x) for x in l]] where [f] may raise. *)
Fixpoint map_r {A B} (f : A → result B) (l : list A) : result (list B) :=
  match l with
  | [] => Ok []
  | x :: rest =>
      match f x with
      | Raise e => Raise e
      | Ok y =>
          match map_r f rest with
          | Raise e => Raise e
          | Ok ys => Ok (y :: ys)
          end
      end
  end.

(** [set(int(uid) for uid in s.split(','))] *)
Definition int_set (s : string) : result (gset Z) :=
  match map_r int (split ","%char s) with
  | Ok ns => Ok (list_to_set ns)
  | Raise e => Raise e
  end.

(** [[x for x in l if f(x)]] where [f] may raise. *)
Fixpoint filter_r {A} (f : A → result bool) (l : list A) : result (list A) :=
  match l with
  | [] => Ok []
  | x :: rest =>
      match f x with
      | Raise e => Raise e
      | Ok keep =>
          match filter_r f rest with
          | Raise e => Raise e
          | Ok xs => Ok (if keep then x :: xs else xs)
          end
      end
  end.

(** [str(e)], as CPython 3.11 words it; the quoting is right for text
    without quotes and escapes. *)
Definition str_exn (e : exn) : string :=
  match e with
  | KeyError key => "'" +:+ key +:+ "'"
  | ValueError literal =>
      "invalid literal for int() with base 10: '" +:+ literal +:+ "'"
  | ZeroDivisionError => "integer division or modulo by zero"
  | Fault what => what
  end.

(** [s[:n]] *)
Fixpoint prefix (n : nat) (s : string) : string :=
  match n, s with
  | S n', String a s' => String a (prefix n' s')
  | _, _ => EmptyString
  end.

(** [range(a, b + 1)] *)
Definition range_incl (a b : Z) : list Z := seqZ a (b - a + 1).

End Py.

Export Py.

Global Instance result_ret : MRet result := @Ok.
Global Instance result_bind : MBind result := λ A B f r,
  match r with Ok a => f a | Raise e => Raise e end.

(* ===================================================================== *)
(** ** database.py *)
(* ===================================================================== *)

Module Database.

(** *** The upstream JSON, as [parse_page_result] reads it *)

Record RawAuthor : Type := {
  j_username : option string;
  j_uid : option Z
}.

Record RawPost : Type := {
  j_pid : option Z;
  j_tid : option Z;
  j_fid : option Z;
  j_author : option RawAuthor;
  j_postdate : option string;
  j_postdatetimestamp : option Z;
  j_content : option string;
  j_lou : option Z
}.

(** One page of a thread.  [other_keys] tells whether the object holds
    a key besides the ones listed, which matters for its truth value. *)
Record Page : Type := {
  vrows : option Z;
  totalPage : option Z;
  perPage : option Z;
  tsubject : option string;
  tauthor : option string;
  tauthorid : option Z;
  result_ : option (list RawPost);
  other_keys : bool
}.

(** [bool(page)]: a dictionary is true when it has a key. *)
Definition page_truthy (p : Page) : bool :=
  has_key (vrows p) || has_key (totalPage p) || has_key (perPage p)
  || has_key (tsubject p) || has_key (tauthor p) || has_key (tauthorid p)
  || has_key (result_ p) || other_keys p.

(** *** The dictionaries built from a page *)

Record Thread : Type := {
  th_tid : option Z;
  th_title : option string;
  th_author_name : option string;
  th_author_uid : option Z;
  th_total_posts : option Z;
  th_total_pages : option Z
}.

Record Post : Type := {
  pid : option Z;
  tid : option Z;
  fid : option Z;
  author_name : option string;
  author_uid : option Z;
  post_date : option string;
  post_timestamp : option Z;
  content : option string;
  post_number : option Z
}.

(** *** The tables *)

Record ThreadRow : Type := {
  title : string;
  thread_author_name : string;
  thread_author_uid : Z;
  total_posts : Z;
  total_pages : Z;
  thread_created_at : Z;
  updated_at : Z
}.

Record PostRow : Type := {
  row_tid : Z;
  row_fid : Z;
  row_author_name : string;
  row_author_uid : Z;
  row_post_date : string;
  row_post_timestamp : Z;
  row_content : string;
  row_post_number : Z;
  row_created_at : Z
}.

(** [monitored_threads], created by the monitor in the same database. *)
Record MonitorRow : Type := {
  author_filter : option string;
  author_notification : option string;
  check_interval : Z;
  last_checked : option Z;
  last_post_timestamp : Z;
  is_active : bool;
  monitor_created_at : Z
}.

(** [monitoring_events]; the row id is the position in the list. *)
Record EventRow : Type := {
  event_tid : Z;
  event_type : string;
  post_count : Z;
  message : string;
  event_created_at : Z
}.

(** [threads] and [monitored_threads] are keyed by their tid column,
    [posts] by its pid column; the rows hold the other columns. *)
Record DB : Type := {
  threads : gmap Z ThreadRow;
  posts : gmap Z PostRow;
  monitored_threads : gmap Z MonitorRow;
  monitoring_events : list EventRow
}.

Definition set_threads (f : gmap Z ThreadRow → gmap Z ThreadRow) (db : DB) : DB :=
  {| threads := f (threads db); posts := posts db;
     monitored_threads := monitored_threads db;
     monitoring_events := monitoring_events db |}.

Definition set_posts (f : gmap Z PostRow → gmap Z PostRow) (db : DB) : DB :=
  {| threads := threads db; posts := f (posts db);
     monitored_threads := monitored_threads db;
     monitoring_events := monitoring_events db |}.

Definition set_monitored (f : gmap Z MonitorRow → gmap Z MonitorRow) (db : DB) : DB :=
  {| threads := threads db; posts := posts db;
     monitored_threads := f (monitored_threads db);
     monitoring_events := monitoring_events db |}.

Definition add_event (e : EventRow) (db : DB) : DB :=
  {| threads := threads db; posts := posts db;
     monitored_threads := monitored_threads db;
     monitoring_events := monitoring_events db ++ [e] |}.

(** The connection: what the last [commit] left, and what the open
    transaction has written since. *)
Record Conn : Type := {
  committed : DB;
  working : DB
}.

Definition execute (f : DB → DB) (c : Conn) : Conn :=
  {| committed := committed c; working := f (working c) |}.

Definition commit (c : Conn) : Conn :=
  {| committed := working c; working := working c |}.

Definition rollback (c : Conn) : Conn :=
  {| committed := committed c; working := committed c |}.

(** *** save_thread *)

(** The parameters of the INSERT, in the order the code reads them. *)
Definition thread_params (now : Z) (thread_data : Thread) : result (Z * ThreadRow) :=
  tid' ← getitem "tid" (th_tid thread_data);
  title' ← getitem "title" (th_title thread_data);
  author_name' ← getitem "author_name" (th_author_name thread_data);
  author_uid' ← getitem "author_uid" (th_author_uid thread_data);
  Ok (tid',
      {| title := title';
        thread_author_name := author_name'; thread_author_uid := author_uid';
        total_posts := default 0 (th_total_posts thread_data);
        total_pages := default 0 (th_total_pages thread_data);
        thread_created_at := now; updated_at := now |}).

(** INSERT ... ON CONFLICT(tid) DO UPDATE SET title, total_posts,
    total_pages, updated_at. *)
Definition upsert_thread (tid : Z) (new : ThreadRow) (db : DB) : DB :=
  set_threads (λ t,
    match t !! tid with
    | None => <[tid := new]> t
    | Some old =>
        <[tid :=
            {| title := title new;
               thread_author_name := thread_author_name old;
               thread_author_uid := thread_author_uid old;
               total_posts := total_posts new; total_pages := total_pages new;
               thread_created_at := thread_created_at old;
               updated_at := updated_at new |}]> t
    end) db.

Definition save_thread (now : Z) (thread_data : Thread) (c : Conn) : bool * Conn :=
  match thread_params now thread_data with
  | Ok (tid, row) => (true, commit (execute (upsert_thread tid row) c))
  | Raise _ => (false, rollback c)
  end.

(** *** save_posts_batch *)

Definition post_params (now : Z) (post_data : Post) : result (Z * PostRow) :=
  pid' ← getitem "pid" (pid post_data);
  tid' ← getitem "tid" (tid post_data);
  fid' ← getitem "fid" (fid post_data);
  author_name' ← getitem "author_name" (author_name post_data);
  author_uid' ← getitem "author_uid" (author_uid post_data);
  post_date' ← getitem "post_date" (post_date post_data);
  post_timestamp' ← getitem "post_timestamp" (post_timestamp post_data);
  Ok (pid',
      {| row_tid := tid'; row_fid := fid';
        row_author_name := author_name'; row_author_uid := author_uid';
        row_post_date := post_date'; row_post_timestamp := post_timestamp';
        row_content := default "" (content post_data);
        row_post_number := default 0 (post_number post_data);
        row_created_at := now |}).

(** INSERT OR REPLACE INTO posts *)
Definition replace_post (pid : Z) (row : PostRow) (db : DB) : DB :=
  set_posts (λ p, <[pid := row]> p) db.

(** The [for] loop inside the [try]: the count so far, and the database
    reached or the exception that stopped the loop. *)
Fixpoint save_posts_loop (now : Z) (posts : list Post) (saved_count : Z) (db : DB)
  : Z * result DB :=
  match posts with
  | [] => (saved_count, Ok db)
  | post_data :: rest =>
      match post_params now post_data with
      | Raise e => (saved_count, Raise e)
      | Ok (pid, row) =>
          save_posts_loop now rest (saved_count + 1) (replace_post pid row db)
      end
  end.

Definition save_posts_batch (now : Z) (posts : list Post) (c : Conn) : Z * Conn :=
  match save_posts_loop now posts 0 (working c) with
  | (saved_count, Ok db) => (saved_count, commit (execute (λ _, db) c))
  | (saved_count, Raise _) => (saved_count, rollback c)
  end.

(** *** get_thread *)

Definition get_thread (tid : Z) (c : Conn) : option ThreadRow :=
  threads (working c) !! tid.

(** *** parse_page_result *)

Definition parse_post (post : RawPost) : Post :=
  let author := default {| j_username := None; j_uid := None |} (j_author post) in
  {| pid := Some (default 0 (j_pid post));
     tid := Some (default 0 (j_tid post));
     fid := Some (default 0 (j_fid post));
     author_name := Some (default "" (j_username author));
     author_uid := Some (default 0 (j_uid author));
     post_date := Some (default "" (j_postdate post));
     post_timestamp := Some (default 0 (j_postdatetimestamp post));
     content := Some (default "" (j_content post));
     post_number := Some (default 0 (j_lou post)) |}.

Definition parse_page_result (page_data : Page) : Thread * list Post :=
  let first_post_tid :=
    match result_ page_data with
    | Some (first_post :: _) => default 0 (j_tid first_post)
    | _ => 0
    end in
  let thread :=
    {| th_tid := Some first_post_tid;
       th_title := Some (default "" (tsubject page_data));
       th_author_name := Some (default "" (tauthor page_data));
       th_author_uid := Some (default 0 (tauthorid page_data));
       th_total_posts := Some (default 0 (vrows page_data));
       th_total_pages := Some (default 0 (totalPage page_data)) |} in
  (thread, parse_post <$> default [] (result_ page_data)).

End Database.

(* ===================================================================== *)
(** ** nga_crawler.py *)
(* ===================================================================== *)

Module Crawler.
Import Database.

(** What one request for a page meets: a decoded body, one of the two
    failures [fetch_page] handles, or any other exception. *)
Inductive net_reply : Type :=
| Reply (page : Page)
| RequestException
| JSONDecodeError
| Crash (e : exn).

(** The network answers a thread id and a page number. *)
Definition network : Type := Z → Z → net_reply.

(** [fetch_page]: the rate limiter only delays the request and is left
    out. *)
Definition fetch_page (net : network) (tid page : Z) : result (option Page) :=
  match net tid page with
  | Reply page_data => Ok (Some page_data)
  | RequestException => Ok None
  | JSONDecodeError => Ok None
  | Crash e => Raise e
  end.

(** [crawl_pages_range].  [as_completed] lists, in the order [as_completed]
    yields them, the values of [future_to_index]. *)
Definition crawl_pages_range (net : network) (tid start_page end_page : Z)
    (as_completed : list nat) : list (option Page) :=
  if decide (start_page > end_page) then []
  else
    let pages := range_incl start_page end_page in
    let results := replicate (length pages) None in
    foldl (λ results index,
             match pages !! index with
             | None => results
             | Some page_num =>
                 match fetch_page net tid page_num with
                 | Ok result => <[index := result]> results
                 | Raise _ => results
                 end
             end) results as_completed.

(** How [crawl_pages_range_with_callback] ended. *)
Inductive crawl_status : Type :=
| Finished
| Interrupted
| Propagated (e : exn).

(** What a run of [crawl_pages_range_with_callback] did: the state its
    callbacks left, the callback invocations in order, the number of
    times it read the stop event, and how it ended. *)
Record report (S : Type) : Type := {
  final : S;
  calls : list (Z * option Page);
  polled : nat;
  status : crawl_status
}.
Arguments final {S} r.
Arguments calls {S} r.
Arguments polled {S} r.
Arguments status {S} r.

Definition invoked {S} (page_num : Z) (result : option Page) (r : report S) : report S :=
  {| final := final r; calls := (page_num, result) :: calls r;
     polled := polled r; status := status r |}.

Section WithCallback.

Context {S : Type}.

(** A callback runs on the caller's state and may raise. *)
Definition callback_t : Type := Z → option Page → S → S * option exn.

Variable net : network.
Variable tid : Z.
Variable callback : callback_t.
(** [stop_event]: absent, or what its [k]-th reading in this call shows. *)
Variable stop_event : option (nat → bool).

Definition stop_is_set (k : nat) : bool :=
  match stop_event with
  | Some is_set => is_set k
  | None => false
  end.

Definition polls_after (k : nat) : nat :=
  match stop_event with
  | Some _ => k
  | None => 0%nat
  end.

(** The body of the [for future in as_completed(...)] loop, for the
    futures in [as_completed] (the values of [future_to_page] in the order
    they complete), at iteration [k]. *)
Fixpoint process (as_completed : list Z) (k : nat) (s : S) : report S :=
  match as_completed with
  | [] => {| final := s; calls := []; polled := polls_after k; status := Finished |}
  | page_num :: later =>
      if stop_is_set k then
        {| final := s; calls := []; polled := polls_after (Datatypes.S k);
           status := Interrupted |}
      else
        match fetch_page net tid page_num with
        | Ok result =>
            match callback page_num result s with
            | (s1, None) => invoked page_num result (process later (Datatypes.S k) s1)
            | (s1, Some _) =>
                (* the [except] clause also catches what the callback raised *)
                invoked page_num result
                  match callback page_num None s1 with
                  | (s2, None) => invoked page_num None (process later (Datatypes.S k) s2)
                  | (s2, Some e) =>
                      {| final := s2; calls := [(page_num, None)];
                         polled := polls_after (Datatypes.S k); status := Propagated e |}
                  end
            end
        | Raise _ =>
            match callback page_num None s with
            | (s1, None) => invoked page_num None (process later (Datatypes.S k) s1)
            | (s1, Some e) =>
                {| final := s1; calls := [(page_num, None)];
                   polled := polls_after (Datatypes.S k); status := Propagated e |}
            end
        end
  end.

(** [crawl_pages_range_with_callback]: [as_completed] is the order in
    which the futures submitted for [range(start_page, end_page + 1)]
    complete. *)
Definition crawl_pages_range_with_callback (start_page end_page : Z)
    (as_completed : list Z) (s : S) : report S :=
  if decide (start_page > end_page) then
    {| final := s; calls := []; polled := 0; status := Finished |}
  else process as_completed 0 s.

End WithCallback.

End Crawler.

(* ===================================================================== *)
(** ** monitor.py *)
(* ===================================================================== *)

Module Monitor.
Import Database Crawler.

(** What [notification_manager.send] was given. *)
Record Notification : Type := {
  n_title : string;
  n_message : string;
  n_url : string
}.

(** Everything a [ThreadMonitor] acts on: its connection, the wall
    clock, the pages it fetched itself, the pages it handed to the worker
    pool, the number of times the stop event was read, and the
    notifications sent. *)
Record World : Type := {
  conn : Conn;
  clock : Z;
  fetched : list (Z * Z);
  submitted : list (Z * Z);
  polls : nat;
  outbox : list Notification
}.

Definition set_conn (f : Conn → Conn) (w : World) : World :=
  {| conn := f (conn w); clock := clock w; fetched := fetched w;
     submitted := submitted w; polls := polls w; outbox := outbox w |}.

Definition set_clock (t : Z) (w : World) : World :=
  {| conn := conn w; clock := t; fetched := fetched w;
     submitted := submitted w; polls := polls w; outbox := outbox w |}.

Definition log_fetch (tid page : Z) (w : World) : World :=
  {| conn := conn w; clock := clock w; fetched := fetched w ++ [(tid, page)];
     submitted := submitted w; polls := polls w; outbox := outbox w |}.

Definition log_submit (tid : Z) (pages : list Z) (w : World) : World :=
  {| conn := conn w; clock := clock w; fetched := fetched w;
     submitted := submitted w ++ ((λ page, (tid, page)) <$> pages);
     polls := polls w; outbox := outbox w |}.

Definition add_polls (n : nat) (w : World) : World :=
  {| conn := conn w; clock := clock w; fetched := fetched w;
     submitted := submitted w; polls := (polls w + n)%nat; outbox := outbox w |}.

Definition post_notification (n : Notification) (w : World) : World :=
  {| conn := conn w; clock := clock w; fetched := fetched w;
     submitted := submitted w; polls := polls w; outbox := outbox w ++ [n] |}.

(** A method of the monitor: it changes the world and returns or raises;
    what it did before raising stays done. *)
Definition M (A : Type) : Type := World → result A * World.

Definition ret {A} (a : A) : M A := λ w, (Ok a, w).

Definition raise {A} (e : exn) : M A := λ w, (Raise e, w).

Definition bind {A B} (m : M A) (k : A → M B) : M B := λ w,
  match m w with
  | (Ok a, w') => k a w'
  | (Raise e, w') => (Raise e, w')
  end.

Definition lift {A} (r : result A) : M A := λ w, (r, w).

Definition try_except {A} (body : M A) (handler : exn → M A) : M A := λ w,
  match body w with
  | (Ok a, w') => (Ok a, w')
  | (Raise e, w') => handler e w'
  end.

Definition get {A} (f : World → A) : M A := λ w, (Ok (f w), w).

Definition modify (f : World → World) : M unit := λ w, (Ok tt, f w).

Notation "x <- m ;; k" := (bind m (λ x, k))
  (at level 100, m at next level, right associativity).
Notation "m ;;; k" := (bind m (λ _, k))
  (at level 100, right associativity).

(** *** The environment of a monitor *)

(** A value of a JSON list in the configuration file. *)
Inductive jscalar : Type :=
| JInt (n : Z)
| JStr (s : string).

(** [str(v)] *)
Definition str (v : jscalar) : string :=
  match v with
  | JInt n => str_int n
  | JStr s => s
  end.

(** [','.join(map(str, l)) if l else None] *)
Definition join_or_none (l : option (list jscalar)) : option string :=
  match l with
  | Some (v :: rest) => Some (join "," (str <$> (v :: rest)))
  | _ => None
  end.

(** One entry of [monitored_threads] in the configuration file. *)
Record ThreadConfig : Type := {
  cfg_tid : option Z;
  cfg_enabled : option bool;
  cfg_author_filter : option (list jscalar);
  cfg_author_notification : option (list jscalar);
  cfg_check_interval : option Z
}.

(** The counters [load_from_config] returns. *)
Record SyncCounters : Type := {
  added : Z;
  updated : Z;
  skipped : Z;
  errors : list string
}.

Inductive sync_result : Type :=
| SyncError (error : string)
| SyncDone (summary : SyncCounters).

(** The dictionaries [check_thread] returns. *)
Record CheckReport : Type := {
  cr_tid : Z;
  cr_new_posts : Z;
  cr_total_new_posts : option Z;
  cr_total_posts : Z;
  cr_posts : list Post
}.

Inductive check_result : Type :=
| CheckError (error : string)
| Checked (report : CheckReport).

(** The dictionary [check_all] returns. *)
Record CheckSummary : Type := {
  cs_total : Z;
  cs_checked : Z;
  cs_new_posts : Z
}.

(** The envelope emoji of the notification title, U+1F4EC in UTF-8. *)
Definition mailbox : string :=
  String (ascii_of_nat 240) (String (ascii_of_nat 159)
    (String (ascii_of_nat 147) (String (ascii_of_nat 172) EmptyString))).

Section WithEnvironment.

(** The network. *)
Variable net : network.
(** [stop_event]: absent, or what its [k]-th reading shows, counted
    over the life of the monitor. *)
Variable stop_event : option (nat → bool).
(** The order in which the worker pool completes the pages of a thread
    it was given. *)
Variable scheduler : Z → list Z → list Z.

(** *** Access to the collaborators *)

(** [self.crawler.fetch_page(tid, page)] *)
Definition crawler_fetch_page (tid page : Z) : M (option Page) := λ w,
  (fetch_page net tid page, log_fetch tid page w).

(** [stop_event and stop_event.is_set()] *)
Definition stop_requested : M bool := λ w,
  match stop_event with
  | None => (Ok false, w)
  | Some is_set => (Ok (is_set (polls w)), add_polls 1 w)
  end.

(** [self.crawler.crawl_pages_range_with_callback(tid, start_page,
    end_page, callback, stop_event=stop_event)], for a callback that
    works on the world and on the variables [X] it closes over. *)
Definition crawler_crawl {X} (tid start_page end_page : Z)
    (callback : Z → option Page → World * X → (World * X) * option exn)
    (x : X) : M X := λ w,
  let pages := range_incl start_page end_page in
  let r :=
    crawl_pages_range_with_callback net tid callback
      ((λ is_set k, is_set (polls w + k)%nat) <$> stop_event)
      start_page end_page (scheduler tid pages)
      (log_submit tid pages w, x) in
  let w' := add_polls (polled r) (fst (final r)) in
  match status r with
  | Propagated e => (Raise e, w')
  | _ => (Ok (snd (final r)), w')
  end.

(** [self.db.save_thread(thread_data)] *)
Definition db_save_thread (thread_data : Thread) : M bool := λ w,
  let '(saved, c) := save_thread (clock w) thread_data (conn w) in
  (Ok saved, set_conn (λ _, c) w).

(** [self.db.save_posts_batch(posts)] *)
Definition db_save_posts_batch (posts : list Post) : M Z := λ w,
  let '(saved_count, c) := save_posts_batch (clock w) posts (conn w) in
  (Ok saved_count, set_conn (λ _, c) w).

(** [self.db.cursor.execute(...)] for a statement that writes. *)
Definition db_execute (f : Z → DB → DB) : M unit :=
  modify (λ w, set_conn (execute (f (clock w))) w).

(** A query on the connection. *)
Definition db_query {A} (q : DB → A) : M A :=
  get (λ w, q (working (conn w))).

(** [self.db.conn.commit()] *)
Definition db_commit : M unit := modify (set_conn commit).

(** [time.sleep(seconds)] *)
Definition sleep (seconds : Z) : M unit :=
  modify (λ w, set_clock (clock w + seconds) w).

(** [self.notification_manager.send(title=..., message=..., url=...)]:
    no sender raises. *)
Definition notification_send (title message url : string) : M unit :=
  modify (post_notification
            {| n_title := title; n_message := message; n_url := url |}).

(** *** _log_event *)

Definition _log_event (tid : Z) (event_type : string) (post_count : Z)
    (message : string) : M unit :=
  db_execute (λ now,
    add_event {| event_tid := tid; event_type := event_type;
                 post_count := post_count; message := message;
                 event_created_at := now |}).

(** *** Statements on [monitored_threads] and [posts] *)

(** INSERT INTO monitored_threads (tid, author_filter,
    author_notification, check_interval, last_checked,
    last_post_timestamp); the other columns take their defaults. *)
Definition new_subscription (tid : Z) (author_filter_str author_notification_str : option string)
    (check_interval' latest_timestamp now : Z) : MonitorRow :=
  {| author_filter := author_filter_str;
     author_notification := author_notification_str;
     check_interval := check_interval'; last_checked := Some now;
     last_post_timestamp := latest_timestamp; is_active := true;
     monitor_created_at := now |}.

(** INSERT ... ON CONFLICT(tid) DO UPDATE SET author_filter,
    author_notification, check_interval, is_active = 1, last_checked,
    last_post_timestamp, of [add_thread]. *)
Definition upsert_subscription (tid : Z) (author_filter_str author_notification_str : option string)
    (check_interval' latest_timestamp now : Z) (db : DB) : DB :=
  set_monitored (λ m,
    match m !! tid with
    | None =>
        <[tid := new_subscription tid author_filter_str author_notification_str
                   check_interval' latest_timestamp now]> m
    | Some old =>
        <[tid := {| author_filter := author_filter_str;
                    author_notification := author_notification_str;
                    check_interval := check_interval'; last_checked := Some now;
                    last_post_timestamp := latest_timestamp; is_active := true;
                    monitor_created_at := monitor_created_at old |}]> m
    end) db.

(** UPDATE monitored_threads SET author_filter, author_notification,
    check_interval, is_active = 1 WHERE tid = ? *)
Definition update_subscription (tid : Z) (author_filter_str author_notification_str : option string)
    (check_interval' : Z) (db : DB) : DB :=
  set_monitored (alter (λ old,
    {| author_filter := author_filter_str;
       author_notification := author_notification_str;
       check_interval := check_interval'; last_checked := last_checked old;
       last_post_timestamp := last_post_timestamp old; is_active := true;
       monitor_created_at := monitor_created_at old |}) tid) db.

(** INSERT INTO monitored_threads of [load_from_config]; a row with
    this tid would violate the primary key. *)
Definition insert_subscription (tid : Z) (author_filter_str author_notification_str : option string)
    (check_interval' latest_timestamp now : Z) (db : DB) : DB :=
  set_monitored (λ m,
    <[tid := new_subscription tid author_filter_str author_notification_str
               check_interval' latest_timestamp now]> m) db.

(** UPDATE monitored_threads SET last_checked = now WHERE tid = ? *)
Definition touch_last_checked (tid : Z) (now : Z) (db : DB) : DB :=
  set_monitored (alter (λ old,
    {| author_filter := author_filter old;
       author_notification := author_notification old;
       check_interval := check_interval old; last_checked := Some now;
       last_post_timestamp := last_post_timestamp old; is_active := is_active old;
       monitor_created_at := monitor_created_at old |}) tid) db.

(** The rows of [posts] WHERE tid = ? *)
Definition thread_posts (tid : Z) (db : DB) : list PostRow :=
  filter (λ row, row_tid row = tid) ((map_to_list (posts db)).*2).

(** MAX(column), NULL over no row. *)
Definition sql_max (values : list Z) : option Z :=
  match values with
  | [] => None
  | v :: rest => Some (foldl Z.max v rest)
  end.

(** SELECT COUNT( * ), MAX(post_number) FROM posts WHERE tid = ? *)
Definition count_and_max_post_number (tid : Z) (db : DB) : Z * option Z :=
  let rows := thread_posts tid db in
  (Z.of_nat (length rows), sql_max (row_post_number <$> rows)).

(** SELECT MAX(post_timestamp) FROM posts WHERE tid = ? *)
Definition max_post_timestamp (tid : Z) (db : DB) : option Z :=
  sql_max (row_post_timestamp <$> thread_posts tid db).

(** *** add_thread *)

(** [save_page_callback] of [add_thread]; it closes over
    [latest_timestamp]. *)
Definition add_thread_callback (page_num : Z) (page_result : option Page)
    (s : World * Z) : (World * Z) * option exn :=
  let '(w, latest_timestamp) := s in
  match page_result with
  | Some page =>
      if page_truthy page then
        let '(_, posts_data) := parse_page_result page in
        match posts_data with
        | [] => (s, None)
        | _ :: _ =>
            let '(_, w1) := db_save_posts_batch posts_data w in
            match map_r (λ p, getitem "post_timestamp" (post_timestamp p)) posts_data with
            | Raise e => ((w1, latest_timestamp), Some e)
            | Ok stamps =>
                let page_latest := max_default 0 stamps in
                if decide (page_latest > latest_timestamp)
                then ((w1, page_latest), None)
                else ((w1, latest_timestamp), None)
            end
        end
      else (s, None)
  | None => (s, None)
  end.

Definition add_thread_body (tid : Z) (author_filter' : option (list jscalar))
    (check_interval' : Z) (author_notification' : option (list jscalar)) : M bool :=
  first_page <- crawler_fetch_page tid 1;;
  match first_page with
  | None => ret false
  | Some first_page =>
      if negb (page_truthy first_page) then ret false
      else
        let '(thread_data, first_page_posts) := parse_page_result first_page in
        db_save_thread thread_data;;;
        total_pages' <- lift (getitem "total_pages" (th_total_pages thread_data));;
        total_posts' <- lift (getitem "total_posts" (th_total_posts thread_data));;
        title' <- lift (getitem "title" (th_title thread_data));;
        (match first_page_posts with
         | [] => ret 0
         | _ :: _ => db_save_posts_batch first_page_posts
         end);;;
        stamps <- lift (map_r (λ p, getitem "post_timestamp" (post_timestamp p))
                          first_page_posts);;
        let latest_timestamp := max_default 0 stamps in
        latest_timestamp <-
          (if decide (total_pages' > 1)
           then crawler_crawl tid 2 total_pages' add_thread_callback latest_timestamp
           else ret latest_timestamp);;
        db_execute (upsert_subscription tid (join_or_none author_filter')
                      (join_or_none author_notification') check_interval'
                      latest_timestamp);;;
        db_commit;;;
        title'' <- lift (getitem "title" (th_title thread_data));;
        author_name' <- lift (getitem "author_name" (th_author_name thread_data));;
        ret true
  end.

Definition add_thread (tid : Z) (author_filter' : option (list jscalar))
    (check_interval' : Z) (author_notification' : option (list jscalar)) : M bool :=
  try_except (add_thread_body tid author_filter' check_interval' author_notification')
    (λ _, ret false).

(** *** load_from_config *)

Definition no_counters : SyncCounters :=
  {| added := 0; updated := 0; skipped := 0; errors := [] |}.

Definition count_added (c : SyncCounters) : SyncCounters :=
  {| added := added c + 1; updated := updated c; skipped := skipped c;
     errors := errors c |}.

Definition count_updated (c : SyncCounters) : SyncCounters :=
  {| added := added c; updated := updated c + 1; skipped := skipped c;
     errors := errors c |}.

Definition count_skipped (c : SyncCounters) : SyncCounters :=
  {| added := added c; updated := updated c; skipped := skipped c + 1;
     errors := errors c |}.

Definition count_error (error : string) (c : SyncCounters) : SyncCounters :=
  {| added := added c; updated := updated c; skipped := skipped c;
     errors := errors c ++ [error] |}.

(** [save_page_callback] of [load_from_config]; it closes over
    [max_post_number]. *)
Definition load_from_config_callback (max_post_number : Z) (page_num : Z)
    (page_result : option Page) (s : World * unit) : (World * unit) * option exn :=
  match page_result with
  | Some page =>
      if page_truthy page then
        let '(_, posts_data) := parse_page_result page in
        match posts_data with
        | [] => (s, None)
        | _ :: _ =>
            match filter_r (λ p, n ← getitem "post_number" (post_number p);
                                 Ok (bool_decide (n > max_post_number)))
                    posts_data with
            | Raise e => (s, Some e)
            | Ok [] => (s, None)
            | Ok (p :: new_posts) =>
                let '(_, w1) := db_save_posts_batch (p :: new_posts) (fst s) in
                ((w1, tt), None)
            end
        end
      else (s, None)
  | None => (s, None)
  end.

(** The [if existing: UPDATE ... else: INSERT ...] that ends both
    branches of an entry with stored posts. *)
Definition write_subscription (existing : option MonitorRow) (tid : Z)
    (author_filter_str author_notification_str : option string)
    (check_interval' latest_timestamp : Z) (acc : SyncCounters) : M SyncCounters :=
  match existing with
  | Some _ =>
      db_execute (λ _, update_subscription tid author_filter_str
                         author_notification_str check_interval');;;
      ret (count_updated acc)
  | None =>
      db_execute (insert_subscription tid author_filter_str
                    author_notification_str check_interval' latest_timestamp);;;
      ret (count_added acc)
  end.

(** The body of the loop over the entries of the configuration file. *)
Definition load_from_config_entry (thread_config : ThreadConfig)
    (acc : SyncCounters) : M SyncCounters :=
  match cfg_tid thread_config with
  | None => ret (count_error "Thread missing tid field" acc)
  | Some tid =>
      if decide (tid = 0) then ret (count_error "Thread missing tid field" acc)
      else if negb (default true (cfg_enabled thread_config)) then ret (count_skipped acc)
      else
        let author_filter' := cfg_author_filter thread_config in
        let check_interval' := default 300 (cfg_check_interval thread_config) in
        existing <- db_query (λ db, monitored_threads db !! tid);;
        row <- db_query (count_and_max_post_number tid);;
        let post_count' := fst row in
        let max_post_number := default (-1) (snd row) in
        if decide (post_count' > 0) then
          first_page <- crawler_fetch_page tid 1;;
          match first_page with
          | None => ret (count_error ("Failed to fetch thread " +:+ str_int tid) acc)
          | Some first_page =>
              if negb (page_truthy first_page)
              then ret (count_error ("Failed to fetch thread " +:+ str_int tid) acc)
              else
                let '(thread_data, _) := parse_page_result first_page in
                current_total_posts <- lift (getitem "total_posts" (th_total_posts thread_data));;
                current_total_pages <- lift (getitem "total_pages" (th_total_pages thread_data));;
                if decide (max_post_number >= current_total_posts - 1) then
                  let author_filter_str := join_or_none author_filter' in
                  let author_notification_str :=
                    join_or_none (cfg_author_notification thread_config) in
                  latest_timestamp <- db_query (λ db, default 0 (max_post_timestamp tid db));;
                  acc' <- write_subscription existing tid author_filter_str
                            author_notification_str check_interval' latest_timestamp acc;;
                  db_commit;;;
                  ret acc'
                else
                  let posts_per_page := default 20 (perPage first_page) in
                  q <- lift (floordiv max_post_number posts_per_page);;
                  let start_page := if decide (q + 1 < 1) then 1 else q + 1 in
                  db_save_thread thread_data;;;
                  crawler_crawl tid start_page current_total_pages
                    (load_from_config_callback max_post_number) tt;;;
                  let author_filter_str := join_or_none author_filter' in
                  let author_notification_str :=
                    join_or_none (cfg_author_notification thread_config) in
                  latest_timestamp <- db_query (λ db, default 0 (max_post_timestamp tid db));;
                  acc' <- write_subscription existing tid author_filter_str
                            author_notification_str check_interval' latest_timestamp acc;;
                  db_commit;;;
                  ret acc'
          end
        else
          success <- add_thread tid author_filter' check_interval'
                       (cfg_author_notification thread_config);;
          if success : bool then ret (count_added acc)
          else ret (count_error ("Failed to add thread " +:+ str_int tid) acc)
  end.

Fixpoint load_from_config_loop (monitored_threads' : list ThreadConfig)
    (acc : SyncCounters) : M SyncCounters :=
  match monitored_threads' with
  | [] => ret acc
  | thread_config :: rest =>
      stop <- stop_requested;;
      if stop : bool then ret acc
      else
        acc' <- load_from_config_entry thread_config acc;;
        load_from_config_loop rest acc'
  end.

(** [load_from_config], from the [monitored_threads] list of a
    configuration file that was read and decoded. *)
Definition load_from_config (monitored_threads' : list ThreadConfig) : M sync_result :=
  match monitored_threads' with
  | [] => ret (SyncError "No monitored_threads defined in config file")
  | _ :: _ =>
      acc <- load_from_config_loop monitored_threads' no_counters;;
      ret (SyncDone acc)
  end.

(** *** check_thread *)

(** The author filter as a set: empty when the column is NULL or
    empty. *)
Definition parse_author_uids (author_filter' : option string) : result (gset Z) :=
  match author_filter' with
  | Some text => if str_truthy (Some text) then int_set text else Ok ∅
  | None => Ok ∅
  end.

(** The first and the last page to fetch, from the stored total, the
    page size and the page count just reported. *)
Definition new_page_range (old_total_posts posts_per_page current_total_pages : Z)
  : result (Z * Z) :=
  old_last_page ← floordiv (old_total_posts + posts_per_page - 1) posts_per_page;
  q ← floordiv old_total_posts posts_per_page;
  let start_page := 1 `max` (q + 1) in
  r ← modulo old_total_posts posts_per_page;
  let start_page :=
    if decide (r = 0 ∧ old_total_posts > 0) then old_last_page + 1 else start_page in
  let end_page := current_total_pages in
  Ok (start_page, end_page).

(** The loop over [pages_to_fetch]. *)
Fixpoint fetch_new_pages (tid : Z) (pages_to_fetch : list Z)
    (all_new_posts : list Post) : M (list Post) :=
  match pages_to_fetch with
  | [] => ret all_new_posts
  | page_num :: rest =>
      page_result <- crawler_fetch_page tid page_num;;
      match page_result with
      | Some page =>
          if page_truthy page then
            let '(_, posts_data) := parse_page_result page in
            fetch_new_pages tid rest (all_new_posts ++ posts_data)
          else fetch_new_pages tid rest all_new_posts
      | None => fetch_new_pages tid rest all_new_posts
      end
  end.

(** [not author_uids or post['author_uid'] in author_uids] *)
Definition passes_filter (author_uids : gset Z) (post : Post) : result bool :=
  if decide (author_uids = ∅) then Ok true
  else
    uid ← getitem "author_uid" (author_uid post);
    Ok (bool_decide (uid ∈ author_uids)).

(** The loop over [all_new_posts]: [new_posts_to_save] and
    [filtered_new_posts].  [stored] is the posts table, which the loop
    does not write. *)
Fixpoint select_new_posts (stored : gmap Z PostRow) (author_uids : gset Z)
    (all_new_posts : list Post) : result (list Post * list Post) :=
  match all_new_posts with
  | [] => Ok ([], [])
  | post :: rest =>
      pid' ← getitem "pid" (pid post);
      match stored !! pid' with
      | Some existing => select_new_posts stored author_uids rest
      | None =>
          eligible ← passes_filter author_uids post;
          '(new_posts_to_save, filtered_new_posts) ← select_new_posts stored author_uids rest;
          Ok (post :: new_posts_to_save,
              if eligible : bool then post :: filtered_new_posts else filtered_new_posts)
      end
  end.

(** The loop that sends the notifications. *)
Fixpoint notify_posts (tid : Z) (thread_title : string) (notification_uids : gset Z)
    (filtered_new_posts : list Post) : M unit :=
  match filtered_new_posts with
  | [] => ret tt
  | post :: rest =>
      uid <- lift (getitem "author_uid" (author_uid post));;
      (if bool_decide (uid ∈ notification_uids) then
         let title' := mailbox +:+ " " +:+ thread_title in
         author_name' <- lift (getitem "author_name" (author_name post));;
         content' <- lift (getitem "content" (content post));;
         let message' := author_name' +:+ ": " +:+ prefix 100 content' in
         pid' <- lift (getitem "pid" (pid post));;
         let url := "https://bbs.nga.cn/read.php?tid=" +:+ str_int tid
                    +:+ "&pid=" +:+ str_int pid' in
         notification_send title' message' url
       else ret tt);;;
      notify_posts tid thread_title notification_uids rest
  end.

(** What [check_thread] does inside its [try]. *)
Definition check_thread_body (tid : Z) (monitor_config : MonitorRow)
    (author_uids : gset Z) (thread : ThreadRow) : M check_result :=
  let old_total_posts := total_posts thread in
  first_page <- crawler_fetch_page tid 1;;
  let failed :=
    _log_event tid "error" 0 "Failed to fetch thread";;;
    ret (CheckError "Failed to fetch thread") in
  match first_page with
  | None => failed
  | Some first_page =>
      if negb (page_truthy first_page) then failed
      else
        let current_total_posts := default 0 (vrows first_page) in
        let current_total_pages := default 0 (totalPage first_page) in
        let posts_per_page := default 20 (perPage first_page) in
        let new_post_count := current_total_posts - old_total_posts in
        if decide (new_post_count <= 0) then
          db_execute (touch_last_checked tid);;;
          _log_event tid "check" 0 "No new posts";;;
          let '(thread_data, _) := parse_page_result first_page in
          db_save_thread thread_data;;;
          db_commit;;;
          ret (Checked {| cr_tid := tid; cr_new_posts := 0;
                          cr_total_new_posts := None;
                          cr_total_posts := current_total_posts;
                          cr_posts := [] |})
        else
          range <- lift (new_page_range old_total_posts posts_per_page current_total_pages);;
          let '(start_page, end_page) := range in
          let pages_to_fetch := range_incl start_page end_page in
          all_new_posts <- fetch_new_pages tid pages_to_fetch [];;
          stored <- db_query posts;;
          selected <- lift (select_new_posts stored author_uids all_new_posts);;
          let '(new_posts_to_save, filtered_new_posts) := selected in
          (match new_posts_to_save with
           | [] => ret 0
           | _ :: _ => db_save_posts_batch new_posts_to_save
           end);;;
          let '(thread_data, _) := parse_page_result first_page in
          db_save_thread thread_data;;;
          db_execute (touch_last_checked tid);;;
          (match filtered_new_posts with
           | _ :: _ =>
               _log_event tid "new_post" (Z.of_nat (length filtered_new_posts))
                 ("Found " +:+ str_int (Z.of_nat (length filtered_new_posts))
                  +:+ " new posts (filtered by author)")
           | [] =>
               _log_event tid "check" (Z.of_nat (length new_posts_to_save))
                 ("Found " +:+ str_int (Z.of_nat (length new_posts_to_save))
                  +:+ " new posts (none match filter)")
           end);;;
          db_commit;;;
          (if str_truthy (author_notification monitor_config) then
             notification_uids <-
               lift (int_set (default "" (author_notification monitor_config)));;
             notify_posts tid (title thread) notification_uids filtered_new_posts
           else ret tt);;;
          ret (Checked {| cr_tid := tid;
                          cr_new_posts := Z.of_nat (length filtered_new_posts);
                          cr_total_new_posts := Some (Z.of_nat (length new_posts_to_save));
                          cr_total_posts := current_total_posts;
                          cr_posts := filtered_new_posts |})
  end.

(** SELECT * FROM monitored_threads WHERE tid = ? AND is_active = 1 *)
Definition active_subscription (tid : Z) (db : DB) : option MonitorRow :=
  match monitored_threads db !! tid with
  | Some row => if is_active row then Some row else None
  | None => None
  end.

Definition check_thread (tid : Z) : M check_result :=
  monitor_config <- db_query (active_subscription tid);;
  match monitor_config with
  | None => ret (CheckError ("Thread " +:+ str_int tid +:+ " not monitored"))
  | Some monitor_config =>
      author_uids <- lift (parse_author_uids (author_filter monitor_config));;
      thread <- get (λ w, get_thread tid (conn w));;
      match thread with
      | None => ret (CheckError ("Thread " +:+ str_int tid +:+ " not found in database"))
      | Some thread =>
          try_except (check_thread_body tid monitor_config author_uids thread)
            (λ e,
               let error_msg := "Error checking thread: " +:+ str_exn e in
               _log_event tid "error" 0 error_msg;;;
               ret (CheckError error_msg))
      end
  end.

(** *** list_monitored and check_all *)

(** ORDER BY last_checked DESC: NULL sorts last. *)
Definition checked_not_before (a b : MonitorRow) : bool :=
  match last_checked a, last_checked b with
  | _, None => true
  | None, Some _ => false
  | Some x, Some y => bool_decide (y ≤ x)
  end.

(** A row of the join: the tid, the subscription and the thread. *)
Definition monitored_row : Type := Z * MonitorRow * ThreadRow.

Fixpoint insert_by_last_checked (row : monitored_row)
    (sorted : list monitored_row) : list monitored_row :=
  match sorted with
  | [] => [row]
  | first :: rest =>
      if checked_not_before (snd (fst row)) (snd (fst first)) then row :: sorted
      else first :: insert_by_last_checked row rest
  end.

(** The active subscriptions joined with their threads, latest check
    first; SQLite leaves the order of equal keys open, the model takes
    one. *)
Definition list_monitored : M (list monitored_row) :=
  db_query (λ db,
    foldr insert_by_last_checked []
      (omap (λ kv : Z * MonitorRow,
               let '(tid, m) := kv in
               if is_active m
               then (λ t, (tid, m, t)) <$> threads db !! tid
               else None)
            (map_to_list (monitored_threads db)))).

Fixpoint check_all_loop (monitored : list monitored_row)
    (total_new checked : Z) : M (Z * Z) :=
  match monitored with
  | [] => ret (total_new, checked)
  | thread :: rest =>
      result <- check_thread (fst (fst thread));;
      let '(total_new', checked') :=
        match result with
        | Checked report => (total_new + cr_new_posts report, checked + 1)
        | CheckError _ => (total_new, checked)
        end in
      sleep 1;;;
      check_all_loop rest total_new' checked'
  end.

Definition check_all : M CheckSummary :=
  monitored <- list_monitored;;
  match monitored with
  | [] => ret {| cs_total := 0; cs_checked := 0; cs_new_posts := 0 |}
  | _ :: _ =>
      counts <- check_all_loop monitored 0 0;;
      ret {| cs_total := Z.of_nat (length monitored);
             cs_checked := snd counts; cs_new_posts := fst counts |}
  end.

End WithEnvironment.

End Monitor.

(* ===================================================================== *)
(** ** Vocabulary of the statements *)
(* ===================================================================== *)

Import Database Crawler.

(** What a caller of the crawler sees of a fetch: the page, or [None]
    when the fetch returned [None] or raised. *)
Definition delivered (r : result (option Page)) : option Page :=
  match r with
  | Ok page => page
  | Raise _ => None
  end.

(** One iteration of the loop of [crawl_pages_range] over the completed
    futures. *)
Definition store_result (net : network) (tid : Z) (pages : list Z)
    (results : list (option Page)) (index : nat) : list (option Page) :=
  match pages !! index with
  | None => results
  | Some page_num =>
      match fetch_page net tid page_num with
      | Ok result => <[index := result]> results
      | Raise _ => results
      end
  end.

(** The stop event is absent or never shows as set. *)
Definition never_set (stop_event : option (nat → bool)) : Prop :=
  ∀ is_set, stop_event = Some is_set → ∀ k, is_set k = false.

(** A callback that returns normally on every page. *)
Definition never_raises {S} (callback : @callback_t S) : Prop :=
  ∀ page_num result s, snd (callback page_num result s) = None.

(** The state after the callback has run once on each completed page, in
    completion order, with what the fetch of the page delivered. *)
Definition run_callbacks {S} (net : network) (tid : Z) (callback : @callback_t S)
    (as_completed : list Z) (s : S) : S :=
  foldl (λ s page_num,
           fst (callback page_num (delivered (fetch_page net tid page_num)) s))
        s as_completed.

(** *** Sample data *)

(** A post as the forum sends it. *)
Definition raw_post_in (tid pid author lou : Z) : RawPost :=
  {| j_pid := Some pid; j_tid := Some tid; j_fid := Some 1;
     j_author := Some {| j_username := Some "user"; j_uid := Some author |};
     j_postdate := Some "2024-01-01 12:00";
     j_postdatetimestamp := Some (1704096000 + lou);
     j_content := Some "text"; j_lou := Some lou |}.

(** A post of thread 7. *)
Definition sample_raw_post (pid author lou : Z) : RawPost :=
  raw_post_in 7 pid author lou.

(** A page of thread 7, twenty posts to the page. *)
Definition sample_page (total_posts total_pages : Z) (posts : list RawPost) : Page :=
  {| vrows := Some total_posts; totalPage := Some total_pages;
     perPage := Some 20; tsubject := Some "Thread"; tauthor := Some "op";
     tauthorid := Some 100; result_ := Some posts; other_keys := true |}.

(** A forum that serves one post on every page, and no page 4. *)
Definition net_without_page_4 : network := λ tid page,
  if decide (page = 4) then RequestException
  else Reply (sample_page 120 6 [sample_raw_post (1000 + page) 100 (20 * (page - 1))]).

(** A forum that serves one post on every page. *)
Definition net_all_pages : network := λ tid page,
  Reply (sample_page 1000 50 [sample_raw_post (1000 + page) 100 (20 * (page - 1))]).

(** A callback that notes the pages it is given. *)
Definition noting_callback : @callback_t (list Z) := λ page_num result seen,
  (seen ++ [page_num], None).

(** A callback that notes the pages it is given and raises when it is
    given page 4 with a result. *)
Definition fragile_callback : @callback_t (list Z) := λ page_num result seen,
  (seen ++ [page_num],
   match result with
   | Some _ => if decide (page_num = 4) then Some (KeyError "0") else None
   | None => None
   end).

(** A stop event set between its tenth and its eleventh reading. *)
Definition set_after_ten : nat → bool := λ k, bool_decide (10 ≤ k)%nat.

(** *** What a page turns into *)

Import Monitor.

(** The tid [parse_page_result] gives the thread of a page: the tid of
    its first post, and 0 for a page without posts. *)
Definition page_tid (page : Page) : Z :=
  match result_ page with
  | Some (first_post :: _) => default 0 (j_tid first_post)
  | _ => 0
  end.

(** The row [save_thread] inserts for the thread of a page. *)
Definition page_thread_row (now : Z) (page : Page) : ThreadRow :=
  {| title := default "" (tsubject page);
     thread_author_name := default "" (tauthor page);
     thread_author_uid := default 0 (tauthorid page);
     total_posts := default 0 (vrows page);
     total_pages := default 0 (totalPage page);
     thread_created_at := now; updated_at := now |}.

(** The pid of a post dictionary, and its author. *)
Definition post_pid (post : Post) : Z := default 0 (pid post).
Definition post_author (post : Post) : Z := default 0 (author_uid post).
Definition post_lou (post : Post) : Z := default 0 (post_number post).

(** The row [save_posts_batch] inserts for a post that has its keys. *)
Definition post_row (now : Z) (post : Post) : PostRow :=
  {| row_tid := default 0 (tid post); row_fid := default 0 (fid post);
     row_author_name := default "" (author_name post);
     row_author_uid := default 0 (author_uid post);
     row_post_date := default "" (post_date post);
     row_post_timestamp := default 0 (post_timestamp post);
     row_content := default "" (content post);
     row_post_number := default 0 (post_number post);
     row_created_at := now |}.

(** The posts table after INSERT OR REPLACE of the posts, in order. *)
Definition store_posts (now : Z) (posts' : list Post)
    (table : gmap Z PostRow) : gmap Z PostRow :=
  foldl (λ table post, <[post_pid post := post_row now post]> table) table posts'.

(** A post dictionary built by [parse_page_result]. *)
Definition parsed (post : Post) : Prop := ∃ raw, post = parse_post raw.

(** The posts a fetch contributes to [all_new_posts]. *)
Definition page_posts (r : result (option Page)) : list Post :=
  match delivered r with
  | Some page => if page_truthy page then snd (parse_page_result page) else []
  | None => []
  end.

(** The posts of the pages, in page order. *)
Definition posts_of_pages (net : network) (tid : Z) (pages : list Z) : list Post :=
  pages ≫= (λ page_num, page_posts (fetch_page net tid page_num)).

(** The fetched posts whose pid is not in the posts table. *)
Definition fresh_posts (stored : gmap Z PostRow) (all_new_posts : list Post) : list Post :=
  filter (λ post, stored !! post_pid post = None) all_new_posts.

(** The posts the author filter lets through: all of them when the
    filter is empty. *)
Definition eligible_posts (author_uids : gset Z) (posts' : list Post) : list Post :=
  filter (λ post, author_uids = ∅ ∨ post_author post ∈ author_uids) posts'.

(** The notification [check_thread] sends for a post. *)
Definition notification_of (tid : Z) (thread_title : string) (post : Post) : Notification :=
  {| n_title := mailbox +:+ " " +:+ thread_title;
     n_message := default "" (author_name post) +:+ ": "
                  +:+ prefix 100 (default "" (content post));
     n_url := "https://bbs.nga.cn/read.php?tid=" +:+ str_int tid
              +:+ "&pid=" +:+ str_int (post_pid post) |}.

(** The tables the monitor sees. *)
Definition db_of (w : World) : DB := working (conn w).

(** *** More sample data *)

Definition sample_post (pid author lou : Z) : Post :=
  parse_post (sample_raw_post pid author lou).

(** A post dictionary without the key [tid]. *)
Definition post_without_tid (pid : Z) : Post :=
  {| pid := Some pid; tid := None; fid := Some 1;
     author_name := Some "user"; author_uid := Some 100;
     post_date := Some "2024-01-01 12:00"; post_timestamp := Some 1704096000;
     content := Some "text"; post_number := Some 1 |}.

Definition empty_db : DB :=
  {| threads := ∅; posts := ∅; monitored_threads := ∅; monitoring_events := [] |}.

Definition fresh_conn (db : DB) : Conn := {| committed := db; working := db |}.

(** *** The world after a check *)

(** The event a check without new posts logs. *)
Definition no_new_posts_event (tid now : Z) : EventRow :=
  {| event_tid := tid; event_type := "check"; post_count := 0;
     message := "No new posts"; event_created_at := now |}.

(** The world after a check of [tid] that found no new post on the
    page [first_page]. *)
Definition after_quiet_check (tid : Z) (first_page : Page) (w : World) : World :=
  let now := clock w in
  let db :=
    upsert_thread (page_tid first_page) (page_thread_row now first_page)
      (add_event (no_new_posts_event tid now)
         (touch_last_checked tid now (db_of w))) in
  {| conn := fresh_conn db; clock := clock w;
     fetched := fetched w ++ [(tid, 1)]; submitted := submitted w;
     polls := polls w; outbox := outbox w |}.

(** A subscription row with a new [last_checked]. *)
Definition checked_at (now : Z) (row : MonitorRow) : MonitorRow :=
  {| author_filter := author_filter row;
     author_notification := author_notification row;
     check_interval := check_interval row; last_checked := Some now;
     last_post_timestamp := last_post_timestamp row; is_active := is_active row;
     monitor_created_at := monitor_created_at row |}.

(** What the upsert of [save_thread] leaves of an old row. *)
Definition refreshed (old new : ThreadRow) : ThreadRow :=
  {| title := title new; thread_author_name := thread_author_name old;
     thread_author_uid := thread_author_uid old;
     total_posts := total_posts new; total_pages := total_pages new;
     thread_created_at := thread_created_at old; updated_at := updated_at new |}.

(** The world after the monitor fetched the pages itself, in order. *)
Definition log_fetches (tid : Z) (pages : list Z) (w : World) : World :=
  {| conn := conn w; clock := clock w;
     fetched := fetched w ++ ((λ page, (tid, page)) <$> pages);
     submitted := submitted w; polls := polls w; outbox := outbox w |}.

(** The notifications for the eligible posts of the authors to notify. *)
Definition notifications_for (tid : Z) (thread_title : string)
    (notification_uids : gset Z) (filtered_new_posts : list Post) : list Notification :=
  notification_of tid thread_title
    <$> filter (λ post, post_author post ∈ notification_uids) filtered_new_posts.

(** The event a check with new posts logs. *)
Definition new_posts_event (tid now : Z) (new_posts_to_save filtered_new_posts : list Post)
  : EventRow :=
  match filtered_new_posts with
  | _ :: _ =>
      {| event_tid := tid; event_type := "new_post";
         post_count := Z.of_nat (length filtered_new_posts);
         message := "Found " +:+ str_int (Z.of_nat (length filtered_new_posts))
                    +:+ " new posts (filtered by author)";
         event_created_at := now |}
  | [] =>
      {| event_tid := tid; event_type := "check";
         post_count := Z.of_nat (length new_posts_to_save);
         message := "Found " +:+ str_int (Z.of_nat (length new_posts_to_save))
                    +:+ " new posts (none match filter)";
         event_created_at := now |}
  end.

(** The world after [check_thread] on [tid] saved the new posts it
    found and committed: [first_page] is the page just fetched,
    [start_page] and [end_page] bound the pages fetched after it. *)
Definition after_new_posts_check (net : network) (tid : Z) (author_uids : gset Z)
    (first_page : Page) (start_page end_page : Z) (w : World) : World :=
  let now := clock w in
  let pages := range_incl start_page end_page in
  let fresh := fresh_posts (posts (db_of w)) (posts_of_pages net tid pages) in
  let eligible := eligible_posts author_uids fresh in
  let db :=
    add_event (new_posts_event tid now fresh eligible)
      (touch_last_checked tid now
         (upsert_thread (page_tid first_page) (page_thread_row now first_page)
            (set_posts (store_posts now fresh) (db_of w)))) in
  {| conn := fresh_conn db; clock := clock w;
     fetched := fetched w ++ (tid, 1) :: ((λ page, (tid, page)) <$> pages);
     submitted := submitted w; polls := polls w; outbox := outbox w |}.

(** The world with the notifications sent. *)
Definition notified (sent : list Notification) (w : World) : World :=
  {| conn := conn w; clock := clock w; fetched := fetched w;
     submitted := submitted w; polls := polls w; outbox := outbox w ++ sent |}.

(** The event the handler of [check_thread] logs. *)
Definition error_event (tid now : Z) (e : exn) : EventRow :=
  {| event_tid := tid; event_type := "error"; post_count := 0;
     message := "Error checking thread: " +:+ str_exn e;
     event_created_at := now |}.

(** The world with the error event written, not committed. *)
Definition with_error_event (tid : Z) (e : exn) (w : World) : World :=
  set_conn (execute (add_event (error_event tid (clock w) e))) w.

(** *** A sample monitor *)

Definition sample_thread_row (total_posts' total_pages' : Z) : ThreadRow :=
  {| title := "Thread"; thread_author_name := "op"; thread_author_uid := 100;
     total_posts := total_posts'; total_pages := total_pages';
     thread_created_at := 0; updated_at := 0 |}.

Definition sample_subscription (author_filter' : option string)
    (last_checked' : option Z) : MonitorRow :=
  {| author_filter := author_filter'; author_notification := Some "100";
     check_interval := 300; last_checked := last_checked';
     last_post_timestamp := 0; is_active := true; monitor_created_at := 0 |}.

(** A monitor of thread 7 with 20 posts to the page: the thread row
    stores [old_total_posts], the posts table holds [stored]. *)
Definition sample_world (old_total_posts : Z) (author_filter' : option string)
    (stored : list Post) : World :=
  {| conn := fresh_conn
       {| threads := {[ 7 := sample_thread_row old_total_posts
                               ((old_total_posts + 19) `div` 20) ]};
          posts := store_posts 0 stored ∅;
          monitored_threads := {[ 7 := sample_subscription author_filter' (Some 0) ]};
          monitoring_events := [] |};
     clock := 1000; fetched := []; submitted := []; polls := 0; outbox := [] |}.

Definition sample_first_page : Page :=
  sample_page 45 3 [sample_raw_post 1000 100 0].

(** A forum where thread 7 has 45 posts on three pages; the posts 40 to
    44 are on page 3, the post 43 by another author. *)
Definition forum_45 : network := λ tid page,
  if decide (page = 1) then Reply sample_first_page
  else if decide (page = 3) then
    Reply (sample_page 45 3 [sample_raw_post 1040 100 40; sample_raw_post 1041 100 41;
                             sample_raw_post 1042 100 42; sample_raw_post 1043 200 43;
                             sample_raw_post 1044 100 44])
  else Reply (sample_page 45 3 [sample_raw_post 1020 100 20]).

(** The start page the specification asks of an incremental check when
    the stored maximum post number and the stored total disagree: that
    of the reconciliation, anchored on the maximum post number. *)
Definition reanchored_start_page (max_post_number posts_per_page : Z) : Z :=
  max_post_number `div` posts_per_page + 1.

(** The world with another posts table. *)
Definition with_posts (table : gmap Z PostRow) (w : World) : World :=
  set_conn (λ c, {| committed := set_posts (λ _, table) (committed c);
                    working := set_posts (λ _, table) (working c) |}) w.

(** *** A sample configuration *)

(** A forum where every thread has one post on one page. *)
Definition forum_one_post : network := λ tid page,
  Reply (sample_page 1 1 [raw_post_in tid (1000 * tid) 100 0]).

(** The store before the first synchronisation: the threads 7 and 8 and
    their posts are there, no subscription is. *)
Definition world_before_sync : World :=
  {| conn := fresh_conn
       {| threads := {[ 7 := sample_thread_row 1 1; 8 := sample_thread_row 1 1 ]};
          posts := store_posts 0 [parse_post (raw_post_in 7 7000 100 0);
                                  parse_post (raw_post_in 8 8000 100 0)] ∅;
          monitored_threads := ∅; monitoring_events := [] |};
     clock := 1000; fetched := []; submitted := []; polls := 0; outbox := [] |}.

(** An entry for thread 7 that names an author that is not a number,
    and an entry for thread 8. *)
Definition config_bad_author_7 : ThreadConfig :=
  {| cfg_tid := Some 7; cfg_enabled := None;
     cfg_author_filter := Some [JStr "abc"];
     cfg_author_notification := None; cfg_check_interval := None |}.

Definition config_thread_7 : ThreadConfig :=
  {| cfg_tid := Some 7; cfg_enabled := Some true;
     cfg_author_filter := Some [JInt 100; JInt 200];
     cfg_author_notification := Some [JInt 100]; cfg_check_interval := Some 60 |}.

Definition config_thread_8 : ThreadConfig :=
  {| cfg_tid := Some 8; cfg_enabled := None; cfg_author_filter := None;
     cfg_author_notification := None; cfg_check_interval := None |}.

(** Completion in page order. *)
Definition in_page_order : Z → list Z → list Z := λ tid pages, pages.

(** The monitor after it read the entry for thread 8 at time 1000 and,
    from a later configuration file, the entry for thread 7 at time
    2000. *)
Definition world_after_sync : World :=
  let w1 := (load_from_config forum_one_post None in_page_order [config_thread_8]
               world_before_sync).2 in
  (load_from_config forum_one_post None in_page_order [config_bad_author_7]
     (set_clock 2000 w1)).2.

(** The tids [list_monitored] returns, in its order. *)
Definition monitored_tids (w : World) : list Z :=
  match (list_monitored w).1 with
  | Ok rows => (λ row : monitored_row, row.1.1) <$> rows
  | Raise _ => []
  end.

(** *** Reconciliation *)

(** The posts of a delivered page that [save_page_callback] of
    [load_from_config] keeps: those numbered above [max_post_number]. *)
Definition posts_beyond (max_post_number : Z) (page_result : option Page) : list Post :=
  filter (λ post, max_post_number < post_lou post) (page_posts (Ok page_result)).

(** The world after [save_posts_batch] on posts that have their keys;
    the callbacks do not call it on an empty list. *)
Definition save_posts_world (posts' : list Post) (w : World) : World :=
  match posts' with
  | [] => w
  | _ :: _ =>
      set_conn (λ c, commit (execute (set_posts (store_posts (clock w) posts')) c)) w
  end.

(** What the callbacks of a reconciliation leave as it was in the world
    [w0] they started from, and what they may add: rows numbered above
    [max_post_number]. *)
Definition only_newer_posts (max_post_number : Z) (w0 : World) (s : World * unit) : Prop :=
  let w := s.1 in
  fetched w = fetched w0 ∧ submitted w = submitted w0 ∧ polls w = polls w0
  ∧ outbox w = outbox w0 ∧ clock w = clock w0
  ∧ threads (db_of w) = threads (db_of w0)
  ∧ monitored_threads (db_of w) = monitored_threads (db_of w0)
  ∧ monitoring_events (db_of w) = monitoring_events (db_of w0)
  ∧ committed (conn w) = working (conn w)
  ∧ ∀ k row, posts (db_of w) !! k = Some row →
             posts (db_of w0) !! k = Some row ∨ max_post_number < row_post_number row.

(** The subscription row after the UPDATE of [load_from_config]. *)
Definition resubscribed (thread_config : ThreadConfig) (old : MonitorRow) : MonitorRow :=
  {| author_filter := join_or_none (cfg_author_filter thread_config);
     author_notification := join_or_none (cfg_author_notification thread_config);
     check_interval := default 300 (cfg_check_interval thread_config);
     last_checked := last_checked old;
     last_post_timestamp := last_post_timestamp old; is_active := true;
     monitor_created_at := monitor_created_at old |}.

(** The subscription row after [load_from_config] wrote it: an old row
    updated, or a new row inserted at the time [now]. *)
Definition subscription_written (thread_config : ThreadConfig) (tid : Z)
    (existing : option MonitorRow) (latest_timestamp now : Z) : MonitorRow :=
  match existing with
  | Some old => resubscribed thread_config old
  | None =>
      new_subscription tid (join_or_none (cfg_author_filter thread_config))
        (join_or_none (cfg_author_notification thread_config))
        (default 300 (cfg_check_interval thread_config)) latest_timestamp now
  end.

(** The statement that ends an entry of [load_from_config] with stored
    posts: UPDATE when [existing] is a row, INSERT when it is not. *)
Definition write_subscription_db (thread_config : ThreadConfig) (tid : Z)
    (existing : option MonitorRow) (latest_timestamp now : Z) (db : DB) : DB :=
  match existing with
  | Some _ =>
      update_subscription tid (join_or_none (cfg_author_filter thread_config))
        (join_or_none (cfg_author_notification thread_config))
        (default 300 (cfg_check_interval thread_config)) db
  | None =>
      insert_subscription tid (join_or_none (cfg_author_filter thread_config))
        (join_or_none (cfg_author_notification thread_config))
        (default 300 (cfg_check_interval thread_config)) latest_timestamp now db
  end.

(** The counters after that statement. *)
Definition count_written (existing : option MonitorRow) (acc : SyncCounters) : SyncCounters :=
  match existing with
  | Some _ => count_updated acc
  | None => count_added acc
  end.

(** The world after [load_from_config] read the entry of a thread whose
    stored posts are up to date. *)
Definition after_up_to_date_sync (thread_config : ThreadConfig) (tid : Z) (w : World) : World :=
  let db :=
    write_subscription_db thread_config tid (monitored_threads (db_of w) !! tid)
      (default 0 (max_post_timestamp tid (db_of w))) (clock w) (db_of w) in
  {| conn := fresh_conn db; clock := clock w;
     fetched := fetched w ++ [(tid, 1)]; submitted := submitted w;
     polls := polls w; outbox := outbox w |}.

(** What the crawl of a reconciliation changes from [w1] to [w2]: the
    pages are handed to the pool, and rows numbered above
    [max_post_number] are written and committed. *)
Definition crawled_from (max_post_number tid : Z) (pages : list Z) (w1 w2 : World) : Prop :=
  fetched w2 = fetched w1
  ∧ submitted w2 = submitted w1 ++ ((λ page, (tid, page)) <$> pages)
  ∧ outbox w2 = outbox w1 ∧ clock w2 = clock w1
  ∧ threads (db_of w2) = threads (db_of w1)
  ∧ monitored_threads (db_of w2) = monitored_threads (db_of w1)
  ∧ monitoring_events (db_of w2) = monitoring_events (db_of w1)
  ∧ committed (conn w2) = working (conn w2)
  ∧ ∀ k row, posts (db_of w2) !! k = Some row →
             posts (db_of w1) !! k = Some row ∨ max_post_number < row_post_number row.

(** The world after [save_thread] on the thread of the first page. *)
Definition after_save_thread (first_page : Page) (w : World) : World :=
  set_conn (λ c, commit (execute (upsert_thread (page_tid first_page)
                                    (page_thread_row (clock w) first_page)) c)) w.

(** The world after the statement that writes the subscription, and the
    commit. *)
Definition after_write_subscription (thread_config : ThreadConfig) (tid : Z)
    (existing : option MonitorRow) (w : World) : World :=
  set_conn (λ c, commit (execute (write_subscription_db thread_config tid existing
                                    (default 0 (max_post_timestamp tid (db_of w)))
                                    (clock w)) c)) w.


(* ===================================================================== *)
(** ** database.py: the single-post write and the queries on [posts] *)
(* ===================================================================== *)

(** *** save_post *)

Definition save_post (now : Z) (post_data : Post) (c : Conn) : bool * Conn :=
  match post_params now post_data with
  | Ok (pid, row) => (true, commit (execute (replace_post pid row) c))
  | Raise _ => (false, rollback c)
  end.

(** Saving the posts one [save_post] at a time: the connection reached
    and the number of calls that returned [True]. *)
Definition save_each (now : Z) (posts' : list Post) (c : Conn) : Z * Conn :=
  foldl (λ acc post_data,
           let '(saved, c') := save_post now post_data acc.2 in
           (if saved : bool then acc.1 + 1 else acc.1, c'))
        (0, c) posts'.

(** A post dictionary has the seven keys the INSERT reads with
    [post_data[...]]. *)
Definition post_complete (post : Post) : bool :=
  has_key (pid post) && has_key (tid post) && has_key (fid post)
  && has_key (author_name post) && has_key (author_uid post)
  && has_key (post_date post) && has_key (post_timestamp post).

(** A thread dictionary has the four keys the INSERT reads with
    [thread_data[...]]. *)
Definition thread_complete (thread_data : Thread) : bool :=
  has_key (th_tid thread_data) && has_key (th_title thread_data)
  && has_key (th_author_name thread_data) && has_key (th_author_uid thread_data).

(** *** get_posts_after *)

(** A row of [posts] as the queries return it: the pid and the other
    columns. *)
Definition post_record : Type := Z * PostRow.

(** ORDER BY post_number *)
Definition by_post_number (a b : post_record) : Prop :=
  row_post_number a.2 ≤ row_post_number b.2.

#[global] Instance by_post_number_dec a b : Decision (by_post_number a b).
Proof. unfold by_post_number. apply _. Defined.

(** [get_posts_after]: [if author_uid:] takes the second query for
    [None] and for 0.  SQLite leaves the order of equal post numbers
    open, the model takes one. *)
Definition get_posts_after (tid start_post_number : Z) (author_uid : option Z)
    (c : Conn) : list post_record :=
  let rows := map_to_list (posts (working c)) in
  let selected :=
    match author_uid with
    | Some uid =>
        if decide (uid = 0)
        then filter (λ r : post_record,
                       row_tid r.2 = tid ∧ row_post_number r.2 > start_post_number) rows
        else filter (λ r : post_record,
                       row_tid r.2 = tid ∧ row_post_number r.2 > start_post_number
                       ∧ row_author_uid r.2 = uid) rows
    | None =>
        filter (λ r : post_record,
                  row_tid r.2 = tid ∧ row_post_number r.2 > start_post_number) rows
    end in
  merge_sort by_post_number selected.

(** The posts of tests/test_api.py. *)
Definition api_test_posts : list Post :=
  [ {| pid := Some 1; tid := Some 12345; fid := Some 1;
       author_name := Some "User1"; author_uid := Some 100;
       post_date := Some "2024-01-01 12:00"; post_timestamp := Some 1704096000;
       content := Some "Post 1"; post_number := Some 1 |};
    {| pid := Some 2; tid := Some 12345; fid := Some 1;
       author_name := Some "User2"; author_uid := Some 200;
       post_date := Some "2024-01-01 12:01"; post_timestamp := Some 1704096060;
       content := Some "Post 2"; post_number := Some 2 |};
    {| pid := Some 3; tid := Some 12345; fid := Some 1;
       author_name := Some "User1"; author_uid := Some 100;
       post_date := Some "2024-01-01 12:02"; post_timestamp := Some 1704096120;
       content := Some "Post 3"; post_number := Some 3 |} ].

(** The connection of tests/test_api.py after its posts are saved. *)
Definition api_test_conn : Conn :=
  (save_each 0 api_test_posts (fresh_conn empty_db)).2.

(* ===================================================================== *)
(** ** monitor.py: what a check leaves behind *)
(* ===================================================================== *)

(** The event [check_thread] logs when the first page does not come. *)
Definition failed_fetch_event (tid now : Z) : EventRow :=
  {| event_tid := tid; event_type := "error"; post_count := 0;
     message := "Failed to fetch thread"; event_created_at := now |}.

(** The world after a check whose first page did not come: the request
    was made and the event is written, not committed. *)
Definition after_failed_fetch (tid : Z) (w : World) : World :=
  set_conn (execute (add_event (failed_fetch_event tid (clock w)))) (log_fetch tid 1 w).

(** What a check of [tid] may change from [w] to [w']: it requests
    pages of [tid] itself and hands nothing to the worker pool, reads
    neither the stop event nor moves the clock, may send notifications,
    keeps every stored post, refreshes at most the thread row of one
    page, sets at most [last_checked] of the subscription of [tid], and
    appends events of [tid]. *)
Record check_footprint (tid : Z) (w w' : World) : Prop := {
  fp_fetched : ∃ pages, fetched w' = fetched w ++ ((λ page, (tid, page)) <$> pages);
  fp_submitted : submitted w' = submitted w;
  fp_polls : polls w' = polls w;
  fp_clock : clock w' = clock w;
  fp_outbox : outbox w `prefix_of` outbox w';
  fp_posts : posts (db_of w) ⊆ posts (db_of w');
  fp_threads :
    threads (db_of w') = threads (db_of w)
    ∨ ∃ first_page,
        threads (db_of w')
        = threads (upsert_thread (page_tid first_page)
                     (page_thread_row (clock w) first_page) (db_of w));
  fp_monitored :
    monitored_threads (db_of w') = monitored_threads (db_of w)
    ∨ monitored_threads (db_of w')
      = monitored_threads (touch_last_checked tid (clock w) (db_of w));
  fp_events :
    ∃ events, monitoring_events (db_of w') = monitoring_events (db_of w) ++ events
              ∧ Forall (λ e, event_tid e = tid) events
}.

(** The first page of a range whose fetch raises. *)
Definition first_crash (net : network) (tid : Z) (pages : list Z) : option (nat * Z) :=
  list_find (λ page_num, is_ok (fetch_page net tid page_num) = false) pages.

(** The author filter of every active subscription is a list of
    numbers. *)
Definition filters_parse (w : World) : Prop :=
  ∀ t row, active_subscription t (db_of w) = Some row →
           is_ok (parse_author_uids (author_filter row)) = true.

(* ===================================================================== *)
(** ** monitor.py: remove_thread *)
(* ===================================================================== *)

(** UPDATE monitored_threads SET is_active = 0 WHERE tid = ? *)
Definition deactivate (tid : Z) (db : DB) : DB :=
  set_monitored (alter (λ old,
    {| author_filter := author_filter old;
       author_notification := author_notification old;
       check_interval := check_interval old; last_checked := last_checked old;
       last_post_timestamp := last_post_timestamp old; is_active := false;
       monitor_created_at := monitor_created_at old |}) tid) db.

Definition remove_thread (tid : Z) : M bool :=
  try_except
    (db_execute (λ _, deactivate tid);;;
     db_commit;;;
     ret true)
    (λ _, ret false).

(** ORDER BY m.last_checked DESC, on the rows of the join. *)
Definition latest_check_first (a b : monitored_row) : Prop :=
  checked_not_before a.1.2 b.1.2 = true.

(* ===================================================================== *)
(** ** monitor.py: add_thread *)
(* ===================================================================== *)

(** What saving posts leaves of the world [w0]: everything but the posts
    table, where no pid is lost, and nothing uncommitted. *)
Definition saving_posts_keeps (w0 w : World) : Prop :=
  committed (conn w) = working (conn w)
  ∧ monitored_threads (db_of w) = monitored_threads (db_of w0)
  ∧ threads (db_of w) = threads (db_of w0)
  ∧ monitoring_events (db_of w) = monitoring_events (db_of w0)
  ∧ clock w = clock w0 ∧ fetched w = fetched w0 ∧ submitted w = submitted w0
  ∧ outbox w = outbox w0
  ∧ ∀ k, is_Some (posts (db_of w0) !! k) → is_Some (posts (db_of w) !! k).

(** The subscription [add_thread] writes. *)
Definition subscribed_by_add_thread (author_filter' author_notification' : option (list jscalar))
    (check_interval' now : Z) (row : MonitorRow) : Prop :=
  is_active row = true
  ∧ author_filter row = join_or_none author_filter'
  ∧ author_notification row = join_or_none author_notification'
  ∧ check_interval row = check_interval'
  ∧ last_checked row = Some now.

(* ===================================================================== *)
(** ** monitor.py: the summary of load_from_config *)
(* ===================================================================== *)

(** The entries a summary accounts for. *)
Definition entries_counted (c : SyncCounters) : Z :=
  added c + updated c + skipped c + Z.of_nat (length (errors c)).

(* ===================================================================== *)
(** ** notification.py *)
(* ===================================================================== *)

Module Notification.

(** The keys of the configuration the senders read. *)
Record Config : Type := {
  bark_enabled : option bool;
  bark_server_url : option string;
  bark_device_key : option string;
  bark_sound : option string;
  bark_group : option string;
  bark_icon : option string;
  console_notification_enabled : option bool
}.

(** The keyword arguments of [send] that a sender reads. *)
Record Kwargs : Type := {
  kw_url : option string;
  kw_sound : option string;
  kw_group : option string;
  kw_icon : option string
}.

(** What [requests.get] and the decoding of its body meet: a JSON
    object with its [code], if it has one; a [RequestException], which
    [raise_for_status] also raises; or any other exception. *)
Inductive http_reply : Type :=
| JsonBody (code : option Z)
| HttpRequestException
| OtherException (e : exn).

(** A GET request: the URL and the query parameters, in the order the
    code adds them. *)
Definition http_request : Type := string * list (string * string).

(** The Bark server. *)
Definition gateway : Type := http_request → http_reply.

(** [s.rstrip('/')] *)
Fixpoint lstrip_slash (s : string) : string :=
  match s with
  | String a s' => if decide (a = "/"%char) then lstrip_slash s' else s
  | EmptyString => EmptyString
  end.

Definition rstrip_slash (s : string) : string :=
  String.rev (lstrip_slash (String.rev s)).

(** [n] slashes. *)
Fixpoint slashes (n : nat) : string :=
  match n with
  | O => ""
  | S n => String "/" (slashes n)
  end.

(** The truth value of a string. *)
Definition nonempty (s : string) : bool :=
  match s with EmptyString => false | String _ _ => true end.

(** *** BarkNotificationSender *)

Record BarkNotificationSender : Type := {
  server_url : string;
  device_key : string;
  sound : string;
  group : string;
  icon : string
}.

(** [BarkNotificationSender.__init__] *)
Definition bark_init (config : Config) : BarkNotificationSender :=
  {| server_url := default "" (bark_server_url config);
     device_key := default "" (bark_device_key config);
     sound := default "default" (bark_sound config);
     group := default "NGA" (bark_group config);
     icon := default "" (bark_icon config) |}.

Definition bark_is_configured (self : BarkNotificationSender) : bool :=
  nonempty (server_url self) && nonempty (device_key self).

(** The request [BarkNotificationSender.send] builds. *)
Definition bark_request (self : BarkNotificationSender) (title message : string)
    (kwargs : Kwargs) : http_request :=
  let api_url := rstrip_slash (server_url self) +:+ "/" +:+ device_key self in
  let params :=
    [("title", title); ("body", message);
     ("sound", default (sound self) (kw_sound kwargs));
     ("group", default (group self) (kw_group kwargs))] in
  let params :=
    match kw_url kwargs with
    | Some url => if nonempty url then params ++ [("url", url)] else params
    | None => params
    end in
  let icon' := default (icon self) (kw_icon kwargs) in
  let params := if nonempty icon' then params ++ [("icon", icon')] else params in
  (api_url, params).

(** [BarkNotificationSender.send]: both handlers return [False]. *)
Definition bark_send (server : gateway) (self : BarkNotificationSender)
    (title message : string) (kwargs : Kwargs) : bool :=
  if negb (bark_is_configured self) then false
  else
    match server (bark_request self title message kwargs) with
    | JsonBody code => bool_decide (code = Some 200)
    | HttpRequestException => false
    | OtherException _ => false
    end.

(** *** ConsoleNotificationSender *)

Record ConsoleNotificationSender : Type := {
  enabled : bool
}.

(** [ConsoleNotificationSender.__init__] *)
Definition console_init (config : option Config) : ConsoleNotificationSender :=
  {| enabled :=
       match config with
       | Some config => default true (console_notification_enabled config)
       | None => true
       end |}.

Definition console_is_configured (self : ConsoleNotificationSender) : bool :=
  enabled self.

Definition console_send (self : ConsoleNotificationSender)
    (title message : string) (kwargs : Kwargs) : bool :=
  if negb (enabled self) then false else true.

(** *** The interface and the manager *)

(** [NotificationSender]: what a sender offers. *)
Class NotificationSender (T : Type) : Type := {
  send : gateway → T → string → string → Kwargs → bool;
  is_configured : T → bool
}.

#[global] Instance bark_sender : NotificationSender BarkNotificationSender :=
  {| send := bark_send; is_configured := bark_is_configured |}.

#[global] Instance console_sender : NotificationSender ConsoleNotificationSender :=
  {| send := λ _, console_send; is_configured := console_is_configured |}.

(** An entry of [NotificationManager.senders]. *)
Inductive sender : Type :=
| Bark (self : BarkNotificationSender)
| Console (self : ConsoleNotificationSender).

#[global] Instance any_sender : NotificationSender sender :=
  {| send := λ server self,
       match self with
       | Bark self => send server self
       | Console self => send server self
       end;
     is_configured := λ self,
       match self with
       | Bark self => is_configured self
       | Console self => is_configured self
       end |}.

(** [NotificationManager.__init__]: the senders. *)
Definition manager_init (config : Config) : list sender :=
  let senders := [] in
  let senders :=
    if default false (bark_enabled config) then
      let bark_sender := bark_init config in
      if is_configured bark_sender then senders ++ [Bark bark_sender] else senders
    else senders in
  let console_sender := console_init (Some config) in
  if is_configured console_sender then senders ++ [Console console_sender] else senders.

(** [NotificationManager.send] *)
Definition manager_send (server : gateway) (senders : list sender)
    (title message : string) (kwargs : Kwargs) : Z :=
  foldl (λ success_count sender,
           if send server sender title message kwargs
           then success_count + 1 else success_count)
        0 senders.

(** [NotificationManager.has_senders] *)
Definition has_senders (senders : list sender) : bool :=
  bool_decide (0 < length senders)%nat.

End Notification.

(* ===================================================================== *)
(** ** database.py: the queries with a LIMIT *)
(* ===================================================================== *)

(** ORDER BY post_timestamp *)
Definition by_post_timestamp (a b : post_record) : Prop :=
  row_post_timestamp a.2 ≤ row_post_timestamp b.2.

#[global] Instance by_post_timestamp_dec a b : Decision (by_post_timestamp a b).
Proof. unfold by_post_timestamp. apply _. Defined.

(** ORDER BY post_timestamp DESC *)
Definition by_post_timestamp_desc (a b : post_record) : Prop :=
  row_post_timestamp b.2 ≤ row_post_timestamp a.2.

#[global] Instance by_post_timestamp_desc_dec a b : Decision (by_post_timestamp_desc a b).
Proof. unfold by_post_timestamp_desc. apply _. Defined.

(** [query += f' LIMIT {limit}'] under [if limit:]: no clause for
    [None] and for 0; SQLite reads a negative LIMIT as no limit. *)
Definition sql_limit {A} (limit : option Z) (rows : list A) : list A :=
  match limit with
  | Some n =>
      if decide (n = 0) then rows
      else if decide (n < 0) then rows
      else take (Z.to_nat n) rows
  | None => rows
  end.

(** [get_posts_by_thread] *)
Definition get_posts_by_thread (tid : Z) (limit : option Z) (c : Conn) : list post_record :=
  sql_limit limit
    (merge_sort by_post_timestamp
       (filter (λ r : post_record, row_tid r.2 = tid) (map_to_list (posts (working c))))).

(** [get_posts_by_author] *)
Definition get_posts_by_author (author_uid : Z) (limit : option Z) (c : Conn)
  : list post_record :=
  sql_limit limit
    (merge_sort by_post_timestamp_desc
       (filter (λ r : post_record, row_author_uid r.2 = author_uid)
          (map_to_list (posts (working c))))).

(* ===================================================================== *)
(** ** monitor.py: get_events *)
(* ===================================================================== *)

(** A row [get_events] returns: the event, and the title of its thread
    when the query joins [threads]. *)
Definition event_record : Type := EventRow * option string.

(** ORDER BY created_at DESC *)
Definition newest_first (a b : event_record) : Prop :=
  event_created_at b.1 ≤ event_created_at a.1.

#[global] Instance newest_first_dec a b : Decision (newest_first a b).
Proof. unfold newest_first. apply _. Defined.

(** [LIMIT ?]: SQLite reads a negative LIMIT as no limit. *)
Definition sql_limit_param {A} (limit : Z) (rows : list A) : list A :=
  if decide (limit < 0) then rows else take (Z.to_nat limit) rows.

(** FROM monitoring_events e JOIN threads t ON e.tid = t.tid *)
Definition events_with_title (db : DB) : list event_record :=
  omap (λ e, (λ t, (e, Some (title t))) <$> threads db !! event_tid e)
       (monitoring_events db).

(** [get_events]: [if tid:] takes the joined query for [None] and for
    0.  SQLite leaves the order of events of the same second open, the
    model takes one. *)
Definition get_events (tid : option Z) (limit : Z) : M (list event_record) :=
  db_query (λ db,
    let selected :=
      match tid with
      | Some t =>
          if decide (t = 0) then events_with_title db
          else (λ e, (e, None)) <$> filter (λ e, event_tid e = t) (monitoring_events db)
      | None => events_with_title db
      end in
    sql_limit_param limit (merge_sort newest_first selected)).

(* ===================================================================== *)
(** ** Text of numbers *)
(* ===================================================================== *)

(** Every character of the text satisfies [P]. *)
Fixpoint string_forall (P : ascii → bool) (s : string) : bool :=
  match s with
  | EmptyString => true
  | String a s' => P a && string_forall P s'
  end.

(** A decimal digit. *)
Definition is_digit (a : ascii) : bool := has_key (digit_val a).

(** A character of [str(n)]: a digit or the minus sign. *)
Definition is_number_char (a : ascii) : bool :=
  is_digit a || bool_decide (a = "-"%char).

(* ===================================================================== *)
(** ** monitor.py: what a synchronisation leaves behind *)
(* ===================================================================== *)

(** The thread ids of the entries [load_from_config] acts on: those
    that have a tid other than 0 and are not disabled. *)
Definition synced_tids (entries : list ThreadConfig) : list Z :=
  omap (λ thread_config,
          match cfg_tid thread_config with
          | Some tid =>
              if decide (tid = 0) then None
              else if default true (cfg_enabled thread_config) then Some tid else None
          | None => None
          end) entries.

(** What synchronising the threads [tids] may change from [w] to [w']:
    it requests the first page of some of them, in order, hands pages
    of them to the worker pool, sends no notification, leaves the clock
    and the subscriptions of other threads alone, and loses no stored
    post. *)
Record sync_footprint (tids : list Z) (w w' : World) : Prop := {
  sf_fetched :
    ∃ requested, requested `sublist_of` tids
                 ∧ fetched w' = fetched w ++ ((λ t, (t, 1)) <$> requested);
  sf_submitted :
    ∃ handed, submitted w' = submitted w ++ handed
              ∧ Forall (λ page : Z * Z, page.1 ∈ tids) handed;
  sf_outbox : outbox w' = outbox w;
  sf_clock : clock w' = clock w;
  sf_monitored :
    ∀ t, t ∉ tids → monitored_threads (db_of w') !! t = monitored_threads (db_of w) !! t;
  sf_posts : ∀ k, is_Some (posts (db_of w) !! k) → is_Some (posts (db_of w') !! k)
}.

(* ===================================================================== *)
(** ** monitor.py: run_loop *)
(* ===================================================================== *)

(** How a run of the loop ended within the iterations it was given:
    the stop event was seen set, or the loop goes on. *)
Inductive loop_end : Type :=
| Stopped
| StillRunning.

(** [time.sleep(seconds)]: a negative length raises a [ValueError],
    which is not the [ValueError] of [int()]. *)
Definition time_sleep (seconds : Z) : M unit :=
  if decide (seconds < 0) then raise (Fault "sleep length must be non-negative")
  else sleep seconds.

(** [time_since_check]: the time since [last_checked], which the
    subscription stores as the local time of the check, and one second
    more than the interval for a thread never checked. *)
Definition time_since_check (current_time : Z) (thread : monitored_row) : Z :=
  match last_checked thread.1.2 with
  | Some last_check_timestamp => current_time - last_check_timestamp
  | None => check_interval thread.1.2 + 1
  end.

(** [time_since_check >= check_interval] *)
Definition is_due (current_time : Z) (thread : monitored_row) : Prop :=
  time_since_check current_time thread >= check_interval thread.1.2.

#[global] Instance is_due_dec current_time thread : Decision (is_due current_time thread).
Proof. unfold is_due. apply _. Defined.

(** [threads_to_check] *)
Definition threads_to_check (current_time : Z) (monitored : list monitored_row)
  : list monitored_row :=
  filter (is_due current_time) monitored.

Section RunLoop.

Variable net : network.
Variable stop_event : option (nat → bool).

(** The loop over [threads_to_check]. *)
Fixpoint check_due (due : list monitored_row) : M unit :=
  match due with
  | [] => ret tt
  | thread_info :: rest =>
      check_thread net thread_info.1.1;;;
      time_sleep 1;;;
      check_due rest
  end.

(** The wait in steps of one second, for a loop that has a stop event:
    whether the event was seen set. *)
Fixpoint wait_or_stop (seconds : nat) : M bool :=
  match seconds with
  | O => ret false
  | S seconds' =>
      stop <- stop_requested stop_event;;
      if stop : bool then ret true
      else time_sleep 1;;; wait_or_stop seconds'
  end.

(** [run_loop], for a number of iterations of its [while True]; the
    [KeyboardInterrupt] it handles comes from outside and is left
    out. *)
Fixpoint run_loop (iterations : nat) (check_all_interval : Z) : M loop_end :=
  match iterations with
  | O => ret StillRunning
  | S iterations' =>
      stop <- stop_requested stop_event;;
      if stop : bool then ret Stopped
      else
        monitored <- list_monitored;;
        match monitored with
        | [] =>
            time_sleep check_all_interval;;;
            run_loop iterations' check_all_interval
        | _ :: _ =>
            current_time <- get clock;;
            check_due (threads_to_check current_time monitored);;;
            match stop_event with
            | Some _ =>
                stopped <- wait_or_stop (Z.to_nat check_all_interval);;
                if stopped : bool then ret Stopped
                else run_loop iterations' check_all_interval
            | None =>
                time_sleep check_all_interval;;;
                run_loop iterations' check_all_interval
            end
        end
  end.

End RunLoop.

(* ===================================================================== *)
(** ** More sample data *)
(* ===================================================================== *)

(** The sample monitor of thread 7 with another notification list. *)
Definition sample_world_notifying (author_notification' : option string)
    (old_total_posts : Z) (stored : list Post) : World :=
  {| conn := fresh_conn
       {| threads := {[ 7 := sample_thread_row old_total_posts
                               ((old_total_posts + 19) `div` 20) ]};
          posts := store_posts 0 stored ∅;
          monitored_threads :=
            {[ 7 := {| author_filter := None; author_notification := author_notification';
                       check_interval := 300; last_checked := Some 0;
                       last_post_timestamp := 0; is_active := true;
                       monitor_created_at := 0 |} ]};
          monitoring_events := [] |};
     clock := 1000; fetched := []; submitted := []; polls := 0; outbox := [] |}.

(* ===================================================================== *)
(** ** The primitives on small inputs *)
(* ===================================================================== *)

Example int_plain : Py.int "100" = Ok 100.
Proof. reflexivity. Qed.

Example int_padded_signed : Py.int " -1_000 " = Ok (-1000).
Proof. reflexivity. Qed.

Example int_rejects_letters : Py.int "abc" = Raise (ValueError "abc").
Proof. reflexivity. Qed.

Example int_rejects_empty : Py.int "" = Raise (ValueError "").
Proof. reflexivity. Qed.

Example int_rejects_float : Py.int "12.0" = Raise (ValueError "12.0").
Proof. reflexivity. Qed.

Example split_trailing_comma : split ","%char "100,200," = ["100"; "200"; ""].
Proof. reflexivity. Qed.

Example join_config_authors :
  join_or_none (Some [JInt 100; JInt 200]) = Some "100,200".
Proof. reflexivity. Qed.

Example int_set_of_joined : int_set "100,200" = Ok (list_to_set [100; 200]).
Proof. reflexivity. Qed.

Example floordiv_rounds_down : floordiv (-5) 20 = Ok (-1).
Proof. reflexivity. Qed.

Example floordiv_by_zero : floordiv 41 0 = Raise ZeroDivisionError.
Proof. reflexivity. Qed.

Example range_incl_2_6 : range_incl 2 6 = [2; 3; 4; 5; 6].
Proof. reflexivity. Qed.

Example range_incl_empty : range_incl 6 2 = [].
Proof. reflexivity. Qed.

Example empty_page_is_false :
  page_truthy {| vrows := None; totalPage := None; perPage := None; tsubject := None;
                 tauthor := None; tauthorid := None; result_ := None;
                 other_keys := false |} = false.
Proof. reflexivity. Qed.

Example parse_page_without_posts :
  (parse_page_result (sample_page 45 3 [])).1
  = {| th_tid := Some 0; th_title := Some "Thread"; th_author_name := Some "op";
       th_author_uid := Some 100; th_total_posts := Some 45;
       th_total_pages := Some 3 |}.
Proof. reflexivity. Qed.

Example new_page_range_at_multiples :
  new_page_range 39 20 3 = Ok (2, 3)
  ∧ new_page_range 40 20 3 = Ok (3, 3)
  ∧ new_page_range 41 20 3 = Ok (3, 3)
  ∧ new_page_range 20 20 2 = Ok (2, 2)
  ∧ new_page_range 0 20 1 = Ok (1, 1)
  ∧ new_page_range 41 0 3 = Raise ZeroDivisionError.
Proof. repeat split; reflexivity. Qed.

(* ===================================================================== *)
(** ** Properties of the crawler *)
(* ===================================================================== *)

Section CrawlPagesRange.

Variable net : network.
Variable tid : Z.
Variable pages : list Z.

Local Abbreviation store_result := (store_result net tid pages).

Lemma store_result_length results index :
  length (store_result results index) = length results.
Proof.
  unfold store_result.
  destruct (pages !! index) as [page_num|]; [|done].
  destruct (fetch_page net tid page_num); [apply length_insert|done].
Qed.

Lemma foldl_store_result_length order results :
  length (foldl store_result results order) = length results.
Proof.
  revert results. induction order as [|index order IH]; intros results; simpl; [done|].
  rewrite IH. apply store_result_length.
Qed.

(** A slot that no completed future owns keeps its content. *)
Lemma foldl_store_result_other order results i :
  i ∉ order → foldl store_result results order !! i = results !! i.
Proof.
  revert results. induction order as [|index order IH]; intros results Hi; simpl; [done|].
  apply not_elem_of_cons in Hi as [Hne Hi].
  rewrite IH by done. unfold store_result.
  destruct (pages !! index) as [page_num|]; [|done].
  destruct (fetch_page net tid page_num); [|done].
  by apply list_lookup_insert_ne.
Qed.

(** A slot whose future completed holds what the fetch delivered, as long
    as it held [None] or that value before. *)
Lemma foldl_store_result_done order results i page_num :
  i ∈ order → pages !! i = Some page_num → (i < length results)%nat →
  results !! i = Some None ∨ results !! i = Some (delivered (fetch_page net tid page_num)) →
  foldl store_result results order !! i
  = Some (delivered (fetch_page net tid page_num)).
Proof.
  revert results.
  induction order as [|index order IH]; intros results Hin Hpage Hlen Hold.
  { by apply elem_of_nil in Hin. }
  simpl. destruct (decide (index = i)) as [->|Hne].
  - assert (store_result results i !! i
            = Some (delivered (fetch_page net tid page_num))) as Hnow.
    { unfold store_result. rewrite Hpage.
      destruct (fetch_page net tid page_num) as [result|e] eqn:Hfetch; simpl.
      - by apply list_lookup_insert_eq.
      - destruct Hold as [Hold|Hold]; done. }
    destruct (decide (i ∈ order)) as [Hlater|Hlater].
    + apply IH; [done|done|by rewrite store_result_length|by right].
    + by rewrite foldl_store_result_other.
  - apply elem_of_cons in Hin as [->|Hin]; [done|].
    apply IH; [done|done|by rewrite store_result_length|].
    unfold store_result.
    destruct (pages !! index) as [other|]; [|done].
    destruct (fetch_page net tid other); [|done].
    by rewrite list_lookup_insert_ne.
Qed.

End CrawlPagesRange.

Lemma crawl_pages_range_unfold net tid start_page end_page order :
  start_page ≤ end_page →
  crawl_pages_range net tid start_page end_page order
  = foldl (store_result net tid (range_incl start_page end_page))
      (replicate (length (range_incl start_page end_page)) None) order.
Proof.
  intros Hle. unfold crawl_pages_range.
  destruct (decide (start_page > end_page)); [lia|done].
Qed.

(** C10. [crawl_pages_range] returns the empty list on an empty range;
    on a range that is not empty, whatever the order in which the
    futures complete, it returns one entry for each page, in page order:
    the entry of a page is what its fetch returned, and [None] when the
    fetch failed. *)
Theorem crawl_pages_range_page_order net tid start_page end_page order :
  (start_page > end_page →
   crawl_pages_range net tid start_page end_page order = []) ∧
  (start_page ≤ end_page →
   order ≡ₚ seq 0 (Z.to_nat (end_page - start_page + 1)) →
   crawl_pages_range net tid start_page end_page order
   = (λ page_num, delivered (fetch_page net tid page_num))
       <$> range_incl start_page end_page
   ∧ length (crawl_pages_range net tid start_page end_page order)
     = Z.to_nat (end_page - start_page + 1)
   ∧ ∀ i : nat, (i < Z.to_nat (end_page - start_page + 1))%nat →
       crawl_pages_range net tid start_page end_page order !! i
       = Some (delivered (fetch_page net tid (start_page + Z.of_nat i)))).
Proof.
  split.
  { intros Hgt. unfold crawl_pages_range.
    destruct (decide (start_page > end_page)); [done|lia]. }
  intros Hle Hperm.
  set (n := Z.to_nat (end_page - start_page + 1)) in *.
  assert (length (range_incl start_page end_page) = n) as Hpages.
  { unfold range_incl. by rewrite length_seqZ. }
  assert (∀ i : nat, (i < n)%nat →
            crawl_pages_range net tid start_page end_page order !! i
            = Some (delivered (fetch_page net tid (start_page + Z.of_nat i)))) as Hat.
  { intros i Hi. rewrite crawl_pages_range_unfold by done.
    apply foldl_store_result_done.
    - rewrite Hperm. apply elem_of_seq. lia.
    - unfold range_incl. apply lookup_seqZ. subst n. lia.
    - rewrite length_replicate, Hpages. done.
    - left. apply lookup_replicate_2. by rewrite Hpages. }
  assert (length (crawl_pages_range net tid start_page end_page order) = n) as Hlen.
  { rewrite crawl_pages_range_unfold by done.
    by rewrite foldl_store_result_length, length_replicate. }
  split; [|done].
  apply list_eq. intros i. rewrite list_lookup_fmap.
  destruct (decide (i < n)%nat) as [Hi|Hi].
  - rewrite Hat by done. unfold range_incl.
    rewrite (lookup_seqZ_lt _ _ i) by (subst n; lia). done.
  - rewrite (lookup_ge_None_2 (crawl_pages_range _ _ _ _ _)) by lia.
    rewrite (lookup_ge_None_2 (range_incl _ _)) by lia. done.
Qed.

Section CrawlWithCallback.

Context {S : Type}.
Variable net : network.
Variable tid : Z.
Variable callback : @callback_t S.

Lemma status_invoked page_num result (r : report S) :
  status (invoked page_num result r) = status r.
Proof. done. Qed.

(** With a callback that returns normally and a stop event that is never
    seen set, the loop calls the callback once for each completed future,
    in completion order, and finishes. *)
Lemma process_quiet stop_event as_completed k s :
  never_set stop_event → never_raises callback →
  let r := process net tid callback stop_event as_completed k s in
  status r = Finished
  ∧ calls r = (λ page_num, (page_num, delivered (fetch_page net tid page_num)))
                <$> as_completed
  ∧ final r = run_callbacks net tid callback as_completed s.
Proof.
  intros Hstop Hquiet. revert k s.
  induction as_completed as [|page_num later IH]; intros k s; simpl; [done|].
  assert (stop_is_set stop_event k = false) as ->.
  { unfold stop_is_set. destruct stop_event as [is_set|]; [by apply Hstop|done]. }
  destruct (fetch_page net tid page_num) as [result|e]; simpl.
  - pose proof (Hquiet page_num result s) as Hq.
    destruct (callback page_num result s) as [s1 raised]; simpl in *; subst raised.
    destruct (IH (Datatypes.S k) s1) as (Hst & Hcalls & Hfinal).
    simpl. by rewrite Hst, Hcalls, Hfinal.
  - pose proof (Hquiet page_num None s) as Hq.
    destruct (callback page_num None s) as [s1 raised]; simpl in *; subst raised.
    destruct (IH (Datatypes.S k) s1) as (Hst & Hcalls & Hfinal).
    simpl. by rewrite Hst, Hcalls, Hfinal.
Qed.

(** Up to the reading of the stop event that shows it set, the loop does
    what it does without a stop event on the futures completed so far;
    there it returns, whatever completes later. *)
Lemma process_interrupted is_set before after k k0 s :
  (∀ j, (j < length before)%nat → is_set (k + j)%nat = false) →
  is_set (k + length before)%nat = true →
  after ≠ [] →
  status (process net tid callback None before k0 s) = Finished →
  let r := process net tid callback (Some is_set) (before ++ after) k s in
  let r0 := process net tid callback None before k0 s in
  status r = Interrupted ∧ calls r = calls r0 ∧ final r = final r0
  ∧ polled r = Datatypes.S (k + length before).
Proof.
  revert k k0 s.
  induction before as [|page_num later IH]; intros k k0 s Hclear Hset Hafter Hfin.
  { simpl in *. destruct after as [|page_num later]; [done|]. simpl.
    rewrite Nat.add_0_r in Hset. rewrite Hset. simpl.
    rewrite Nat.add_0_r. done. }
  simpl in *.
  assert (is_set k = false) as ->.
  { rewrite <- (Nat.add_0_r k). apply Hclear. lia. }
  assert (∀ s1, status (process net tid callback None later (Datatypes.S k0) s1) = Finished →
            let r := process net tid callback (Some is_set) (later ++ after)
                       (Datatypes.S k) s1 in
            let r0 := process net tid callback None later (Datatypes.S k0) s1 in
            status r = Interrupted ∧ calls r = calls r0 ∧ final r = final r0
            ∧ polled r = Datatypes.S (k + Datatypes.S (length later))) as Hnext.
  { intros s1 Hfin1. simpl.
    destruct (IH (Datatypes.S k) (Datatypes.S k0) s1) as (H1 & H2 & H3 & H4); try done.
    - intros j Hj. replace (Datatypes.S k + j)%nat with (k + Datatypes.S j)%nat by lia.
      apply Hclear. lia.
    - replace (Datatypes.S k + length later)%nat
        with (k + Datatypes.S (length later))%nat by lia. done.
    - repeat split; try done. rewrite H4. lia. }
  destruct (fetch_page net tid page_num) as [result|e]; simpl in *.
  - destruct (callback page_num result s) as [s1 [e1|]]; simpl in *.
    + destruct (callback page_num None s1) as [s2 [e2|]]; simpl in *; [done|].
      destruct (Hnext s2 Hfin) as (H1 & H2 & H3 & H4).
      simpl. by rewrite H1, H2, H3, H4.
    + destruct (Hnext s1 Hfin) as (H1 & H2 & H3 & H4).
      simpl. by rewrite H1, H2, H3, H4.
  - destruct (callback page_num None s) as [s1 [e1|]]; simpl in *; [done|].
    destruct (Hnext s1 Hfin) as (H1 & H2 & H3 & H4).
    simpl. by rewrite H1, H2, H3, H4.
Qed.

(** The pages of the callback invocations, without a stop event, are
    pages of completed futures. *)
Lemma process_calls_subset stop_event as_completed k s :
  ∀ call, call ∈ calls (process net tid callback stop_event as_completed k s) →
    fst call ∈ as_completed.
Proof.
  revert k s. induction as_completed as [|page_num later IH]; intros k s call; simpl.
  { by intros ?%elem_of_nil. }
  destruct (stop_is_set stop_event k); simpl; [by intros ?%elem_of_nil|].
  assert (∀ s1 r, call ∈ calls (invoked page_num r
                                  (process net tid callback stop_event later
                                     (Datatypes.S k) s1)) →
            call.1 ∈ page_num :: later) as Hinv.
  { intros s1 r [->|Hin]%elem_of_cons; [by left|]. right. by eapply IH. }
  destruct (fetch_page net tid page_num) as [result|e]; simpl.
  - destruct (callback page_num result s) as [s1 [e1|]]; simpl; [|by apply Hinv].
    intros [->|Hin]%elem_of_cons; [by left|].
    destruct (callback page_num None s1) as [s2 [e2|]]; simpl in *.
    + apply list_elem_of_singleton in Hin as ->. by left.
    + by apply (Hinv s2 None).
  - destruct (callback page_num None s) as [s1 [e1|]]; simpl; [|by apply Hinv].
    intros ->%list_elem_of_singleton. by left.
Qed.

End CrawlWithCallback.

(** C3, as stated, fails: the [except] clause of the loop also catches
    what the callback raises.  All of pages 2 to 6 are fetched, and a
    callback that raises on the result of page 4 is invoked six times,
    twice for page 4, the second time with [None]. *)
Lemma raising_callback_invoked_twice :
  let r := crawl_pages_range_with_callback net_all_pages 7 fragile_callback None
             2 6 [2; 3; 4; 5; 6] [] in
  (calls r).*1 = [2; 3; 4; 4; 5; 6]
  ∧ (calls r).*2 !! 3%nat = Some None
  ∧ delivered (fetch_page net_all_pages 7 4) ≠ None
  ∧ length (calls r) = 6%nat
  ∧ ¬ (calls r).*1 ≡ₚ range_incl 2 6.
Proof.
  repeat split; try done.
  intros Hperm. apply Permutation_length in Hperm. vm_compute in Hperm. done.
Qed.

(** C3, amended.  On a range that is not empty, with no stop signal and
    a callback that returns normally, whatever the order in which the
    fetches complete, the callback is invoked once for each page of the
    range, in completion order, with what the fetch of the page returned
    and with [None] when it failed; no failure ends the crawl. *)
Theorem callback_once_per_page {S} net tid (callback : @callback_t S) stop_event
    start_page end_page order s :
  start_page ≤ end_page →
  never_set stop_event →
  never_raises callback →
  order ≡ₚ range_incl start_page end_page →
  let r := crawl_pages_range_with_callback net tid callback stop_event
             start_page end_page order s in
  status r = Finished
  ∧ calls r = (λ page_num, (page_num, delivered (fetch_page net tid page_num))) <$> order
  ∧ (calls r).*1 ≡ₚ range_incl start_page end_page
  ∧ NoDup (calls r).*1
  ∧ length (calls r) = Z.to_nat (end_page - start_page + 1)
  ∧ (∀ page_num result, (page_num, result) ∈ calls r →
       start_page ≤ page_num ≤ end_page
       ∧ result = delivered (fetch_page net tid page_num))
  ∧ final r = run_callbacks net tid callback order s.
Proof.
  intros Hle Hstop Hquiet Hperm r. subst r.
  unfold crawl_pages_range_with_callback.
  destruct (decide (start_page > end_page)); [lia|].
  destruct (process_quiet net tid callback stop_event order 0 s Hstop Hquiet)
    as (Hst & Hcalls & Hfinal).
  assert ((calls (process net tid callback stop_event order 0 s)).*1 = order) as Hpages.
  { rewrite Hcalls, <- list_fmap_compose. simpl. apply list_fmap_id. }
  split; [done|]. split; [done|].
  split; [by rewrite Hpages|].
  split. { rewrite Hpages, Hperm. unfold range_incl. apply NoDup_seqZ. }
  split. { rewrite <- (length_fmap fst), Hpages, Hperm. unfold range_incl.
           apply length_seqZ. }
  split; [|done].
  intros page_num result Hcall. rewrite Hcalls in Hcall.
  apply list_elem_of_fmap in Hcall as (p & [= -> ->] & Hin).
  rewrite Hperm in Hin. unfold range_incl in Hin. apply elem_of_seqZ in Hin.
  split; [lia|done].
Qed.

(** Pages 2 to 6 with a failure on page 4, completing in the order
    5, 2, 6, 4, 3: five invocations, the one for page 4 with [None]. *)
Lemma callback_once_per_page_witness :
  let r := crawl_pages_range_with_callback net_without_page_4 7 noting_callback None
             2 6 [5; 2; 6; 4; 3] [] in
  length (calls r) = 5%nat
  ∧ (4, None) ∈ calls r
  ∧ final r = [5; 2; 6; 4; 3].
Proof.
  assert (never_set None) as Hstop by (intros is_set; discriminate).
  assert (never_raises noting_callback) as Hquiet by (intros ???; reflexivity).
  assert ([5; 2; 6; 4; 3] ≡ₚ range_incl 2 6) as Hperm
    by (vm_compute; apply (bool_decide_unpack _); vm_compute; exact I).
  destruct (callback_once_per_page net_without_page_4 7 noting_callback None
              2 6 [5; 2; 6; 4; 3] [] ltac:(lia) Hstop Hquiet Hperm)
    as (_ & Hcalls & _ & _ & Hlen & _ & Hfinal).
  split; [exact Hlen|]. split; [|exact Hfinal].
  rewrite Hcalls. vm_compute. apply list_elem_of_In. vm_compute. tauto.
Defined.



(** Pages 2 to 6 with a failure on page 4, the futures completing in the
    order 5, 2, 6, 3, 4: five entries in page order, [None] for page 4;
    and nothing for the empty range 6 to 2. *)
Lemma crawl_pages_range_page_order_witness :
  crawl_pages_range net_without_page_4 7 6 2 [] = []
  ∧ length (crawl_pages_range net_without_page_4 7 2 6 [3; 0; 4; 1; 2]%nat) = 5%nat
  ∧ crawl_pages_range net_without_page_4 7 2 6 [3; 0; 4; 1; 2]%nat !! 2%nat = Some None.
Proof.
  assert ([3; 0; 4; 1; 2]%nat ≡ₚ seq 0 (Z.to_nat (6 - 2 + 1))) as Hperm
    by (vm_compute; apply (bool_decide_unpack _); vm_compute; exact I).
  split.
  - apply (proj1 (crawl_pages_range_page_order net_without_page_4 7 6 2 [])). lia.
  - destruct (proj2 (crawl_pages_range_page_order net_without_page_4 7 2 6
                       [3; 0; 4; 1; 2]%nat) ltac:(lia) Hperm) as (_ & Hlen & Hat).
    split; [exact Hlen|].
    rewrite (Hat 2%nat) by (vm_compute; lia). reflexivity.
Defined.

(* ===================================================================== *)
(** ** Properties of the database layer *)
(* ===================================================================== *)

Lemma thread_params_parse now page :
  thread_params now (parse_page_result page).1
  = Ok (page_tid page, page_thread_row now page).
Proof. reflexivity. Qed.

Lemma post_params_parsed now post :
  parsed post → post_params now post = Ok (post_pid post, post_row now post).
Proof. intros [raw ->]. reflexivity. Qed.

Lemma parsed_parse_page_result page :
  Forall parsed (parse_page_result page).2.
Proof.
  simpl. apply Forall_fmap, Forall_true. intros raw. by exists raw.
Qed.

Lemma save_thread_parse now page c :
  save_thread now (parse_page_result page).1 c
  = (true, commit (execute (upsert_thread (page_tid page) (page_thread_row now page)) c)).
Proof. unfold save_thread. by rewrite thread_params_parse. Qed.

Lemma posts_set_posts f db : posts (set_posts f db) = f (posts db).
Proof. done. Qed.

(** The loop of [save_posts_batch] on posts that have their keys. *)
Lemma save_posts_loop_parsed now posts' saved_count db :
  Forall parsed posts' →
  save_posts_loop now posts' saved_count db
  = (saved_count + Z.of_nat (length posts'),
     Ok (set_posts (store_posts now posts') db)).
Proof.
  intros Hall. revert saved_count db.
  induction Hall as [|post rest Hpost Hrest IH]; intros saved_count db; simpl.
  { rewrite Z.add_0_r. by destruct db. }
  rewrite post_params_parsed by done. rewrite IH.
  f_equal. lia.
Qed.

Lemma save_posts_batch_parsed now posts' c :
  Forall parsed posts' →
  save_posts_batch now posts' c
  = (Z.of_nat (length posts'),
     commit (execute (set_posts (store_posts now posts')) c)).
Proof.
  intros Hall. unfold save_posts_batch.
  rewrite save_posts_loop_parsed by done. done.
Qed.

(** The loop stops at the first post that lacks a key, with the number
    of posts before it. *)
Lemma save_posts_loop_raise now good bad rest saved_count db e :
  Forall parsed good → post_params now bad = Raise e →
  save_posts_loop now (good ++ bad :: rest) saved_count db
  = (saved_count + Z.of_nat (length good), Raise e).
Proof.
  intros Hall Hbad. revert saved_count db.
  induction Hall as [|post good' Hpost Hgood IH]; intros saved_count db; simpl.
  { rewrite Hbad. by rewrite Z.add_0_r. }
  rewrite post_params_parsed by done. rewrite IH. f_equal. lia.
Qed.

(** [save_posts_batch] is all or nothing: every post is written and
    committed, or the transaction is rolled back. *)
Lemma save_posts_batch_all_or_nothing now posts' c :
  let c' := (save_posts_batch now posts' c).2 in
  working c' = committed c'
  ∧ (c' = rollback c
     ∨ ∃ db, save_posts_loop now posts' 0 (working c) = (Z.of_nat (length posts'), Ok db)
             ∧ c' = commit (execute (λ _, db) c)).
Proof.
  unfold save_posts_batch.
  assert (∀ n db r k, save_posts_loop now posts' n db = (k, Ok r) →
            k = n + Z.of_nat (length posts')) as Hcount.
  { induction posts' as [|post rest IH]; intros n db r k; simpl.
    - intros [= <- _]. lia.
    - destruct (post_params now post) as [[pid' row]|e]; [|done].
      intros Heq%IH. lia. }
  destruct (save_posts_loop now posts' 0 (working c)) as [k [db|e]] eqn:Hloop; simpl.
  - split; [done|]. right. exists db. apply Hcount in Hloop as ->. done.
  - split; [done|]. by left.
Qed.

(** After a rollback the count returned is still the number of posts the
    loop had written. *)
Lemma save_posts_batch_rollback now good bad rest c e :
  Forall parsed good → post_params now bad = Raise e →
  save_posts_batch now (good ++ bad :: rest) c
  = (Z.of_nat (length good), rollback c).
Proof.
  intros Hall Hbad. unfold save_posts_batch.
  erewrite save_posts_loop_raise by done. done.
Qed.

(** C9: the count [save_posts_batch] returns is not the number of posts
    persisted.  A batch of a well-formed post and a post without the key
    [tid], on an empty database: the second post raises, the transaction
    is rolled back, no post is persisted, and the count returned is 1. *)
Theorem save_posts_batch_count_after_rollback :
  let '(saved_count, c) :=
    save_posts_batch 0 [sample_post 1 100 0; post_without_tid 2] (fresh_conn empty_db) in
  saved_count = 1
  ∧ posts (committed c) = ∅
  ∧ posts (working c) = ∅.
Proof. vm_compute. done. Qed.

(* ===================================================================== *)
(** ** Properties of the monitor *)
(* ===================================================================== *)

(** *** The loops of [check_thread] *)

Lemma parsed_page_posts r : Forall parsed (page_posts r).
Proof.
  unfold page_posts. destruct (delivered r) as [page|]; [|done].
  destruct (page_truthy page); [|done]. apply parsed_parse_page_result.
Qed.

Lemma parsed_posts_of_pages net tid pages : Forall parsed (posts_of_pages net tid pages).
Proof.
  unfold posts_of_pages. induction pages as [|page rest IH]; simpl; [done|].
  apply Forall_app. split; [apply parsed_page_posts|done].
Qed.

(** The loop over [pages_to_fetch] when no fetch raises: every page is
    fetched, in order, and the posts of the pages that came are
    collected. *)
Lemma fetch_new_pages_ok net tid pages all_new_posts w :
  (∀ page_num, page_num ∈ pages → is_ok (fetch_page net tid page_num) = true) →
  fetch_new_pages net tid pages all_new_posts w
  = (Ok (all_new_posts ++ posts_of_pages net tid pages), log_fetches tid pages w).
Proof.
  revert all_new_posts w.
  induction pages as [|page_num rest IH]; intros all_new_posts w Hok.
  { simpl. rewrite app_nil_r. unfold log_fetches. simpl. rewrite app_nil_r.
    by destruct w. }
  assert (is_ok (fetch_page net tid page_num) = true) as Hfirst by (apply Hok; left).
  assert (∀ acc, fetch_new_pages net tid rest acc (log_fetch tid page_num w)
                 = (Ok (acc ++ posts_of_pages net tid rest),
                    log_fetches tid (page_num :: rest) w)) as Hrest.
  { intros acc. rewrite IH by (intros p Hp; apply Hok; by right).
    f_equal. unfold log_fetches, log_fetch. simpl. by rewrite <- app_assoc. }
  simpl. unfold bind, crawler_fetch_page. unfold posts_of_pages. simpl.
  unfold page_posts.
  destruct (fetch_page net tid page_num) as [[page|]|e]; [| |done]; simpl.
  - destruct (page_truthy page).
    + rewrite Hrest. by rewrite <- app_assoc.
    + by rewrite Hrest.
  - by rewrite Hrest.
Qed.

(** The loop over [all_new_posts], on posts built from pages. *)
Lemma select_new_posts_parsed stored author_uids all_new_posts :
  Forall parsed all_new_posts →
  select_new_posts stored author_uids all_new_posts
  = Ok (fresh_posts stored all_new_posts,
        eligible_posts author_uids (fresh_posts stored all_new_posts)).
Proof.
  intros Hall. induction Hall as [|post rest [raw ->] Hrest IH]; [done|].
  cbn [select_new_posts]. rewrite IH.
  change (getitem "pid" (pid (parse_post raw))) with (Ok (post_pid (parse_post raw))).
  cbn [mbind result_bind].
  unfold fresh_posts, eligible_posts.
  destruct (stored !! post_pid (parse_post raw)) as [existing|] eqn:Hstored.
  - rewrite filter_cons_False by (by rewrite Hstored). done.
  - rewrite filter_cons_True by done.
    unfold passes_filter. destruct (decide (author_uids = ∅)) as [->|Hne].
    + cbn [mbind result_bind]. rewrite filter_cons_True by (by left). done.
    + change (getitem "author_uid" (author_uid (parse_post raw)))
        with (Ok (post_author (parse_post raw))).
      cbn [mbind result_bind]. case_bool_decide as Hin.
      * rewrite filter_cons_True by (by right). done.
      * rewrite filter_cons_False by (intros [?|?]; done). done.
Qed.

(** The loop that notifies, on posts built from pages. *)
Lemma notify_posts_parsed tid thread_title notification_uids filtered_new_posts w :
  Forall parsed filtered_new_posts →
  notify_posts tid thread_title notification_uids filtered_new_posts w
  = (Ok tt,
     {| conn := conn w; clock := clock w; fetched := fetched w;
        submitted := submitted w; polls := polls w;
        outbox := outbox w ++ notifications_for tid thread_title notification_uids
                                filtered_new_posts |}).
Proof.
  intros Hall. revert w.
  induction Hall as [|post rest [raw ->] Hrest IH]; intros w.
  { simpl. unfold ret, notifications_for. simpl. rewrite app_nil_r. by destruct w. }
  cbn [notify_posts]. unfold bind, lift.
  change (getitem "author_uid" (author_uid (parse_post raw)))
    with (Ok (post_author (parse_post raw))).
  cbn iota beta. unfold notifications_for.
  case_bool_decide as Hin.
  - rewrite filter_cons_True by done.
    change (getitem "author_name" (author_name (parse_post raw)))
      with (Ok (default "" (author_name (parse_post raw)))).
    change (getitem "content" (content (parse_post raw)))
      with (Ok (default "" (content (parse_post raw)))).
    change (getitem "pid" (pid (parse_post raw))) with (Ok (post_pid (parse_post raw))).
    cbn iota beta. unfold notification_send, modify. cbn iota beta.
    rewrite IH. unfold notifications_for, post_notification. cbn [conn clock fetched submitted polls outbox].
    rewrite fmap_cons, <- app_assoc. done.
  - rewrite filter_cons_False by done.
    unfold ret. cbn iota beta. rewrite IH. done.
Qed.

Section CheckThread.

Variable net : network.

(** A check that finds no more posts than stored. *)
Lemma check_thread_no_change tid w monitor_config author_uids thread first_page :
  active_subscription tid (db_of w) = Some monitor_config →
  parse_author_uids (author_filter monitor_config) = Ok author_uids →
  threads (db_of w) !! tid = Some thread →
  net tid 1 = Reply first_page →
  page_truthy first_page = true →
  default 0 (vrows first_page) ≤ total_posts thread →
  check_thread net tid w
  = (Ok (Checked {| cr_tid := tid; cr_new_posts := 0; cr_total_new_posts := None;
                    cr_total_posts := default 0 (vrows first_page);
                    cr_posts := [] |}),
     after_quiet_check tid first_page w).
Proof.
  intros Hsub Hfilter Hthread Hnet Htruthy Hle.
  unfold check_thread, bind, db_query, get, lift. fold (db_of w).
  rewrite Hsub, Hfilter. unfold get_thread. fold (db_of w). rewrite Hthread.
  unfold try_except, check_thread_body, bind, crawler_fetch_page, fetch_page.
  rewrite Hnet, Htruthy. simpl.
  destruct (decide (default 0 (vrows first_page) - total_posts thread ≤ 0)); [|lia].
  reflexivity.
Qed.

Lemma notifications_for_nobody tid thread_title filtered_new_posts :
  notifications_for tid thread_title ∅ filtered_new_posts = [].
Proof.
  unfold notifications_for.
  induction filtered_new_posts as [|post rest IH]; [done|].
  rewrite filter_cons_False by set_solver. done.
Qed.

(** The notification step of [check_thread]. *)
Lemma notify_step tid monitor_config notification_uids thread_title filtered_new_posts w :
  parse_author_uids (author_notification monitor_config) = Ok notification_uids →
  Forall parsed filtered_new_posts →
  (if str_truthy (author_notification monitor_config) then
     bind (lift (int_set (default "" (author_notification monitor_config))))
       (λ notification_uids,
          notify_posts tid thread_title notification_uids filtered_new_posts)
   else ret tt) w
  = (Ok tt, notified (notifications_for tid thread_title notification_uids
                        filtered_new_posts) w).
Proof.
  intros Hnotif Hall. unfold notified. unfold parse_author_uids in Hnotif.
  destruct (author_notification monitor_config) as [text|].
  - destruct (str_truthy (Some text)) eqn:Htext.
    + unfold bind, lift. change (default "" (Some text)) with text.
      rewrite Hnotif. by rewrite notify_posts_parsed.
    + injection Hnotif as <-. rewrite notifications_for_nobody, app_nil_r.
      unfold ret. by destruct w.
  - injection Hnotif as <-. cbn [str_truthy].
    rewrite notifications_for_nobody, app_nil_r. unfold ret. by destruct w.
Qed.

Lemma Forall_filter_keeps {A} (P Q : A → Prop) `{∀ x, Decision (Q x)} (l : list A) :
  Forall P l → Forall P (filter Q l).
Proof.
  rewrite !Forall_forall. intros Hall x [_ Hin]%list_elem_of_filter. by apply Hall.
Qed.

Lemma parsed_fresh_posts stored all_new_posts :
  Forall parsed all_new_posts → Forall parsed (fresh_posts stored all_new_posts).
Proof. apply Forall_filter_keeps. Qed.

Lemma parsed_eligible_posts author_uids posts' :
  Forall parsed posts' → Forall parsed (eligible_posts author_uids posts').
Proof. apply Forall_filter_keeps. Qed.

Lemma notify_step_raise tid monitor_config e thread_title filtered_new_posts w :
  parse_author_uids (author_notification monitor_config) = Raise e →
  (if str_truthy (author_notification monitor_config) then
     bind (lift (int_set (default "" (author_notification monitor_config))))
       (λ notification_uids,
          notify_posts tid thread_title notification_uids filtered_new_posts)
   else ret tt) w
  = (Raise e, w).
Proof.
  intros Hnotif. unfold parse_author_uids in Hnotif.
  destruct (author_notification monitor_config) as [text|]; [|done].
  destruct (str_truthy (Some text)) eqn:Htext; [|done].
  unfold bind, lift. change (default "" (Some text)) with text.
  by rewrite Hnotif.
Qed.

(** A check that finds more posts than stored, when no fetch raises: the
    new posts are saved; then the notifications are sent, or the author
    list of the notifications is malformed and the check ends in an error
    event. *)
Lemma check_thread_new_posts tid w monitor_config author_uids
    thread first_page start_page end_page :
  active_subscription tid (db_of w) = Some monitor_config →
  parse_author_uids (author_filter monitor_config) = Ok author_uids →
  threads (db_of w) !! tid = Some thread →
  net tid 1 = Reply first_page →
  page_truthy first_page = true →
  total_posts thread < default 0 (vrows first_page) →
  new_page_range (total_posts thread) (default 20 (perPage first_page))
    (default 0 (totalPage first_page)) = Ok (start_page, end_page) →
  (∀ page_num, page_num ∈ range_incl start_page end_page →
     is_ok (fetch_page net tid page_num) = true) →
  let fresh := fresh_posts (posts (db_of w))
                 (posts_of_pages net tid (range_incl start_page end_page)) in
  let eligible := eligible_posts author_uids fresh in
  let w' := after_new_posts_check net tid author_uids first_page start_page end_page w in
  check_thread net tid w
  = match parse_author_uids (author_notification monitor_config) with
    | Ok notification_uids =>
        (Ok (Checked {| cr_tid := tid;
                        cr_new_posts := Z.of_nat (length eligible);
                        cr_total_new_posts := Some (Z.of_nat (length fresh));
                        cr_total_posts := default 0 (vrows first_page);
                        cr_posts := eligible |}),
         notified (notifications_for tid (title thread) notification_uids eligible) w')
    | Raise e =>
        (Ok (CheckError ("Error checking thread: " +:+ str_exn e)),
         with_error_event tid e w')
    end.
Proof.
  intros Hsub Hfilter Hthread Hnet Htruthy Hnew Hrange Hok fresh eligible w'.
  unfold check_thread, bind, db_query, get, lift. fold (db_of w).
  rewrite Hsub, Hfilter. unfold get_thread. fold (db_of w). rewrite Hthread.
  unfold try_except, check_thread_body, bind, crawler_fetch_page, fetch_page.
  rewrite Hnet, Htruthy. cbn [negb].
  destruct (decide (default 0 (vrows first_page) - total_posts thread ≤ 0)); [lia|].
  unfold lift. rewrite Hrange.
  rewrite fetch_new_pages_ok by done.
  unfold db_query, get. cbn [app conn log_fetches log_fetch].
  rewrite select_new_posts_parsed by apply parsed_posts_of_pages.
  fold (db_of w). fold fresh. fold eligible.
  assert (Forall parsed fresh) as Hfresh
    by apply parsed_fresh_posts, parsed_posts_of_pages.
  assert (Forall parsed eligible) as Heligible by by apply parsed_eligible_posts.
  assert (∀ w0,
            (match fresh with
             | [] => ret 0
             | _ :: _ => db_save_posts_batch fresh
             end) w0
            = (Ok (Z.of_nat (length fresh)),
               match fresh with
               | [] => w0
               | _ :: _ =>
                   set_conn (λ _, commit (execute (set_posts (store_posts (clock w0) fresh))
                                            (conn w0))) w0
               end)) as Hsave.
  { intros w0. destruct fresh as [|post rest] eqn:Hfr; [done|].
    unfold db_save_posts_batch. by rewrite save_posts_batch_parsed. }
  rewrite Hsave.
  destruct (parse_page_result first_page) as [thread_data posts_data] eqn:Hparse.
  assert (thread_data = (parse_page_result first_page).1) as -> by by rewrite Hparse.
  unfold db_save_thread. rewrite save_thread_parse.
  unfold db_execute, _log_event, db_execute, db_commit, modify.
  assert (∀ w0,
            (match eligible with
             | [] =>
                 λ w1, (Ok tt,
                        set_conn (execute (add_event
                          {| event_tid := tid; event_type := "check";
                             post_count := Z.of_nat (length fresh);
                             message := "Found " +:+ str_int (Z.of_nat (length fresh))
                                        +:+ " new posts (none match filter)";
                             event_created_at := clock w1 |})) w1)
             | _ :: _ =>
                 λ w1, (Ok tt,
                        set_conn (execute (add_event
                          {| event_tid := tid; event_type := "new_post";
                             post_count := Z.of_nat (length eligible);
                             message := "Found " +:+ str_int (Z.of_nat (length eligible))
                                        +:+ " new posts (filtered by author)";
                             event_created_at := clock w1 |})) w1)
             end) w0
            = (Ok tt, set_conn (execute (add_event
                                  (new_posts_event tid (clock w0) fresh eligible))) w0))
    as Hevent.
  { intros w0. unfold new_posts_event. by destruct eligible. }
  rewrite Hevent.
  match goal with
  | |- context [(if str_truthy _ then _ else _) ?W] => assert (W = w') as ->
  end.
  { unfold w', after_new_posts_check. fold fresh. fold eligible.
    destruct fresh as [|post rest];
      unfold fresh_conn, db_of, commit, execute, set_conn, log_fetches, log_fetch;
      cbn; rewrite <- app_assoc; reflexivity. }
  destruct (parse_author_uids (author_notification monitor_config))
    as [notification_uids|e] eqn:Hnotif.
  - pose proof (notify_step tid monitor_config notification_uids (title thread) eligible)
      as Hnotify.
    unfold bind, lift in Hnotify. by rewrite Hnotify.
  - pose proof (notify_step_raise tid monitor_config e (title thread) eligible)
      as Hnotify.
    unfold bind, lift in Hnotify. by rewrite Hnotify.
Qed.

(** A check that finds more posts than stored and a page size of 0. *)
Lemma check_thread_range_raise tid w monitor_config author_uids thread first_page e :
  active_subscription tid (db_of w) = Some monitor_config →
  parse_author_uids (author_filter monitor_config) = Ok author_uids →
  threads (db_of w) !! tid = Some thread →
  net tid 1 = Reply first_page →
  page_truthy first_page = true →
  total_posts thread < default 0 (vrows first_page) →
  new_page_range (total_posts thread) (default 20 (perPage first_page))
    (default 0 (totalPage first_page)) = Raise e →
  check_thread net tid w
  = (Ok (CheckError ("Error checking thread: " +:+ str_exn e)),
     with_error_event tid e (log_fetch tid 1 w)).
Proof.
  intros Hsub Hfilter Hthread Hnet Htruthy Hnew Hrange.
  unfold check_thread, bind, db_query, get, lift. fold (db_of w).
  rewrite Hsub, Hfilter. unfold get_thread. fold (db_of w). rewrite Hthread.
  unfold try_except, check_thread_body, bind, crawler_fetch_page, fetch_page.
  rewrite Hnet, Htruthy. cbn [negb].
  destruct (decide (default 0 (vrows first_page) - total_posts thread ≤ 0)); [lia|].
  unfold lift. rewrite Hrange. reflexivity.
Qed.

End CheckThread.

Lemma lookup_upsert_thread tid new db t :
  threads (upsert_thread tid new db) !! t
  = if decide (t = tid)
    then Some (match threads db !! tid with
               | Some old => refreshed old new
               | None => new
               end)
    else threads db !! t.
Proof.
  unfold upsert_thread. simpl.
  destruct (threads db !! tid) as [old|] eqn:Hold; case_decide; subst;
    simplify_map_eq; done.
Qed.

Lemma lookup_touch_last_checked tid now db t :
  monitored_threads (touch_last_checked tid now db) !! t
  = if decide (t = tid) then checked_at now <$> monitored_threads db !! tid
    else monitored_threads db !! t.
Proof.
  unfold touch_last_checked. simpl. case_decide; subst.
  - by rewrite lookup_alter_eq.
  - by rewrite lookup_alter_ne.
Qed.

Lemma threads_after_quiet_check tid first_page w t :
  threads (db_of (after_quiet_check tid first_page w)) !! t
  = if decide (t = page_tid first_page)
    then Some (match threads (db_of w) !! page_tid first_page with
               | Some old => refreshed old (page_thread_row (clock w) first_page)
               | None => page_thread_row (clock w) first_page
               end)
    else threads (db_of w) !! t.
Proof.
  unfold after_quiet_check, db_of. cbn [conn working fresh_conn].
  by rewrite lookup_upsert_thread.
Qed.

Lemma monitored_after_quiet_check tid first_page w t :
  monitored_threads (db_of (after_quiet_check tid first_page w)) !! t
  = if decide (t = tid)
    then checked_at (clock w) <$> monitored_threads (db_of w) !! tid
    else monitored_threads (db_of w) !! t.
Proof.
  unfold after_quiet_check, db_of. cbn [conn working fresh_conn].
  unfold upsert_thread, set_threads, add_event. cbn [monitored_threads].
  by rewrite lookup_touch_last_checked.
Qed.

Lemma active_subscription_Some tid db row :
  active_subscription tid db = Some row ↔
  monitored_threads db !! tid = Some row ∧ is_active row = true.
Proof.
  unfold active_subscription.
  destruct (monitored_threads db !! tid) as [row'|]; [|by split; [|intros []]].
  destruct (is_active row') eqn:Hact; split.
  - intros [= ->]. done.
  - intros [[= ->] _]. done.
  - done.
  - intros [[= ->] Hrow]. congruence.
Qed.


(** *** The page range of an incremental check *)

Lemma new_page_range_positive old_total_posts posts_per_page current_total_pages :
  0 ≤ old_total_posts → 0 < posts_per_page →
  new_page_range old_total_posts posts_per_page current_total_pages
  = Ok (old_total_posts `div` posts_per_page + 1, current_total_pages).
Proof.
  intros Hold Hppp. unfold new_page_range, floordiv, modulo.
  destruct (decide (posts_per_page = 0)); [lia|]. cbn [mbind result_bind].
  assert (0 ≤ old_total_posts `div` posts_per_page) by (apply Z.div_pos; lia).
  case_decide as Hfull.
  - destruct Hfull as [Hmod _].
    apply Z.div_exact in Hmod; [|lia].
    assert ((old_total_posts + posts_per_page - 1) `div` posts_per_page
            = old_total_posts `div` posts_per_page) as ->; [|done].
    symmetry. apply (Z.div_unique _ _ _ (posts_per_page - 1)); [lia|]. lia.
  - by rewrite Z.max_r by lia.
Qed.

(** The stored total on the last page it fills. *)
Lemma old_last_page_spec old_total_posts posts_per_page :
  0 < old_total_posts → 0 < posts_per_page →
  let old_last_page := (old_total_posts + posts_per_page - 1) `div` posts_per_page in
  (old_total_posts `mod` posts_per_page = 0 →
   old_last_page = old_total_posts `div` posts_per_page
   ∧ old_last_page * posts_per_page = old_total_posts)
  ∧ (old_total_posts `mod` posts_per_page ≠ 0 →
     old_last_page = old_total_posts `div` posts_per_page + 1).
Proof.
  intros Hold Hppp. cbn zeta.
  pose proof (Z.div_mod old_total_posts posts_per_page ltac:(lia)) as Hdm.
  pose proof (Z.mod_pos_bound old_total_posts posts_per_page Hppp) as Hbound.
  split; intros Hmod.
  - rewrite Hmod in Hdm.
    assert ((old_total_posts + posts_per_page - 1) `div` posts_per_page
            = old_total_posts `div` posts_per_page) as ->.
    { symmetry. apply (Z.div_unique _ _ _ (posts_per_page - 1)); lia. }
    lia.
  - symmetry.
    apply (Z.div_unique _ _ _ (old_total_posts `mod` posts_per_page - 1)); lia.
Qed.






(** *** What an incremental check saves *)

Lemma store_posts_snoc now posts' post table :
  store_posts now (posts' ++ [post]) table
  = <[post_pid post := post_row now post]> (store_posts now posts' table).
Proof. unfold store_posts. by rewrite foldl_app. Qed.

(** A pid that no post of the batch has keeps its row. *)
Lemma store_posts_lookup_other now posts' table k :
  (∀ post, post ∈ posts' → post_pid post ≠ k) →
  store_posts now posts' table !! k = table !! k.
Proof.
  induction posts' as [|post rest IH] using rev_ind; intros Hother; [done|].
  rewrite store_posts_snoc, lookup_insert_ne.
  - apply IH. intros p Hp. apply Hother. apply elem_of_app. by left.
  - apply Hother. apply elem_of_app. right. by apply list_elem_of_singleton.
Qed.

(** The pid of a post of the batch holds the row of a post of the batch
    with that pid. *)
Lemma store_posts_lookup_saved now posts' table post :
  post ∈ posts' →
  ∃ post', post' ∈ posts' ∧ post_pid post' = post_pid post
           ∧ store_posts now posts' table !! post_pid post = Some (post_row now post').
Proof.
  induction posts' as [|last rest IH] using rev_ind; intros Hin.
  { by apply elem_of_nil in Hin. }
  rewrite store_posts_snoc.
  destruct (decide (post_pid last = post_pid post)) as [Heq|Hne].
  - exists last. split; [|split; [done|]].
    + apply elem_of_app. right. by apply list_elem_of_singleton.
    + rewrite <- Heq. apply lookup_insert_eq.
  - apply elem_of_app in Hin as [Hin|Hin].
    + destruct (IH Hin) as (post' & Hin' & Hpid & Hlookup).
      exists post'. split; [|split; [done|]].
      * apply elem_of_app. by left.
      * by rewrite lookup_insert_ne.
    + apply list_elem_of_singleton in Hin as ->. done.
Qed.




(** *** What leaves [check_thread] *)

(** [check_thread] raises exactly when the subscription is active and
    its author filter is malformed: that is read before the [try], and
    the handler absorbs whatever the body raises. *)
Lemma check_thread_raises net tid w e :
  (check_thread net tid w).1 = Raise e ↔
  ∃ monitor_config, active_subscription tid (db_of w) = Some monitor_config
                    ∧ parse_author_uids (author_filter monitor_config) = Raise e.
Proof.
  unfold check_thread, bind, db_query, get, lift. fold (db_of w).
  destruct (active_subscription tid (db_of w)) as [monitor_config|];
    [|split; [done|by intros (? & ? & ?)]].
  destruct (parse_author_uids (author_filter monitor_config)) as [author_uids|e'] eqn:Hparse.
  - split; [|by intros (? & [= <-] & ?); congruence].
    unfold get_thread. destruct (threads (working (conn w)) !! tid) as [thread|]; [|done].
    unfold try_except.
    destruct (check_thread_body net tid monitor_config author_uids thread w)
      as [[r|e''] w']; done.
  - cbn. split.
    + intros [= ->]. by exists monitor_config.
    + intros (? & [= <-] & Hraise). congruence.
Qed.

(** C8: an exception can leave [check_thread].  The entry of thread 7 in
    the configuration file names the author "abc"; [load_from_config]
    stores it.  The next [check_all] starts with thread 7, the thread
    checked last; [check_thread] raises [ValueError] where it reads the
    author filter, before its [try]; the exception leaves [check_all], no
    error event is logged and thread 8 is not checked: the world is as it
    was. *)
Theorem malformed_author_filter_leaves_check_thread :
  let w := world_after_sync in
  author_filter <$> monitored_threads (db_of w) !! 7 = Some (Some "abc")
  ∧ monitored_tids w = [7; 8]
  ∧ check_thread forum_one_post 7 w = (Raise (ValueError "abc"), w)
  ∧ check_all forum_one_post w = (Raise (ValueError "abc"), w)
  ∧ (load_from_config forum_one_post None in_page_order [config_bad_author_7]
       (set_clock 2000
          (load_from_config forum_one_post None in_page_order [config_thread_8]
             world_before_sync).2)).1
    = Ok (SyncDone {| added := 1; updated := 0; skipped := 0; errors := [] |}).
Proof. vm_compute. repeat split; reflexivity. Qed.

(* ===================================================================== *)
(** ** Reconciliation at configuration time *)
(* ===================================================================== *)

(** An invariant of the callback is an invariant of the crawl. *)
Lemma process_invariant {S} net tid (callback : @callback_t S) stop_event (I : S → Prop) :
  (∀ page_num result s, I s → I (callback page_num result s).1) →
  ∀ as_completed k s, I s → I (final (process net tid callback stop_event as_completed k s)).
Proof.
  intros Hstep as_completed.
  induction as_completed as [|page_num later IH]; intros k s Hs; simpl; [done|].
  destruct (stop_is_set stop_event k); [done|].
  destruct (fetch_page net tid page_num) as [result|e]; simpl.
  - pose proof (Hstep page_num result s Hs) as H1.
    destruct (callback page_num result s) as [s1 [e1|]]; simpl in *; [|by apply IH].
    pose proof (Hstep page_num None s1 H1) as H2.
    destruct (callback page_num None s1) as [s2 [e2|]]; simpl in *; [done|by apply IH].
  - pose proof (Hstep page_num None s Hs) as H1.
    destruct (callback page_num None s) as [s1 [e1|]]; simpl in *; [done|by apply IH].
Qed.

(** No exception leaves a crawl whose callback returns normally. *)
Lemma process_never_propagates {S} net tid (callback : @callback_t S) stop_event :
  never_raises callback →
  ∀ as_completed k s,
    status (process net tid callback stop_event as_completed k s) = Finished
    ∨ status (process net tid callback stop_event as_completed k s) = Interrupted.
Proof.
  intros Hquiet as_completed.
  induction as_completed as [|page_num later IH]; intros k s; simpl; [by left|].
  destruct (stop_is_set stop_event k); [by right|].
  destruct (fetch_page net tid page_num) as [result|e]; simpl.
  - pose proof (Hquiet page_num result s) as Hq.
    destruct (callback page_num result s) as [s1 raised]; simpl in *; subst raised.
    apply IH.
  - pose proof (Hquiet page_num None s) as Hq.
    destruct (callback page_num None s) as [s1 raised]; simpl in *; subst raised.
    apply IH.
Qed.

Lemma filter_r_post_number max_post_number posts' :
  Forall parsed posts' →
  filter_r (λ p, n ← getitem "post_number" (post_number p);
                 Ok (bool_decide (n > max_post_number))) posts'
  = Ok (filter (λ post, max_post_number < post_lou post) posts').
Proof.
  intros Hall. induction Hall as [|post rest [raw ->] Hrest IH]; [done|].
  cbn [filter_r]. rewrite IH.
  change (getitem "post_number" (post_number (parse_post raw)))
    with (Ok (post_lou (parse_post raw))).
  cbn [mbind result_bind]. case_bool_decide as Hgt.
  - rewrite filter_cons_True by lia. done.
  - rewrite filter_cons_False by lia. done.
Qed.

(** [save_page_callback] of [load_from_config] saves the posts numbered
    above [max_post_number], and returns normally. *)
Lemma load_from_config_callback_spec max_post_number page_num page_result w :
  load_from_config_callback max_post_number page_num page_result (w, tt)
  = ((save_posts_world (posts_beyond max_post_number page_result) w, tt), None).
Proof.
  unfold load_from_config_callback, posts_beyond, page_posts. cbn [delivered].
  destruct page_result as [page|]; [|done].
  destruct (page_truthy page); [|done].
  pose proof (parsed_parse_page_result page) as Hparsed.
  destruct (parse_page_result page) as [thread_data posts_data]. cbn [fst snd] in *.
  destruct posts_data as [|post rest]; [done|].
  rewrite filter_r_post_number by done.
  destruct (filter _ (post :: rest)) as [|p new_posts] eqn:Hfilter; [done|].
  unfold db_save_posts_batch. cbn [fst].
  rewrite save_posts_batch_parsed; [done|].
  rewrite <- Hfilter. by apply Forall_filter_keeps.
Qed.

Lemma load_from_config_callback_quiet max_post_number :
  never_raises (load_from_config_callback max_post_number).
Proof. intros page_num page_result [w []]. by rewrite load_from_config_callback_spec. Qed.

Lemma post_lou_row now post : row_post_number (post_row now post) = post_lou post.
Proof. done. Qed.

(** The callback keeps [only_newer_posts]. *)
Lemma load_from_config_callback_keeps max_post_number w0 page_num page_result s :
  only_newer_posts max_post_number w0 s →
  only_newer_posts max_post_number w0
    (load_from_config_callback max_post_number page_num page_result s).1.
Proof.
  destruct s as [w []]. rewrite load_from_config_callback_spec. cbn [fst].
  unfold only_newer_posts, save_posts_world. cbn [fst].
  intros (H1 & H2 & H3 & H4 & H5 & H6 & H7 & H8 & H9 & Hposts).
  assert (∀ post, post ∈ posts_beyond max_post_number page_result →
                  max_post_number < post_lou post) as Hbeyond.
  { intros post. unfold posts_beyond. by intros [? _]%list_elem_of_filter. }
  destruct (posts_beyond max_post_number page_result) as [|p rest] eqn:Hnew; [done|].
  repeat split; try done.
  intros k row. unfold db_of, set_conn, commit, execute.
  cbn [conn working posts set_posts].
  destruct (decide (k ∈ post_pid <$> (p :: rest))) as [Hin|Hout].
  - apply list_elem_of_fmap in Hin as (post & -> & Hin).
    destruct (store_posts_lookup_saved (clock w) (p :: rest) (posts (working (conn w)))
                post Hin) as (post' & Hin' & Hpid & ->).
    intros [= <-]. right. rewrite post_lou_row. by apply Hbeyond.
  - rewrite store_posts_lookup_other; [apply Hposts|].
    intros post Hin Heq. apply Hout. apply list_elem_of_fmap. by exists post.
Qed.

(** A row stored stays stored, and the posts saved are stored. *)
Lemma save_posts_world_stores posts' w :
  (∀ k, is_Some (posts (db_of w) !! k) →
        is_Some (posts (db_of (save_posts_world posts' w)) !! k))
  ∧ (∀ post, post ∈ posts' →
             is_Some (posts (db_of (save_posts_world posts' w)) !! post_pid post)).
Proof.
  unfold save_posts_world. destruct posts' as [|p rest] eqn:Hposts.
  { split; [done|]. by intros post ?%elem_of_nil. }
  rewrite <- Hposts. clear Hposts.
  unfold db_of, set_conn, commit, execute. cbn [conn working posts set_posts].
  split.
  - intros k Hk. destruct (decide (k ∈ post_pid <$> posts')) as [Hin|Hout].
    + apply list_elem_of_fmap in Hin as (post & -> & Hin).
      destruct (store_posts_lookup_saved (clock w) posts' (posts (working (conn w)))
                  post Hin) as (post' & _ & _ & ->). done.
    + rewrite store_posts_lookup_other; [done|].
      intros post Hin Heq. apply Hout. apply list_elem_of_fmap. by exists post.
  - intros post Hin.
    destruct (store_posts_lookup_saved (clock w) posts' (posts (working (conn w)))
                post Hin) as (post' & _ & _ & ->). done.
Qed.

(** After the callback has run on each completed page, the posts above
    [max_post_number] of every such page are stored. *)
Lemma run_callbacks_stores net tid max_post_number as_completed s :
  let s' := run_callbacks net tid (load_from_config_callback max_post_number)
              as_completed s in
  (∀ k, is_Some (posts (db_of s.1) !! k) → is_Some (posts (db_of s'.1) !! k))
  ∧ (∀ page_num post,
       page_num ∈ as_completed →
       post ∈ posts_beyond max_post_number (delivered (fetch_page net tid page_num)) →
       is_Some (posts (db_of s'.1) !! post_pid post)).
Proof.
  revert s. induction as_completed as [|page_num later IH]; intros s.
  { split; [done|]. by intros ?? ?%elem_of_nil. }
  unfold run_callbacks. cbn [foldl].
  fold (run_callbacks net tid (load_from_config_callback max_post_number) later).
  destruct s as [w []]. rewrite load_from_config_callback_spec. cbn [fst].
  set (new_posts := posts_beyond max_post_number (delivered (fetch_page net tid page_num))).
  destruct (IH (save_posts_world new_posts w, tt)) as [Hkeep Hlater]. cbn [fst] in *.
  destruct (save_posts_world_stores new_posts w) as [Hold Hnew].
  split.
  - intros k Hk. by apply Hkeep, Hold.
  - intros page post [->|Hin]%elem_of_cons Hpost.
    + by apply Hkeep, Hnew.
    + by eapply Hlater.
Qed.

Section LoadFromConfig.

Variable net : network.
Variable stop_event : option (nat → bool).
Variable scheduler : Z → list Z → list Z.

(** An entry of a thread whose stored posts reach the total the first
    page reports. *)
Lemma load_from_config_entry_up_to_date thread_config acc w tid post_count'
    max_post_number first_page :
  cfg_tid thread_config = Some tid →
  tid ≠ 0 →
  default true (cfg_enabled thread_config) = true →
  count_and_max_post_number tid (db_of w) = (post_count', Some max_post_number) →
  0 < post_count' →
  net tid 1 = Reply first_page →
  page_truthy first_page = true →
  default 0 (vrows first_page) - 1 ≤ max_post_number →
  load_from_config_entry net stop_event scheduler thread_config acc w
  = (Ok (count_written (monitored_threads (db_of w) !! tid) acc),
     after_up_to_date_sync thread_config tid w).
Proof.
  intros Htid Hnz Henabled Hcount Hsome Hnet Htruthy Hmax.
  unfold load_from_config_entry. rewrite Htid.
  destruct (decide (tid = 0)); [done|]. rewrite Henabled. cbn [negb].
  unfold bind, db_query, get. fold (db_of w). rewrite Hcount.
  change (default (-1) (post_count', Some max_post_number).2) with max_post_number.
  cbn [fst snd].
  destruct (decide (post_count' > 0)); [|lia].
  unfold crawler_fetch_page, fetch_page. rewrite Hnet, Htruthy. cbn [negb].
  destruct (parse_page_result first_page) as [thread_data posts_data] eqn:Hparse.
  assert (thread_data = (parse_page_result first_page).1) as -> by by rewrite Hparse.
  unfold lift. cbn [parse_page_result fst th_total_posts th_total_pages getitem].
  destruct (decide (max_post_number >= default 0 (vrows first_page) - 1)); [|lia].
  unfold after_up_to_date_sync, write_subscription_db, count_written, write_subscription.
  destruct (monitored_threads (db_of w) !! tid) as [old|]; reflexivity.
Qed.

(** The crawl of a reconciliation. *)
Lemma crawler_crawl_reconcile tid start_page end_page max_post_number w1 :
  committed (conn w1) = working (conn w1) →
  ∃ w2,
    crawler_crawl net stop_event scheduler tid start_page end_page
      (load_from_config_callback max_post_number) tt w1 = (Ok tt, w2)
    ∧ crawled_from max_post_number tid (range_incl start_page end_page) w1 w2
    ∧ (never_set stop_event →
       scheduler tid (range_incl start_page end_page) ≡ₚ range_incl start_page end_page →
       ∀ page_num post,
         page_num ∈ range_incl start_page end_page →
         post ∈ posts_beyond max_post_number (delivered (fetch_page net tid page_num)) →
         is_Some (posts (db_of w2) !! post_pid post)).
Proof.
  intros Hclean. unfold crawler_crawl.
  set (pages := range_incl start_page end_page).
  set (w0 := log_submit tid pages w1).
  set (local_stop := (λ is_set k, is_set (polls w1 + k)%nat) <$> stop_event).
  assert (only_newer_posts max_post_number w0 (w0, tt)) as Hstart.
  { unfold only_newer_posts. cbn [fst]. repeat split; try done. by left. }
  unfold crawl_pages_range_with_callback.
  destruct (decide (start_page > end_page)) as [Hempty|Hrange].
  { eexists. split; [reflexivity|]. cbn [final polled fst].
    split; [by repeat split; try done; left|].
    intros _ _ page_num post Hin. unfold pages, range_incl in Hin.
    apply elem_of_seqZ in Hin. lia. }
  set (r := process net tid (load_from_config_callback max_post_number) local_stop
              (scheduler tid pages) 0 (w0, tt)).
  pose proof (process_invariant net tid (load_from_config_callback max_post_number)
                local_stop (only_newer_posts max_post_number w0)
                (λ page_num result s,
                   load_from_config_callback_keeps max_post_number w0 page_num result s)
                (scheduler tid pages) 0%nat (w0, tt) Hstart) as Hinv.
  fold r in Hinv.
  destruct (process_never_propagates net tid (load_from_config_callback max_post_number)
              local_stop (load_from_config_callback_quiet max_post_number)
              (scheduler tid pages) 0%nat (w0, tt)) as [Hstatus|Hstatus];
    fold r in Hstatus; rewrite Hstatus.
  all: destruct (final r) as [wf []] eqn:Hfinal; cbn [fst snd].
  all: destruct Hinv as (H1 & H2 & H3 & H4 & H5 & H6 & H7 & H8 & H9 & Hposts);
    cbn [fst] in *.
  all: eexists; split; [reflexivity|].
  all: split; [by repeat split|].
  - intros Hnever Hperm page_num post Hin Hpost.
    assert (never_set local_stop) as Hlocal.
    { intros is_set Hsome k. unfold local_stop in Hsome.
      destruct stop_event as [global|]; [|done].
      injection Hsome as <-. by apply (Hnever global). }
    destruct (process_quiet net tid (load_from_config_callback max_post_number) local_stop
                (scheduler tid pages) 0 (w0, tt) Hlocal
                (load_from_config_callback_quiet max_post_number)) as (_ & _ & Hrun).
    fold r in Hrun. rewrite Hfinal in Hrun.
    destruct (run_callbacks_stores net tid max_post_number (scheduler tid pages) (w0, tt))
      as [_ Hstored].
    rewrite <- Hrun in Hstored. cbn [fst] in Hstored.
    unfold db_of, add_polls. cbn [conn].
    apply (Hstored page_num post); [|done]. by rewrite Hperm.
  - intros Hnever Hperm. exfalso.
    assert (never_set local_stop) as Hlocal.
    { intros is_set Hsome k. unfold local_stop in Hsome.
      destruct stop_event as [global|]; [|done].
      injection Hsome as <-. by apply (Hnever global). }
    destruct (process_quiet net tid (load_from_config_callback max_post_number) local_stop
                (scheduler tid pages) 0 (w0, tt) Hlocal
                (load_from_config_callback_quiet max_post_number)) as (Hfin & _).
    fold r in Hfin. congruence.
Qed.

(** An entry of a thread whose stored posts stop short of the total the
    first page reports. *)
Lemma load_from_config_entry_behind thread_config acc w tid post_count'
    max_post_number first_page :
  cfg_tid thread_config = Some tid →
  tid ≠ 0 →
  default true (cfg_enabled thread_config) = true →
  count_and_max_post_number tid (db_of w) = (post_count', Some max_post_number) →
  0 < post_count' →
  net tid 1 = Reply first_page →
  page_truthy first_page = true →
  max_post_number < default 0 (vrows first_page) - 1 →
  0 ≤ max_post_number →
  0 < default 20 (perPage first_page) →
  let start_page := max_post_number `div` default 20 (perPage first_page) + 1 in
  let pages := range_incl start_page (default 0 (totalPage first_page)) in
  let w1 := after_save_thread first_page (log_fetch tid 1 w) in
  ∃ w2,
    crawled_from max_post_number tid pages w1 w2
    ∧ (never_set stop_event → scheduler tid pages ≡ₚ pages →
       ∀ page_num post,
         page_num ∈ pages →
         post ∈ posts_beyond max_post_number (delivered (fetch_page net tid page_num)) →
         is_Some (posts (db_of w2) !! post_pid post))
    ∧ load_from_config_entry net stop_event scheduler thread_config acc w
      = (Ok (count_written (monitored_threads (db_of w) !! tid) acc),
         after_write_subscription thread_config tid (monitored_threads (db_of w) !! tid) w2).
Proof.
  intros Htid Hnz Henabled Hcount Hsome Hnet Htruthy Hbehind Hmax Hppp start_page pages w1.
  destruct (crawler_crawl_reconcile tid start_page (default 0 (totalPage first_page))
              max_post_number w1 ltac:(done)) as (w2 & Hcrawl & Hfrom & Hall).
  exists w2. split; [done|]. split; [done|].
  unfold load_from_config_entry. rewrite Htid.
  destruct (decide (tid = 0)); [done|]. rewrite Henabled. cbn [negb].
  unfold bind, db_query, get. fold (db_of w). rewrite Hcount.
  change (default (-1) (post_count', Some max_post_number).2) with max_post_number.
  cbn [fst snd].
  destruct (decide (post_count' > 0)); [|lia].
  unfold crawler_fetch_page, fetch_page. rewrite Hnet, Htruthy. cbn [negb].
  destruct (parse_page_result first_page) as [thread_data posts_data] eqn:Hparse.
  assert (thread_data = (parse_page_result first_page).1) as -> by by rewrite Hparse.
  unfold lift. cbn [parse_page_result fst th_total_posts th_total_pages getitem].
  destruct (decide (max_post_number >= default 0 (vrows first_page) - 1)); [lia|].
  unfold floordiv. destruct (decide (default 20 (perPage first_page) = 0)); [lia|].
  assert (0 ≤ max_post_number `div` default 20 (perPage first_page))
    by (apply Z.div_pos; lia).
  destruct (decide (max_post_number `div` default 20 (perPage first_page) + 1 < 1)); [lia|].
  change (db_save_thread _ (log_fetch tid 1 w))
    with (db_save_thread (parse_page_result first_page).1 (log_fetch tid 1 w)).
  unfold db_save_thread. rewrite save_thread_parse.
  fold start_page.
  change (set_conn _ (log_fetch tid 1 w)) with w1.
  rewrite Hcrawl.
  unfold after_write_subscription, write_subscription_db, count_written, write_subscription.
  destruct (monitored_threads (db_of w) !! tid) as [old|]; reflexivity.
Qed.

Lemma lookup_write_subscription thread_config tid existing latest_timestamp now db t :
  existing = monitored_threads db !! tid →
  monitored_threads (write_subscription_db thread_config tid existing
                       latest_timestamp now db) !! t
  = if decide (t = tid)
    then Some (subscription_written thread_config tid existing latest_timestamp now)
    else monitored_threads db !! t.
Proof.
  intros ->. unfold write_subscription_db, subscription_written.
  destruct (monitored_threads db !! tid) as [old|] eqn:Hold;
    unfold update_subscription, insert_subscription; cbn [monitored_threads set_monitored];
    case_decide; subst.
  - by rewrite lookup_alter_eq, Hold.
  - by rewrite lookup_alter_ne.
  - by rewrite lookup_insert_eq.
  - by rewrite lookup_insert_ne.
Qed.

Lemma posts_write_subscription thread_config tid existing latest_timestamp now db :
  posts (write_subscription_db thread_config tid existing latest_timestamp now db)
  = posts db.
Proof. unfold write_subscription_db. by destruct existing. Qed.

Lemma threads_write_subscription thread_config tid existing latest_timestamp now db :
  threads (write_subscription_db thread_config tid existing latest_timestamp now db)
  = threads db.
Proof. unfold write_subscription_db. by destruct existing. Qed.

Lemma events_write_subscription thread_config tid existing latest_timestamp now db :
  monitoring_events (write_subscription_db thread_config tid existing latest_timestamp now db)
  = monitoring_events db.
Proof. unfold write_subscription_db. by destruct existing. Qed.


End LoadFromConfig.



(* ===================================================================== *)
(** ** More of the database layer *)
(* ===================================================================== *)

(** *** save_thread *)

Lemma thread_params_complete now thread_data :
  thread_complete thread_data = true →
  ∃ tid' title' author_name' author_uid',
    th_tid thread_data = Some tid' ∧ th_title thread_data = Some title'
    ∧ th_author_name thread_data = Some author_name'
    ∧ th_author_uid thread_data = Some author_uid'
    ∧ thread_params now thread_data
      = Ok (tid',
            {| title := title'; thread_author_name := author_name';
               thread_author_uid := author_uid';
               total_posts := default 0 (th_total_posts thread_data);
               total_pages := default 0 (th_total_pages thread_data);
               thread_created_at := now; updated_at := now |}).
Proof.
  unfold thread_complete, thread_params.
  destruct (th_tid thread_data) as [tid'|]; [|done].
  destruct (th_title thread_data) as [title'|]; [|done].
  destruct (th_author_name thread_data) as [author_name'|]; [|done].
  destruct (th_author_uid thread_data) as [author_uid'|]; [|done].
  intros _. by exists tid', title', author_name', author_uid'.
Qed.

Lemma thread_params_incomplete now thread_data :
  thread_complete thread_data = false →
  ∃ e, thread_params now thread_data = Raise e.
Proof.
  unfold thread_complete, thread_params.
  destruct (th_tid thread_data) as [tid'|]; [|by eexists].
  destruct (th_title thread_data) as [title'|]; [|by eexists].
  destruct (th_author_name thread_data) as [author_name'|]; [|by eexists].
  destruct (th_author_uid thread_data) as [author_uid'|]; [|by eexists].
  done.
Qed.





(** *** save_post and save_posts_batch *)

Lemma post_params_complete now post :
  post_complete post = true →
  post_params now post = Ok (post_pid post, post_row now post).
Proof.
  unfold post_complete, post_params, post_pid, post_row.
  destruct (pid post); [|done]. destruct (tid post); [|done].
  destruct (fid post); [|done]. destruct (author_name post); [|done].
  destruct (author_uid post); [|done]. destruct (post_date post); [|done].
  destruct (post_timestamp post); [|done]. done.
Qed.

Lemma post_params_incomplete now post :
  post_complete post = false → ∃ e, post_params now post = Raise e.
Proof.
  unfold post_complete, post_params.
  destruct (pid post); [|by eexists]. destruct (tid post); [|by eexists].
  destruct (fid post); [|by eexists]. destruct (author_name post); [|by eexists].
  destruct (author_uid post); [|by eexists]. destruct (post_date post); [|by eexists].
  destruct (post_timestamp post); [|by eexists]. done.
Qed.

Lemma parsed_complete post : parsed post → post_complete post = true.
Proof. by intros [raw ->]. Qed.

Lemma save_posts_loop_complete now posts' saved_count db :
  Forall (λ post, post_complete post = true) posts' →
  save_posts_loop now posts' saved_count db
  = (saved_count + Z.of_nat (length posts'),
     Ok (set_posts (store_posts now posts') db)).
Proof.
  intros Hall. revert saved_count db.
  induction Hall as [|post rest Hpost Hrest IH]; intros saved_count db; simpl.
  { rewrite Z.add_0_r. by destruct db. }
  rewrite post_params_complete by done. rewrite IH.
  f_equal. lia.
Qed.

Lemma save_posts_loop_incomplete now good bad rest saved_count db :
  Forall (λ post, post_complete post = true) good →
  post_complete bad = false →
  ∃ e, save_posts_loop now (good ++ bad :: rest) saved_count db
       = (saved_count + Z.of_nat (length good), Raise e).
Proof.
  intros Hall Hbad. destruct (post_params_incomplete now _ Hbad) as [e He].
  exists e. revert saved_count db.
  induction Hall as [|post good' Hpost Hgood IH]; intros saved_count db; simpl.
  { rewrite He. by rewrite Z.add_0_r. }
  rewrite post_params_complete by done. rewrite IH. f_equal. lia.
Qed.


(** What a batch stores under a pid of the batch does not depend on the
    table it is stored into. *)
Lemma store_posts_lookup_batch now posts' table table' k :
  k ∈ post_pid <$> posts' →
  store_posts now posts' table !! k = store_posts now posts' table' !! k.
Proof.
  induction posts' as [|last rest IH] using rev_ind; intros Hin.
  { by apply elem_of_nil in Hin. }
  rewrite !store_posts_snoc.
  destruct (decide (post_pid last = k)) as [<-|Hne].
  - by rewrite !lookup_insert_eq.
  - rewrite !lookup_insert_ne by done. apply IH.
    rewrite fmap_app in Hin. apply elem_of_app in Hin as [Hin|Hin]; [done|].
    simpl in Hin. apply list_elem_of_singleton in Hin. congruence.
Qed.

Lemma store_posts_again t1 t2 posts' table :
  store_posts t2 posts' (store_posts t1 posts' table) = store_posts t2 posts' table.
Proof.
  apply map_eq. intros k.
  destruct (decide (k ∈ post_pid <$> posts')) as [Hin|Hout].
  - by apply store_posts_lookup_batch.
  - assert (∀ post, post ∈ posts' → post_pid post ≠ k) as Hother.
    { intros post Hpost Heq. apply Hout. apply list_elem_of_fmap. by exists post. }
    by rewrite !store_posts_lookup_other.
Qed.

Lemma save_posts_batch_complete now posts' c :
  Forall (λ post, post_complete post = true) posts' →
  save_posts_batch now posts' c
  = (Z.of_nat (length posts'),
     commit (execute (set_posts (store_posts now posts')) c)).
Proof.
  intros Hall. unfold save_posts_batch.
  by rewrite save_posts_loop_complete.
Qed.

(** X4.  Saving a batch of complete posts a second time is safe: the
    connection after the two calls is the connection the second call
    alone would have left, so no row is duplicated and only the
    creation date of the rows moves to the second call. *)
Theorem save_posts_batch_again t1 t2 posts' c :
  Forall (λ post, post_complete post = true) posts' →
  save_posts_batch t2 posts' (save_posts_batch t1 posts' c).2
  = save_posts_batch t2 posts' c.
Proof.
  intros Hall. rewrite !save_posts_batch_complete by done.
  simpl. unfold commit, execute, set_posts. simpl.
  by rewrite store_posts_again.
Qed.

Lemma save_posts_batch_again_witness :
  let posts' := [sample_post 1001 100 0; sample_post 1002 200 1] in
  save_posts_batch 9 posts' (save_posts_batch 5 posts' (fresh_conn empty_db)).2
  = save_posts_batch 9 posts' (fresh_conn empty_db).
Proof.
  intros posts'.
  apply (save_posts_batch_again 5 9 posts' (fresh_conn empty_db)).
  repeat constructor.
Defined.

(** *** save_post, one post at a time *)

Lemma save_each_snoc now posts' post c :
  save_each now (posts' ++ [post]) c
  = let acc := save_each now posts' c in
    let '(saved, c') := save_post now post acc.2 in
    (if saved : bool then acc.1 + 1 else acc.1, c').
Proof. unfold save_each. by rewrite foldl_app. Qed.

Lemma save_each_spec now posts' c :
  committed c = working c →
  save_each now posts' c
  = (Z.of_nat (length (filter (λ post, post_complete post = true) posts')),
     {| committed := set_posts (store_posts now
                       (filter (λ post, post_complete post = true) posts')) (working c);
        working := set_posts (store_posts now
                       (filter (λ post, post_complete post = true) posts')) (working c) |}).
Proof.
  intros Hclean.
  induction posts' as [|post rest IH] using rev_ind.
  { unfold save_each. simpl. f_equal. destruct c as [c0 w0]. simpl in *. subst c0.
    f_equal; by destruct w0. }
  rewrite save_each_snoc, IH. cbv zeta. rewrite filter_app. unfold save_post.
  destruct (post_complete post) eqn:Hpost.
  - rewrite post_params_complete by done.
    rewrite (filter_cons_True _ post []) by done. rewrite filter_nil.
    rewrite length_app. cbn [length fst snd].
    unfold commit, execute, replace_post, set_posts. cbn [working committed posts threads
      monitored_threads monitoring_events].
    rewrite store_posts_snoc. f_equal. lia.
  - destruct (post_params_incomplete now _ Hpost) as [e ->].
    rewrite (filter_cons_False _ post []) by (by rewrite Hpost).
    rewrite filter_nil, app_nil_r. done.
Qed.



(** *** get_posts_after *)

Lemma by_post_number_total : Total by_post_number.
Proof. intros a b. unfold by_post_number. lia. Qed.

Lemma by_post_number_trans : Transitive by_post_number.
Proof. intros a b c. unfold by_post_number. lia. Qed.

(** X6.  [get_posts_after] returns exactly the stored posts of the
    thread whose post number is above [start_post_number], restricted
    to the author when an author other than 0 is given (an author of 0
    does not filter, as [None] does not); each post once, in ascending
    post number. *)
Theorem get_posts_after_spec tid' start_post_number author c :
  let rows := get_posts_after tid' start_post_number author c in
  (∀ k row,
     (k, row) ∈ rows ↔
     posts (working c) !! k = Some row
     ∧ row_tid row = tid' ∧ start_post_number < row_post_number row
     ∧ match author with
       | Some uid => uid = 0 ∨ row_author_uid row = uid
       | None => True
       end)
  ∧ StronglySorted by_post_number rows
  ∧ NoDup rows.*1.
Proof.
  intros rows. subst rows. unfold get_posts_after.
  split; [|split].
  - intros k row. rewrite merge_sort_Permutation.
    destruct author as [uid|]; [destruct (decide (uid = 0)) as [->|Hne]|];
      rewrite list_elem_of_filter, elem_of_map_to_list; simpl.
    + split; [intros [[? ?] ?]|intros (? & ? & ? & _)]; [|split; [split|]; [done|lia|done]].
      split; [done|]. split; [done|]. split; [lia|by left].
    + split; [intros [(? & ? & ?) ?]|intros (? & ? & ? & [?|?])];
        [|done|split; [split; [done|split; [lia|done]]|done]].
      split; [done|]. split; [done|]. split; [lia|by right].
    + split; [intros [[? ?] ?]|intros (? & ? & ? & _)]; [|split; [split|]; [done|lia|done]].
      split; [done|]. split; [done|]. split; [lia|done].
  - apply StronglySorted_merge_sort.
    + apply by_post_number_trans.
    + apply by_post_number_total.
  - rewrite merge_sort_Permutation.
    assert (∀ (P : post_record → Prop) `{∀ r, Decision (P r)},
              NoDup (filter P (map_to_list (posts (working c)))).*1) as Hfilter.
    { intros P HP.
      apply (sublist_NoDup _ (map_to_list (posts (working c))).*1).
      - apply NoDup_fst_map_to_list.
      - apply fmap_sublist, sublist_filter. }
    destruct author as [uid|]; [destruct (decide (uid = 0))|]; apply Hfilter.
Qed.

(** The four queries of tests/test_api.py. *)
Example get_posts_after_api_test :
  length (get_posts_after 12345 0 None api_test_conn) = 3%nat
  ∧ row_post_number <$> (get_posts_after 12345 1 None api_test_conn).*2 = [2; 3]
  ∧ (λ row, (row_post_number row, row_author_uid row))
      <$> (get_posts_after 12345 1 (Some 100) api_test_conn).*2 = [(3, 100)]
  ∧ get_posts_after 12345 3 None api_test_conn = [].
Proof. repeat split; vm_compute; reflexivity. Qed.

(** *** parse_page_result, then the writes *)

Lemma NoDup_fmap_elem_eq {A B} (f : A → B) (l : list A) x y :
  NoDup (f <$> l) → x ∈ l → y ∈ l → f x = f y → x = y.
Proof.
  induction l as [|a l IH]; intros Hnodup Hx Hy Heq.
  { by apply elem_of_nil in Hx. }
  rewrite fmap_cons in Hnodup. apply NoDup_cons in Hnodup as [Hnotin Hnodup].
  apply elem_of_cons in Hx as [->|Hx]; apply elem_of_cons in Hy as [->|Hy].
  - done.
  - exfalso. apply Hnotin. rewrite Heq. apply list_elem_of_fmap. by exists y.
  - exfalso. apply Hnotin. rewrite <- Heq. apply list_elem_of_fmap. by exists x.
  - by apply IH.
Qed.

(** Among posts with distinct pids, each is stored under its own pid. *)
Lemma store_posts_lookup_distinct now posts' table post :
  NoDup (post_pid <$> posts') → post ∈ posts' →
  store_posts now posts' table !! post_pid post = Some (post_row now post).
Proof.
  intros Hnodup Hin.
  destruct (store_posts_lookup_saved now posts' table post Hin)
    as (post' & Hin' & Hpid & ->).
  by rewrite (NoDup_fmap_elem_eq post_pid posts' post' post Hnodup Hin' Hin Hpid).
Qed.



(* ===================================================================== *)
(** ** Every way a check can go *)
(* ===================================================================== *)

Section CheckThreadOutcomes.

Variable net : network.

(** The loop over [pages_to_fetch] up to the first fetch that raises. *)
Lemma fetch_new_pages_raise tid good bad rest e all_new_posts w :
  (∀ page_num, page_num ∈ good → is_ok (fetch_page net tid page_num) = true) →
  fetch_page net tid bad = Raise e →
  fetch_new_pages net tid (good ++ bad :: rest) all_new_posts w
  = (Raise e, log_fetches tid (good ++ [bad]) w).
Proof.
  revert all_new_posts w.
  induction good as [|page_num good' IH]; intros all_new_posts w Hok Hbad.
  { simpl. unfold bind, crawler_fetch_page. rewrite Hbad.
    unfold log_fetches, log_fetch. done. }
  assert (is_ok (fetch_page net tid page_num) = true) as Hfirst by (apply Hok; left).
  assert (∀ acc, fetch_new_pages net tid (good' ++ bad :: rest) acc (log_fetch tid page_num w)
                 = (Raise e, log_fetches tid ((page_num :: good') ++ [bad]) w)) as Hrest.
  { intros acc. rewrite IH by (try done; intros p Hp; apply Hok; by right).
    f_equal. unfold log_fetches, log_fetch. simpl. by rewrite <- app_assoc. }
  simpl. unfold bind, crawler_fetch_page.
  destruct (fetch_page net tid page_num) as [[page|]|e']; [| |done]; simpl.
  - destruct (page_truthy page); by rewrite Hrest.
  - by rewrite Hrest.
Qed.

(** A check whose first page does not come. *)
Lemma check_thread_first_page_missing tid w monitor_config author_uids thread :
  active_subscription tid (db_of w) = Some monitor_config →
  parse_author_uids (author_filter monitor_config) = Ok author_uids →
  threads (db_of w) !! tid = Some thread →
  (∀ first_page, fetch_page net tid 1 = Ok (Some first_page) →
                 page_truthy first_page = false) →
  is_ok (fetch_page net tid 1) = true →
  check_thread net tid w
  = (Ok (CheckError "Failed to fetch thread"), after_failed_fetch tid w).
Proof.
  intros Hsub Hfilter Hthread Hfalsy Hok.
  unfold check_thread, bind, db_query, get, lift. fold (db_of w).
  rewrite Hsub, Hfilter. unfold get_thread. fold (db_of w). rewrite Hthread.
  unfold try_except, check_thread_body, bind, crawler_fetch_page.
  destruct (fetch_page net tid 1) as [[first_page|]|e] eqn:Hfetch; [| |done].
  - rewrite (Hfalsy first_page) by done. reflexivity.
  - reflexivity.
Qed.

(** A check whose first fetch raises. *)
Lemma check_thread_first_page_crash tid w monitor_config author_uids thread e :
  active_subscription tid (db_of w) = Some monitor_config →
  parse_author_uids (author_filter monitor_config) = Ok author_uids →
  threads (db_of w) !! tid = Some thread →
  fetch_page net tid 1 = Raise e →
  check_thread net tid w
  = (Ok (CheckError ("Error checking thread: " +:+ str_exn e)),
     with_error_event tid e (log_fetch tid 1 w)).
Proof.
  intros Hsub Hfilter Hthread Hfetch.
  unfold check_thread, bind, db_query, get, lift. fold (db_of w).
  rewrite Hsub, Hfilter. unfold get_thread. fold (db_of w). rewrite Hthread.
  unfold try_except, check_thread_body, bind, crawler_fetch_page.
  rewrite Hfetch. reflexivity.
Qed.

(** A check that finds more posts than stored and meets a fetch that
    raises: the pages up to that one were requested, nothing is saved. *)
Lemma check_thread_fetch_crash tid w monitor_config author_uids
    thread first_page start_page end_page good bad rest e :
  active_subscription tid (db_of w) = Some monitor_config →
  parse_author_uids (author_filter monitor_config) = Ok author_uids →
  threads (db_of w) !! tid = Some thread →
  net tid 1 = Reply first_page →
  page_truthy first_page = true →
  total_posts thread < default 0 (vrows first_page) →
  new_page_range (total_posts thread) (default 20 (perPage first_page))
    (default 0 (totalPage first_page)) = Ok (start_page, end_page) →
  range_incl start_page end_page = good ++ bad :: rest →
  (∀ page_num, page_num ∈ good → is_ok (fetch_page net tid page_num) = true) →
  fetch_page net tid bad = Raise e →
  check_thread net tid w
  = (Ok (CheckError ("Error checking thread: " +:+ str_exn e)),
     with_error_event tid e (log_fetches tid (good ++ [bad]) (log_fetch tid 1 w))).
Proof.
  intros Hsub Hfilter Hthread Hnet Htruthy Hnew Hrange Hpages Hgood Hbad.
  unfold check_thread, bind, db_query, get, lift. fold (db_of w).
  rewrite Hsub, Hfilter. unfold get_thread. fold (db_of w). rewrite Hthread.
  unfold try_except, check_thread_body, bind, crawler_fetch_page, fetch_page.
  rewrite Hnet, Htruthy. cbn [negb].
  destruct (decide (default 0 (vrows first_page) - total_posts thread ≤ 0)); [lia|].
  unfold lift. rewrite Hrange, Hpages.
  rewrite (fetch_new_pages_raise tid good bad rest e) by done.
  reflexivity.
Qed.

End CheckThreadOutcomes.

(** *** The footprint of a check *)

Lemma check_footprint_refl tid w : check_footprint tid w w.
Proof.
  split; try done.
  - exists []. by rewrite app_nil_r.
  - by left.
  - by left.
  - exists []. by rewrite app_nil_r.
Qed.

Lemma check_footprint_log_fetches tid pages w w' :
  check_footprint tid w w' → check_footprint tid w (log_fetches tid pages w').
Proof.
  intros [[pages0 Hfetched] ? ? ? ? ? ? ? ?]. split; try done.
  exists (pages0 ++ pages). unfold log_fetches. simpl.
  by rewrite Hfetched, fmap_app, app_assoc.
Qed.

Lemma check_footprint_log_fetch tid page w w' :
  check_footprint tid w w' → check_footprint tid w (log_fetch tid page w').
Proof. apply (check_footprint_log_fetches tid [page]). Qed.

Lemma check_footprint_add_event tid event w w' :
  event_tid event = tid →
  check_footprint tid w w' →
  check_footprint tid w (set_conn (execute (add_event event)) w').
Proof.
  intros Htid [? ? ? ? ? ? ? ? (events & Hevents & Hall)]. split; try done.
  exists (events ++ [event]). unfold db_of in *. simpl. rewrite Hevents. split.
  - by rewrite app_assoc.
  - apply Forall_app. split; [done|]. by apply Forall_singleton.
Qed.

Lemma check_footprint_notified tid sent w w' :
  check_footprint tid w w' → check_footprint tid w (notified sent w').
Proof.
  intros [? ? ? ? [sent0 Hsent] ? ? ? ?]. split; try done.
  exists (sent0 ++ sent). unfold notified. simpl. by rewrite Hsent, app_assoc.
Qed.

Lemma check_footprint_quiet tid first_page w :
  check_footprint tid w (after_quiet_check tid first_page w).
Proof.
  unfold after_quiet_check. split; try done.
  - by exists [1].
  - right. by exists first_page.
  - by right.
  - exists [no_new_posts_event tid (clock w)]. split; [done|].
    by apply Forall_singleton.
Qed.

(** Posts that are not stored do not displace a stored row. *)
Lemma store_fresh_posts_keeps now stored all_new_posts :
  stored ⊆ store_posts now (fresh_posts stored all_new_posts) stored.
Proof.
  apply map_subseteq_spec. intros k row Hk.
  rewrite store_posts_lookup_other; [done|].
  intros post [Hfresh _]%list_elem_of_filter Heq. congruence.
Qed.

Lemma new_posts_event_tid tid now new_posts_to_save filtered_new_posts :
  event_tid (new_posts_event tid now new_posts_to_save filtered_new_posts) = tid.
Proof. by destruct filtered_new_posts. Qed.

Lemma check_footprint_new_posts net tid author_uids first_page start_page end_page w :
  check_footprint tid w
    (after_new_posts_check net tid author_uids first_page start_page end_page w).
Proof.
  unfold after_new_posts_check. split; try done.
  - by exists (1 :: range_incl start_page end_page).
  - apply store_fresh_posts_keeps.
  - right. by exists first_page.
  - by right.
  - eexists [_]. split; [done|]. apply Forall_singleton, new_posts_event_tid.
Qed.

Lemma check_thread_changes net tid w :
  check_footprint tid w (check_thread net tid w).2.
Proof.
  destruct (active_subscription tid (db_of w)) as [monitor_config|] eqn:Hsub.
  2: { unfold check_thread, bind, db_query, get. fold (db_of w). rewrite Hsub.
       apply check_footprint_refl. }
  destruct (parse_author_uids (author_filter monitor_config)) as [author_uids|e] eqn:Hfilter.
  2: { unfold check_thread, bind, db_query, get, lift. fold (db_of w).
       rewrite Hsub, Hfilter. apply check_footprint_refl. }
  destruct (threads (db_of w) !! tid) as [thread|] eqn:Hthread.
  2: { unfold check_thread, bind, db_query, get, lift. fold (db_of w).
       rewrite Hsub, Hfilter. unfold get_thread. fold (db_of w). rewrite Hthread.
       apply check_footprint_refl. }
  destruct (net tid 1) as [first_page| | |e] eqn:Hnet.
  - destruct (page_truthy first_page) eqn:Htruthy.
    + destruct (decide (default 0 (vrows first_page) ≤ total_posts thread)) as [Hle|Hnew].
      { erewrite check_thread_no_change by done. apply check_footprint_quiet. }
      destruct (new_page_range (total_posts thread) (default 20 (perPage first_page))
                  (default 0 (totalPage first_page))) as [[start_page end_page]|e] eqn:Hrange.
      2: { erewrite check_thread_range_raise by (try done; lia).
           apply check_footprint_add_event; [done|].
           apply check_footprint_log_fetch, check_footprint_refl. }
      destruct (first_crash net tid (range_incl start_page end_page))
        as [[index bad]|] eqn:Hcrash; unfold first_crash in Hcrash.
      * apply list_find_Some in Hcrash as (Hat & Hbad & Hbefore).
        apply list_elem_of_split_length in Hat as (good & rest & Hpages & ->).
        destruct (fetch_page net tid bad) as [r|e] eqn:Hfetch; [done|].
        erewrite (check_thread_fetch_crash net tid w monitor_config author_uids thread
                    first_page start_page end_page good bad rest e); try done; try lia.
        -- apply check_footprint_add_event; [done|].
           apply check_footprint_log_fetches, check_footprint_log_fetch,
             check_footprint_refl.
        -- intros page_num Hin. apply list_elem_of_lookup in Hin as [i Hi].
           specialize (Hbefore i page_num).
           rewrite Hpages, lookup_app_l in Hbefore by (by apply lookup_lt_Some in Hi).
           specialize (Hbefore Hi ltac:(by apply lookup_lt_Some in Hi)).
           by destruct (is_ok (fetch_page net tid page_num)).
      * apply list_find_None in Hcrash.
        erewrite (check_thread_new_posts net tid w monitor_config author_uids thread
                    first_page start_page end_page); try done; try lia.
        -- destruct (parse_author_uids (author_notification monitor_config)).
           ++ apply check_footprint_notified, check_footprint_new_posts.
           ++ apply check_footprint_add_event; [done|].
              apply check_footprint_new_posts.
        -- intros page_num Hin. rewrite Forall_forall in Hcrash.
           specialize (Hcrash page_num Hin). simpl in Hcrash.
           by destruct (is_ok (fetch_page net tid page_num)).
    + erewrite check_thread_first_page_missing; try done.
      * apply check_footprint_add_event; [done|].
        apply check_footprint_log_fetch, check_footprint_refl.
      * unfold fetch_page. rewrite Hnet. by intros p [= <-].
      * unfold fetch_page. by rewrite Hnet.
  - erewrite check_thread_first_page_missing; try done.
    + apply check_footprint_add_event; [done|].
      apply check_footprint_log_fetch, check_footprint_refl.
    + unfold fetch_page. by rewrite Hnet.
    + unfold fetch_page. by rewrite Hnet.
  - erewrite check_thread_first_page_missing; try done.
    + apply check_footprint_add_event; [done|].
      apply check_footprint_log_fetch, check_footprint_refl.
    + unfold fetch_page. by rewrite Hnet.
    + unfold fetch_page. by rewrite Hnet.
  - erewrite check_thread_first_page_crash; try done.
    + apply check_footprint_add_event; [done|].
      apply check_footprint_log_fetch, check_footprint_refl.
    + unfold fetch_page. by rewrite Hnet.
Qed.


(** *** check_all *)

Lemma active_subscription_touch tid now db t row' :
  active_subscription t (touch_last_checked tid now db) = Some row' →
  ∃ row, active_subscription t db = Some row ∧ author_filter row' = author_filter row.
Proof.
  unfold active_subscription. rewrite lookup_touch_last_checked.
  case_decide as Ht.
  - subst t. destruct (monitored_threads db !! tid) as [row|]; [|done]. simpl.
    destruct (is_active row); [|done]. intros [= <-]. by exists row.
  - intros Hrow. exists row'. done.
Qed.

Lemma check_footprint_filters_parse tid w w' :
  check_footprint tid w w' → filters_parse w → filters_parse w'.
Proof.
  intros Hfp Hparse t row' Hrow'. unfold active_subscription in *.
  destruct (fp_monitored _ _ _ Hfp) as [Heq|Heq].
  - rewrite Heq in Hrow'. by apply (Hparse t).
  - rewrite Heq in Hrow'.
    destruct (active_subscription_touch tid (clock w) (db_of w) t row' Hrow')
      as (row & Hrow & ->).
    by apply (Hparse t).
Qed.

Lemma check_thread_returns net tid w :
  filters_parse w → ∃ result, (check_thread net tid w).1 = Ok result.
Proof.
  intros Hparse. destruct (check_thread net tid w).1 as [result|e] eqn:Hres.
  { by exists result. }
  apply check_thread_raises in Hres as (row & Hrow & Hraise).
  specialize (Hparse tid row Hrow). by rewrite Hraise in Hparse.
Qed.

Lemma check_all_loop_cons net thread rest total_new checked w :
  check_all_loop net (thread :: rest) total_new checked w
  = match check_thread net thread.1.1 w with
    | (Ok (Checked report), w1) =>
        check_all_loop net rest (total_new + cr_new_posts report) (checked + 1)
          (set_clock (clock w1 + 1) w1)
    | (Ok (CheckError _), w1) =>
        check_all_loop net rest total_new checked (set_clock (clock w1 + 1) w1)
    | (Raise e, w1) => (Raise e, w1)
    end.
Proof.
  cbn [check_all_loop]. unfold bind, sleep, modify.
  by destruct (check_thread net thread.1.1 w) as [[[error|report]|e] w1].
Qed.

(** The loop of [check_all] over any list of threads. *)
Lemma check_all_loop_returns net monitored total_new checked w :
  filters_parse w →
  ∃ total_new' checked',
    (check_all_loop net monitored total_new checked w).1 = Ok (total_new', checked')
    ∧ checked ≤ checked' ≤ checked + Z.of_nat (length monitored)
    ∧ clock (check_all_loop net monitored total_new checked w).2
      = clock w + Z.of_nat (length monitored)
    ∧ posts (db_of w) ⊆ posts (db_of (check_all_loop net monitored total_new checked w).2)
    ∧ submitted (check_all_loop net monitored total_new checked w).2 = submitted w.
Proof.
  revert total_new checked w.
  induction monitored as [|thread rest IH]; intros total_new checked w Hparse.
  { exists total_new, checked. simpl. repeat split; try done; lia. }
  rewrite check_all_loop_cons.
  pose proof (check_thread_changes net thread.1.1 w) as Hfp.
  destruct (check_thread_returns net thread.1.1 w Hparse) as [result Hres].
  destruct (check_thread net thread.1.1 w) as [r w1]. cbn [fst snd] in *. subst r.
  assert (filters_parse w1) as Hparse1 by by eapply check_footprint_filters_parse.
  destruct Hfp as [_ Hsub _ Hclock _ Hposts _ _ _].
  assert (filters_parse (set_clock (clock w1 + 1) w1)) as Hparse2 by done.
  destruct result as [error|report].
  - destruct (IH total_new checked (set_clock (clock w1 + 1) w1) Hparse2)
      as (n & c & Hloop & Hc & Hclock' & Hposts' & Hsub').
    exists n, c. split; [done|]. split; [rewrite length_cons; lia|].
    split; [rewrite Hclock'; cbn [clock set_clock]; rewrite Hclock, length_cons; lia|].
    split; [etrans; [exact Hposts|exact Hposts']|].
    by rewrite Hsub'.
  - destruct (IH (total_new + cr_new_posts report) (checked + 1)
                (set_clock (clock w1 + 1) w1) Hparse2)
      as (n & c & Hloop & Hc & Hclock' & Hposts' & Hsub').
    exists n, c. split; [done|]. split; [rewrite length_cons; lia|].
    split; [rewrite Hclock'; cbn [clock set_clock]; rewrite Hclock, length_cons; lia|].
    split; [etrans; [exact Hposts|exact Hposts']|].
    by rewrite Hsub'.
Qed.


Lemma sample_world_filters_parse old_total_posts stored :
  filters_parse (sample_world old_total_posts (Some "100,200") stored).
Proof.
  intros t row. unfold active_subscription, db_of, sample_world.
  cbn [conn working fresh_conn monitored_threads].
  destruct (decide (t = 7)) as [->|Hne].
  - rewrite lookup_singleton_eq. cbn. by intros [= <-].
  - by rewrite lookup_singleton_ne.
Qed.


(* ===================================================================== *)
(** ** The list of monitored threads, and removal *)
(* ===================================================================== *)

Lemma insert_by_last_checked_Permutation row sorted :
  insert_by_last_checked row sorted ≡ₚ row :: sorted.
Proof.
  induction sorted as [|first rest IH]; simpl; [done|].
  destruct (checked_not_before row.1.2 first.1.2); [done|].
  rewrite IH. apply Permutation_swap.
Qed.

Lemma sort_by_last_checked_Permutation rows :
  foldr insert_by_last_checked [] rows ≡ₚ rows.
Proof.
  induction rows as [|row rest IH]; simpl; [done|].
  by rewrite insert_by_last_checked_Permutation, IH.
Qed.

Lemma checked_not_before_total a b :
  checked_not_before a b = false → checked_not_before b a = true.
Proof.
  unfold checked_not_before.
  destruct (last_checked a), (last_checked b); try done.
  intros Hlt%bool_decide_eq_false. apply bool_decide_eq_true. lia.
Qed.

Lemma checked_not_before_trans a b c :
  checked_not_before a b = true → checked_not_before b c = true →
  checked_not_before a c = true.
Proof.
  unfold checked_not_before.
  destruct (last_checked a), (last_checked b), (last_checked c); try done.
  intros ?%bool_decide_eq_true ?%bool_decide_eq_true. apply bool_decide_eq_true. lia.
Qed.

Lemma insert_by_last_checked_sorted row sorted :
  StronglySorted latest_check_first sorted →
  StronglySorted latest_check_first (insert_by_last_checked row sorted).
Proof.
  induction 1 as [|first rest Hrest IH Hfirst]; simpl.
  { repeat constructor. }
  destruct (checked_not_before row.1.2 first.1.2) eqn:Hcmp.
  - constructor; [by constructor|]. constructor; [done|].
    eapply Forall_impl; [exact Hfirst|]. intros other Hother.
    by eapply checked_not_before_trans.
  - constructor; [done|].
    rewrite insert_by_last_checked_Permutation. constructor; [|done].
    by apply checked_not_before_total.
Qed.

Lemma sort_by_last_checked_sorted rows :
  StronglySorted latest_check_first (foldr insert_by_last_checked [] rows).
Proof.
  induction rows as [|row rest IH]; simpl; [constructor|].
  by apply insert_by_last_checked_sorted.
Qed.

(** The rows [list_monitored] reads. *)
Lemma list_monitored_rows w :
  ∃ rows, list_monitored w = (Ok rows, w)
    ∧ (∀ tid m t, (tid, m, t) ∈ rows ↔
         monitored_threads (db_of w) !! tid = Some m ∧ is_active m = true
         ∧ threads (db_of w) !! tid = Some t)
    ∧ NoDup rows.*1.*1
    ∧ StronglySorted latest_check_first rows.
Proof.
  eexists. split; [reflexivity|]. fold (db_of w). split; [|split].
  - intros tid m t. rewrite sort_by_last_checked_Permutation, list_elem_of_omap. split.
    + intros ([tid' m'] & Hin%elem_of_map_to_list & Hrow).
      destruct (is_active m') eqn:Hactive; [|done].
      destruct (threads (db_of w) !! tid') as [t'|] eqn:Hthread; [|done].
      by injection Hrow as -> -> ->.
    + intros (Hm & Hactive & Ht). exists (tid, m). split.
      * by apply elem_of_map_to_list.
      * by rewrite Hactive, Ht.
  - rewrite sort_by_last_checked_Permutation.
    pose proof (NoDup_fst_map_to_list (monitored_threads (db_of w))) as Hnodup.
    induction (map_to_list (monitored_threads (db_of w))) as [|[tid m] rest IH];
      [constructor|].
    apply NoDup_cons in Hnodup as [Hnotin Hnodup]. simpl.
    destruct (is_active m); [|by apply IH].
    destruct (threads (db_of w) !! tid) as [t|]; [|by apply IH]. simpl.
    apply NoDup_cons. split; [|by apply IH].
    intros Hin. apply Hnotin.
    apply list_elem_of_fmap in Hin as (x & Hx & Hin).
    apply list_elem_of_fmap in Hin as ([[tid' m'] t'] & -> & Hin).
    apply list_elem_of_omap in Hin as ([tid'' m''] & Hin & Hrow).
    destruct (is_active m''); [|done].
    destruct (threads (db_of w) !! tid''); [|done].
    injection Hrow as -> -> ->. simpl in Hx. subst tid.
    apply list_elem_of_fmap. by exists (tid', m').
  - apply sort_by_last_checked_sorted.
Qed.

(** X10.  [list_monitored] changes nothing and returns exactly the
    subscriptions that are active and whose thread is stored, each
    once, joined with its thread row; a subscription checked later
    comes first, and those never checked come last. *)
Theorem list_monitored_spec w :
  ∃ rows, list_monitored w = (Ok rows, w)
    ∧ (∀ tid m t, (tid, m, t) ∈ rows ↔
         monitored_threads (db_of w) !! tid = Some m ∧ is_active m = true
         ∧ threads (db_of w) !! tid = Some t)
    ∧ NoDup rows.*1.*1
    ∧ ∀ (i j : nat) a b, (i < j)%nat → rows !! i = Some a → rows !! j = Some b →
        match last_checked a.1.2, last_checked b.1.2 with
        | Some x, Some y => y ≤ x
        | None, Some _ => False
        | _, None => True
        end.
Proof.
  destruct (list_monitored_rows w) as (rows & Hlist & Hin & Hnodup & Hsorted).
  exists rows. split; [done|]. split; [done|]. split; [done|].
  intros i j a b Hij Ha Hb.
  assert (latest_check_first a b) as Hab.
  { clear Hin Hnodup Hlist. revert i j Hij Ha Hb.
    induction Hsorted as [|first rest Hrest IH Hfirst]; intros i j Hij Ha Hb; [done|].
    destruct j as [|j]; [lia|]. simpl in Hb.
    destruct i as [|i]; simpl in Ha.
    - injection Ha as ->. rewrite Forall_forall in Hfirst. apply Hfirst.
      by eapply list_elem_of_lookup_2.
    - apply (IH i j); [lia|done|done]. }
  unfold latest_check_first, checked_not_before in Hab.
  destruct (last_checked a.1.2), (last_checked b.1.2); try done.
  by apply bool_decide_eq_true in Hab.
Qed.

(** *** remove_thread *)

Lemma lookup_deactivate tid db t :
  monitored_threads (deactivate tid db) !! t
  = if decide (t = tid)
    then (λ old, {| author_filter := author_filter old;
                    author_notification := author_notification old;
                    check_interval := check_interval old;
                    last_checked := last_checked old;
                    last_post_timestamp := last_post_timestamp old;
                    is_active := false;
                    monitor_created_at := monitor_created_at old |})
           <$> monitored_threads db !! tid
    else monitored_threads db !! t.
Proof.
  unfold deactivate. simpl. case_decide; subst.
  - by rewrite lookup_alter_eq.
  - by rewrite lookup_alter_ne.
Qed.

(** X11.  [remove_thread] is a soft delete that always returns [True],
    also for a thread that was never monitored: it clears [is_active]
    of the subscription of the thread and commits; the row, its filter
    and dates, the posts, the thread rows, the events and every other
    subscription stay.  From then on [check_thread] answers that the
    thread is not monitored, without a request, and [list_monitored]
    does not list it. *)
Theorem remove_thread_soft_delete net tid w :
  let w' := (remove_thread tid w).2 in
  (remove_thread tid w).1 = Ok true
  ∧ committed (conn w') = working (conn w')
  ∧ monitored_threads (db_of w') !! tid
    = (λ old, {| author_filter := author_filter old;
                 author_notification := author_notification old;
                 check_interval := check_interval old;
                 last_checked := last_checked old;
                 last_post_timestamp := last_post_timestamp old;
                 is_active := false;
                 monitor_created_at := monitor_created_at old |})
        <$> monitored_threads (db_of w) !! tid
  ∧ (∀ t, t ≠ tid → monitored_threads (db_of w') !! t = monitored_threads (db_of w) !! t)
  ∧ posts (db_of w') = posts (db_of w)
  ∧ threads (db_of w') = threads (db_of w)
  ∧ monitoring_events (db_of w') = monitoring_events (db_of w)
  ∧ check_thread net tid w'
    = (Ok (CheckError ("Thread " +:+ str_int tid +:+ " not monitored")), w')
  ∧ ∀ rows, (list_monitored w').1 = Ok rows → tid ∉ rows.*1.*1.
Proof.
  intros w'. subst w'.
  assert (remove_thread tid w
          = (Ok true, set_conn (λ c, commit (execute (deactivate tid) c)) w)) as ->
    by reflexivity.
  cbn [fst snd]. unfold db_of. cbn [conn set_conn commit execute working committed].
  split; [done|]. split; [done|].
  split. { rewrite lookup_deactivate. by case_decide. }
  split. { intros t Hne. rewrite lookup_deactivate. by case_decide. }
  split; [done|]. split; [done|]. split; [done|].
  assert (active_subscription tid (deactivate tid (working (conn w))) = None) as Hnone.
  { unfold active_subscription. rewrite lookup_deactivate.
    case_decide; [|done]. by destruct (monitored_threads (working (conn w)) !! tid). }
  split.
  - unfold check_thread, bind, db_query, get.
    cbn [conn set_conn commit execute working]. by rewrite Hnone.
  - intros rows Hrows.
    destruct (list_monitored_rows (set_conn (λ c, commit (execute (deactivate tid) c)) w))
      as (rows' & Hlist & Hin & _).
    rewrite Hlist in Hrows. injection Hrows as <-.
    intros Htid. apply list_elem_of_fmap in Htid as (x & Hx & Htid).
    apply list_elem_of_fmap in Htid as ([[tid' m] t] & Hx' & Htid).
    simpl in Hx'. subst x. simpl in Hx. subst tid'.
    apply Hin in Htid as (Hm & Hactive & _).
    unfold db_of in Hm. cbn [conn set_conn commit execute working] in Hm.
    rewrite lookup_deactivate in Hm.
    case_decide; [|done].
    destruct (monitored_threads (working (conn w)) !! tid); [|done].
    simpl in Hm. injection Hm as <-. done.
Qed.

(* ===================================================================== *)
(** ** Checks that fail, and checks that repeat *)
(* ===================================================================== *)



Lemma threads_after_new_posts_check net tid author_uids first_page start_page end_page w t :
  threads (db_of (after_new_posts_check net tid author_uids first_page
                    start_page end_page w)) !! t
  = if decide (t = page_tid first_page)
    then Some (match threads (db_of w) !! page_tid first_page with
               | Some old => refreshed old (page_thread_row (clock w) first_page)
               | None => page_thread_row (clock w) first_page
               end)
    else threads (db_of w) !! t.
Proof.
  unfold after_new_posts_check, db_of. cbn [conn working fresh_conn].
  unfold add_event, touch_last_checked, set_monitored. cbn [threads].
  by rewrite lookup_upsert_thread.
Qed.

Lemma monitored_after_new_posts_check net tid author_uids first_page start_page end_page w t :
  monitored_threads (db_of (after_new_posts_check net tid author_uids first_page
                              start_page end_page w)) !! t
  = if decide (t = tid)
    then checked_at (clock w) <$> monitored_threads (db_of w) !! tid
    else monitored_threads (db_of w) !! t.
Proof.
  unfold after_new_posts_check, db_of. cbn [conn working fresh_conn].
  unfold add_event. cbn [monitored_threads].
  by rewrite lookup_touch_last_checked.
Qed.



(* ===================================================================== *)
(** ** What a crawl with a callback can and cannot do *)
(* ===================================================================== *)

Lemma process_accounting {S} net tid (callback : @callback_t S) stop_event
    as_completed k s :
  let r := process net tid callback stop_event as_completed k s in
  (length (calls r) ≤ 2 * length as_completed)%nat
  ∧ (∀ page_num result, (page_num, result) ∈ calls r →
       page_num ∈ as_completed
       ∧ (result = None ∨ fetch_page net tid page_num = Ok result))
  ∧ (∀ e, status r = Propagated e →
       ∃ page_num s0, page_num ∈ as_completed
                      ∧ callback page_num None s0 = (final r, Some e))
  ∧ (stop_event = None → status r ≠ Interrupted ∧ polled r = 0%nat).
Proof.
  revert k s. induction as_completed as [|page_num later IH]; intros k s; simpl.
  { split; [lia|]. split; [by intros ?? ?%elem_of_nil|]. split; [done|].
    intros ->. done. }
  destruct (stop_is_set stop_event k) eqn:Hstop; simpl.
  { split; [lia|]. split; [by intros ?? ?%elem_of_nil|]. split; [done|].
    intros ->. done. }
  assert (∀ s1 result,
            (result = None ∨ fetch_page net tid page_num = Ok result) →
            let r := invoked page_num result
                       (process net tid callback stop_event later (Datatypes.S k) s1) in
            (length (calls r) ≤ 1 + 2 * length later)%nat
            ∧ (∀ page_num' result', (page_num', result') ∈ calls r →
                 page_num' ∈ page_num :: later
                 ∧ (result' = None ∨ fetch_page net tid page_num' = Ok result'))
            ∧ (∀ e, status r = Propagated e →
                 ∃ page_num' s0, page_num' ∈ page_num :: later
                                 ∧ callback page_num' None s0 = (final r, Some e))
            ∧ (stop_event = None → status r ≠ Interrupted ∧ polled r = 0%nat)) as Hnext.
  { intros s1 result Hresult. destruct (IH (Datatypes.S k) s1) as (Hlen & Hcalls & Hprop & Hnone).
    simpl. split; [lia|]. split; [|split; [|done]].
    - intros page_num' result' [[= -> ->]|Hin]%elem_of_cons.
      + split; [by left|done].
      + destruct (Hcalls _ _ Hin) as [? ?]. split; [by right|done].
    - intros e He. destruct (Hprop e He) as (page_num' & s0 & Hin & Hcall).
      exists page_num', s0. split; [by right|done]. }
  assert (∀ s0 s1 e,
            callback page_num None s0 = (s1, Some e) →
            let r := {| final := s1; calls := [(page_num, None)];
                        polled := polls_after stop_event (Datatypes.S k);
                        status := Propagated e |} in
            (length (calls r) ≤ 1 + 2 * length later)%nat
            ∧ (∀ page_num' result', (page_num', result') ∈ calls r →
                 page_num' ∈ page_num :: later
                 ∧ (result' = None ∨ fetch_page net tid page_num' = Ok result'))
            ∧ (∀ e', status r = Propagated e' →
                 ∃ page_num' s0', page_num' ∈ page_num :: later
                                  ∧ callback page_num' None s0' = (final r, Some e'))
            ∧ (stop_event = None → status r ≠ Interrupted ∧ polled r = 0%nat)) as Hraise.
  { intros s0 s1 e Hcall. simpl. split; [lia|]. split; [|split].
    - intros page_num' result' [= -> ->]%list_elem_of_singleton.
      split; [by left|by left].
    - intros e' [= <-]. exists page_num, s0. split; [by left|done].
    - intros ->. done. }
  destruct (fetch_page net tid page_num) as [result|e] eqn:Hfetch.
  - destruct (callback page_num result s) as [s1 [e1|]] eqn:Hcall1.
    + destruct (callback page_num None s1) as [s2 [e2|]] eqn:Hcall2.
      * destruct (Hraise s1 s2 e2 Hcall2) as (Hlen & Hcalls & Hprop & Hnone).
        simpl in *. split; [lia|]. split; [|split; [done|done]].
        intros page_num' result' [[= -> ->]|Hin]%elem_of_cons.
        -- split; [by left|by right].
        -- by apply Hcalls.
      * destruct (Hnext s2 None ltac:(by left)) as (Hlen & Hcalls & Hprop & Hnone).
        simpl in *. split; [lia|]. split; [|split; [done|done]].
        intros page_num' result' [[= -> ->]|Hin]%elem_of_cons.
        -- split; [by left|by right].
        -- by apply Hcalls.
    + destruct (Hnext s1 result ltac:(by right)) as (Hlen & Hcalls & Hprop & Hnone).
      split; [simpl in *; lia|]. split; [|split]; done.
  - destruct (callback page_num None s) as [s1 [e1|]] eqn:Hcall1.
    + destruct (Hraise s s1 e1 Hcall1) as (Hlen & Hcalls & Hprop & Hnone).
      simpl in *. split; [lia|]. split; [|split]; done.
    + destruct (Hnext s1 None ltac:(by left)) as (Hlen & Hcalls & Hprop & Hnone).
      split; [simpl in *; lia|]. split; [|split]; done.
Qed.

(** X14.  Whatever the callback, the stop event and the replies:
    [crawl_pages_range_with_callback] invokes the callback at most twice
    for each completed page, only for pages that completed, and only
    with the result the fetch returned or with [None]; an exception
    leaves it only if the callback raised it when invoked with [None],
    so no failed fetch ends the crawl by itself; and without a stop
    event it is never interrupted. *)
Theorem crawl_with_callback_accounting {S} net tid (callback : @callback_t S) stop_event
    start_page end_page as_completed s :
  let r := crawl_pages_range_with_callback net tid callback stop_event
             start_page end_page as_completed s in
  (length (calls r) ≤ 2 * length as_completed)%nat
  ∧ (∀ page_num result, (page_num, result) ∈ calls r →
       page_num ∈ as_completed
       ∧ (result = None ∨ fetch_page net tid page_num = Ok result))
  ∧ (∀ e, status r = Propagated e →
       ∃ page_num s0, page_num ∈ as_completed
                      ∧ callback page_num None s0 = (final r, Some e))
  ∧ (stop_event = None → status r ≠ Interrupted ∧ polled r = 0%nat).
Proof.
  unfold crawl_pages_range_with_callback.
  destruct (decide (start_page > end_page)).
  - simpl. split; [lia|]. split; [by intros ?? ?%elem_of_nil|]. split; done.
  - apply process_accounting.
Qed.

(* ===================================================================== *)
(** ** add_thread *)
(* ===================================================================== *)

(** The loop of [save_posts_batch] writes to the posts table only, and
    loses no pid. *)
Lemma save_posts_loop_keeps now posts' saved_count db count db' :
  save_posts_loop now posts' saved_count db = (count, Ok db') →
  monitored_threads db' = monitored_threads db
  ∧ threads db' = threads db
  ∧ monitoring_events db' = monitoring_events db
  ∧ ∀ k, is_Some (posts db !! k) → is_Some (posts db' !! k).
Proof.
  revert saved_count db. induction posts' as [|post rest IH]; intros saved_count db; simpl.
  { by intros [= _ <-]. }
  destruct (post_params now post) as [[pid' row]|e]; [|done].
  intros Hloop. destruct (IH _ _ Hloop) as (H1 & H2 & H3 & Hposts).
  split; [done|]. split; [done|]. split; [done|].
  intros k Hk. apply Hposts. unfold replace_post. cbn [posts set_posts].
  destruct (decide (k = pid')) as [->|Hne].
  - by rewrite lookup_insert_eq.
  - by rewrite lookup_insert_ne.
Qed.

Lemma saving_posts_keeps_refl w :
  committed (conn w) = working (conn w) → saving_posts_keeps w w.
Proof. intros Hclean. by repeat split. Qed.

Lemma db_save_posts_batch_keeps posts' w0 w :
  saving_posts_keeps w0 w →
  saving_posts_keeps w0 (db_save_posts_batch posts' w).2.
Proof.
  intros (Hclean & H1 & H2 & H3 & H4 & H5 & H6 & H7 & Hposts).
  unfold db_save_posts_batch, save_posts_batch.
  destruct (save_posts_loop (clock w) posts' 0 (working (conn w)))
    as [count [db'|e]] eqn:Hloop.
  - apply save_posts_loop_keeps in Hloop as (L1 & L2 & L3 & Lposts).
    unfold saving_posts_keeps, db_of in *. cbn.
    rewrite L1, L2, L3. repeat split; try done.
    intros k Hk. by apply Lposts, Hposts.
  - unfold saving_posts_keeps, db_of in *. cbn. rewrite Hclean.
    repeat split; try done.
Qed.

Lemma add_thread_callback_keeps w0 page_num page_result s :
  saving_posts_keeps w0 s.1 →
  saving_posts_keeps w0 (add_thread_callback page_num page_result s).1.1.
Proof.
  destruct s as [w latest_timestamp]. cbn [fst]. intros Hkeeps.
  unfold add_thread_callback.
  destruct page_result as [page|]; [|done].
  destruct (page_truthy page); [|done].
  destruct (parse_page_result page) as [thread_data posts_data].
  destruct posts_data as [|post rest]; [done|].
  pose proof (db_save_posts_batch_keeps (post :: rest) w0 w Hkeeps) as Hsaved.
  destruct (db_save_posts_batch (post :: rest) w) as [saved w1]. cbn [snd] in Hsaved.
  destruct (map_r _ (post :: rest)) as [stamps|e]; [|done].
  by destruct (decide (max_default 0 stamps > latest_timestamp)).
Qed.

(** The crawl of [add_thread]: the pages are handed to the pool, and
    the callbacks only save posts. *)
Lemma crawler_crawl_add_thread net stop_event scheduler tid start_page end_page
    latest_timestamp w :
  committed (conn w) = working (conn w) →
  saving_posts_keeps (log_submit tid (range_incl start_page end_page) w)
    (crawler_crawl net stop_event scheduler tid start_page end_page
       add_thread_callback latest_timestamp w).2.
Proof.
  intros Hclean. unfold crawler_crawl.
  set (pages := range_incl start_page end_page).
  set (w0 := log_submit tid pages w).
  set (local_stop := (λ is_set k, is_set (polls w + k)%nat) <$> stop_event).
  assert (saving_posts_keeps w0 w0) as Hstart by by apply saving_posts_keeps_refl.
  assert (saving_posts_keeps w0
            (final (crawl_pages_range_with_callback net tid add_thread_callback local_stop
                      start_page end_page (scheduler tid pages)
                      (w0, latest_timestamp))).1) as Hfinal.
  { unfold crawl_pages_range_with_callback.
    destruct (decide (start_page > end_page)); [done|].
    apply (process_invariant net tid add_thread_callback local_stop
             (λ s, saving_posts_keeps w0 s.1)
             (λ page_num result s, add_thread_callback_keeps w0 page_num result s)).
    done. }
  destruct (crawl_pages_range_with_callback net tid add_thread_callback local_stop
              start_page end_page (scheduler tid pages) (w0, latest_timestamp))
    as [[wf latest] calls' polled' status']. cbn [final polled status fst snd] in *.
  by destruct status'.
Qed.

Lemma map_r_post_timestamp_parsed posts' :
  Forall parsed posts' →
  map_r (λ p, getitem "post_timestamp" (post_timestamp p)) posts'
  = Ok ((λ p, default 0 (post_timestamp p)) <$> posts').
Proof.
  induction 1 as [|post rest [raw ->] Hrest IH]; [done|].
  simpl. rewrite IH. done.
Qed.

Lemma add_thread_callback_quiet : never_raises add_thread_callback.
Proof.
  intros page_num page_result [w latest_timestamp]. unfold add_thread_callback.
  destruct page_result as [page|]; [|done].
  destruct (page_truthy page); [|done].
  destruct (parse_page_result page) as [thread_data posts_data] eqn:Hparse.
  assert (Forall parsed posts_data) as Hparsed.
  { assert (posts_data = (parse_page_result page).2) as -> by by rewrite Hparse.
    apply parsed_parse_page_result. }
  destruct posts_data as [|post rest]; [done|].
  destruct (db_save_posts_batch (post :: rest) w) as [saved w1].
  rewrite map_r_post_timestamp_parsed by done.
  by destruct (decide _).
Qed.

(** No exception leaves the crawl of [add_thread]. *)
Lemma crawler_crawl_add_thread_returns net stop_event scheduler tid start_page end_page
    latest_timestamp w :
  ∃ latest, (crawler_crawl net stop_event scheduler tid start_page end_page
               add_thread_callback latest_timestamp w).1 = Ok latest.
Proof.
  unfold crawler_crawl, crawl_pages_range_with_callback.
  destruct (decide (start_page > end_page)); [by eexists|].
  match goal with |- context [status ?r] =>
    destruct (process_never_propagates net tid add_thread_callback
                ((λ is_set k, is_set (polls w + k)%nat) <$> stop_event)
                add_thread_callback_quiet
                (scheduler tid (range_incl start_page end_page)) 0%nat
                (log_submit tid (range_incl start_page end_page) w, latest_timestamp))
      as [-> | ->] end; by eexists.
Qed.

Lemma lookup_upsert_subscription tid author_filter_str author_notification_str
    check_interval' latest_timestamp now db t :
  monitored_threads (upsert_subscription tid author_filter_str author_notification_str
                       check_interval' latest_timestamp now db) !! t
  = if decide (t = tid)
    then Some {| author_filter := author_filter_str;
                 author_notification := author_notification_str;
                 check_interval := check_interval'; last_checked := Some now;
                 last_post_timestamp := latest_timestamp; is_active := true;
                 monitor_created_at :=
                   from_option monitor_created_at now (monitored_threads db !! tid) |}
    else monitored_threads db !! t.
Proof.
  unfold upsert_subscription. cbn [monitored_threads set_monitored].
  destruct (monitored_threads db !! tid) as [old|] eqn:Hold; case_decide; subst;
    by rewrite ?lookup_insert_eq, ?lookup_insert_ne.
Qed.

(** Every way [add_thread] can go. *)
Lemma add_thread_cases net stop_event scheduler tid author_filter' check_interval'
    author_notification' w :
  let r := add_thread net stop_event scheduler tid author_filter' check_interval'
             author_notification' w in
  ∃ saved,
    r.1 = Ok saved
    ∧ fetched r.2 = fetched w ++ [(tid, 1)]
    ∧ clock r.2 = clock w
    ∧ outbox r.2 = outbox w
    ∧ (∀ t, t ≠ tid →
         monitored_threads (db_of r.2) !! t = monitored_threads (db_of w) !! t)
    ∧ (∀ k, is_Some (posts (db_of w) !! k) → is_Some (posts (db_of r.2) !! k))
    ∧ (saved = true ↔
       ∃ first_page, net tid 1 = Reply first_page ∧ page_truthy first_page = true)
    ∧ if saved : bool then
        ∃ first_page,
          net tid 1 = Reply first_page
          ∧ committed (conn r.2) = working (conn r.2)
          ∧ (∃ row, monitored_threads (db_of r.2) !! tid = Some row
                    ∧ subscribed_by_add_thread author_filter' author_notification'
                        check_interval' (clock w) row)
          ∧ is_Some (threads (db_of r.2) !! page_tid first_page)
          ∧ (∀ raw, raw ∈ default [] (result_ first_page) →
               is_Some (posts (db_of r.2) !! default 0 (j_pid raw)))
          ∧ submitted r.2
            = submitted w
              ++ ((λ page, (tid, page)) <$> range_incl 2 (default 0 (totalPage first_page)))
      else r.2 = log_fetch tid 1 w.
Proof.
  intros r. subst r.
  unfold add_thread, try_except, add_thread_body, bind, crawler_fetch_page, fetch_page.
  destruct (net tid 1) as [first_page| | |e] eqn:Hnet.
  2-4: (exists false; cbn; split; [done|]; split; [done|]; split; [done|];
        split; [done|]; split; [done|]; split; [done|]; split; [|done];
        split; [done|]; by intros (? & ? & ?)).
  destruct (page_truthy first_page) eqn:Htruthy; cbn [negb].
  2: { exists false. cbn. split; [done|]. split; [done|]. split; [done|].
       split; [done|]. split; [done|]. split; [done|]. split; [|done].
       split; [done|]. intros (? & [= <-] & ?). congruence. }
  destruct (parse_page_result first_page) as [thread_data posts_data] eqn:Hparse.
  assert (thread_data = (parse_page_result first_page).1) as -> by by rewrite Hparse.
  assert (posts_data = (parse_page_result first_page).2) as Hposts_data by by rewrite Hparse.
  assert (Forall parsed posts_data) as Hparsed.
  { rewrite Hposts_data. apply parsed_parse_page_result. }
  unfold db_save_thread. rewrite save_thread_parse.
  unfold lift. cbn [parse_page_result fst th_total_posts th_total_pages th_title
                    th_author_name getitem].
  set (w0 := log_fetch tid 1 w).
  set (w1 := set_conn (λ _, commit (execute (upsert_thread (page_tid first_page)
                                      (page_thread_row (clock w0) first_page)) (conn w0))) w0).
  assert (saving_posts_keeps w1 w1) as Hw1 by by apply saving_posts_keeps_refl.
  (* the posts of the first page *)
  set (save_first := match posts_data with
                     | [] => ret 0
                     | _ :: _ => db_save_posts_batch posts_data
                     end).
  assert (∃ n w2, save_first w1 = (Ok n, w2) ∧ saving_posts_keeps w1 w2
                  ∧ ∀ post, post ∈ posts_data → is_Some (posts (db_of w2) !! post_pid post))
    as (n & w2 & -> & Hw2 & Hfirst).
  { subst save_first. destruct posts_data as [|post0 rest] eqn:Hlist.
    { exists 0, w1. split; [done|]. split; [done|]. by intros post ?%elem_of_nil. }
    rewrite <- Hlist in *. clear Hlist.
    pose proof (db_save_posts_batch_keeps posts_data w1 w1 Hw1) as Hkeeps.
    unfold db_save_posts_batch in *. rewrite save_posts_batch_parsed in * by done.
    eexists _, _. split; [reflexivity|]. split; [exact Hkeeps|].
    intros post Hin. unfold db_of. cbn [conn set_conn commit execute working posts set_posts].
    destruct (store_posts_lookup_saved (clock w1) posts_data (posts (working (conn w1)))
                post Hin) as (post' & _ & _ & ->). done. }
  rewrite map_r_post_timestamp_parsed by done.
  (* the other pages *)
  set (total_pages' := default 0 (totalPage first_page)).
  set (latest0 := max_default 0 ((λ p, default 0 (post_timestamp p)) <$> posts_data)).
  set (crawl := if decide (total_pages' > 1)
                then crawler_crawl net stop_event scheduler tid 2 total_pages'
                       add_thread_callback latest0
                else ret latest0).
  assert (saving_posts_keeps (log_submit tid (range_incl 2 total_pages') w2) (crawl w2).2)
    as Hw3.
  { subst crawl. destruct (decide (total_pages' > 1)) as [Hmany|Hone].
    - apply crawler_crawl_add_thread. by destruct Hw2.
    - assert (range_incl 2 total_pages' = []) as ->.
      { unfold range_incl, seqZ. by rewrite Z2Nat.nonpos by lia. }
      destruct Hw2 as (C & _). cbn [ret snd]. unfold log_submit. cbn [fmap list_fmap].
      repeat split; try done. by rewrite app_nil_r. }
  assert (∃ latest, (crawl w2).1 = Ok latest) as [latest Hcrawl].
  { subst crawl. destruct (decide (total_pages' > 1)); [|by eexists].
    apply crawler_crawl_add_thread_returns. }
  destruct (crawl w2) as [r3 w3]; cbn [fst snd] in Hw3, Hcrawl. subst r3.
  exists true. unfold db_execute, db_commit, modify, ret. cbn [fst snd].
  destruct Hw2 as (_ & M2 & T2 & E2 & C2 & F2 & S2 & O2 & P2).
  destruct Hw3 as (_ & M3 & T3 & E3 & C3 & F3 & S3 & O3 & P3).
  unfold db_of in *. cbn [conn set_conn commit execute working committed clock fetched
                           outbox submitted log_submit] in *.
  split; [done|].
  split. { rewrite F3, F2. done. }
  split. { rewrite C3, C2. done. }
  split. { rewrite O3, O2. done. }
  split. { intros t Hne. rewrite lookup_upsert_subscription, decide_False by done.
           rewrite M3, M2. done. }
  split. { intros k Hk. apply P3, P2. done. }
  split. { split; [|done]. intros _. by exists first_page. }
  exists first_page. split; [done|]. split; [done|].
  split. { eexists. rewrite lookup_upsert_subscription, decide_True by done.
           split; [done|]. rewrite C3, C2. by repeat split. }
  split. { unfold upsert_subscription. cbn [threads set_monitored].
           rewrite T3, T2. unfold w1. cbn [conn set_conn commit execute working].
           rewrite lookup_upsert_thread, decide_True by done.
           done. }
  split. { intros raw Hraw. apply P3.
           assert (default 0 (j_pid raw) = post_pid (parse_post raw)) as -> by done.
           apply Hfirst. rewrite Hposts_data. cbn [parse_page_result snd].
           apply list_elem_of_fmap. by exists raw. }
  rewrite S3, S2. done.
Qed.


(* ===================================================================== *)
(** ** More of load_from_config *)
(* ===================================================================== *)

(** X16.  [load_from_config] has no handler around an entry.  When a
    thread with stored posts is behind and its first page reports a
    page size of 0, the division that places the first page to fetch
    raises [ZeroDivisionError]: the exception leaves [load_from_config]
    after the one request, nothing is written, and the entries that
    follow are not synchronised. *)
Theorem sync_raises_on_page_size_zero net scheduler thread_config later w tid post_count'
    max_post_number first_page :
  cfg_tid thread_config = Some tid →
  tid ≠ 0 →
  default true (cfg_enabled thread_config) = true →
  count_and_max_post_number tid (db_of w) = (post_count', Some max_post_number) →
  0 < post_count' →
  net tid 1 = Reply first_page →
  page_truthy first_page = true →
  max_post_number < default 0 (vrows first_page) - 1 →
  perPage first_page = Some 0 →
  load_from_config net None scheduler (thread_config :: later) w
  = (Raise ZeroDivisionError, log_fetch tid 1 w).
Proof.
  intros Htid Hnz Henabled Hcount Hsome Hnet Htruthy Hbehind Hsize.
  unfold load_from_config, bind. cbn [load_from_config_loop].
  unfold bind, stop_requested.
  unfold load_from_config_entry. rewrite Htid.
  destruct (decide (tid = 0)); [done|]. rewrite Henabled. cbn [negb].
  unfold bind, db_query, get. fold (db_of w). rewrite Hcount.
  change (default (-1) (post_count', Some max_post_number).2) with max_post_number.
  cbn [fst snd].
  destruct (decide (post_count' > 0)); [|lia].
  unfold crawler_fetch_page, fetch_page. rewrite Hnet, Htruthy. cbn [negb].
  destruct (parse_page_result first_page) as [thread_data posts_data] eqn:Hparse.
  assert (thread_data = (parse_page_result first_page).1) as -> by by rewrite Hparse.
  unfold lift. cbn [parse_page_result fst th_total_posts th_total_pages getitem].
  destruct (decide (max_post_number >= default 0 (vrows first_page) - 1)); [lia|].
  rewrite Hsize. reflexivity.
Qed.

(** Thread 7 of the sample store, one post stored, on a forum that
    reports 45 posts and a page size of 0. *)
Lemma sync_raises_on_page_size_zero_witness :
  let net : network := λ _ _,
    Reply {| vrows := Some 45; totalPage := Some 3; perPage := Some 0;
             tsubject := Some "Thread"; tauthor := Some "op"; tauthorid := Some 100;
             result_ := Some [sample_raw_post 1000 100 0]; other_keys := true |} in
  load_from_config net None in_page_order [config_thread_7; config_thread_8]
    world_before_sync
  = (Raise ZeroDivisionError, log_fetch 7 1 world_before_sync).
Proof.
  intros net.
  apply (sync_raises_on_page_size_zero net in_page_order config_thread_7 [config_thread_8]
           world_before_sync 7 1 0 _
           ltac:(reflexivity) ltac:(lia) ltac:(reflexivity) ltac:(vm_compute; reflexivity)
           ltac:(lia) ltac:(reflexivity) ltac:(reflexivity) ltac:(simpl; lia)
           ltac:(reflexivity)).
Defined.

(** An entry that does not raise adds one to exactly one of the
    counters. *)
Lemma load_from_config_entry_counts net stop_event scheduler thread_config acc w acc' w' :
  load_from_config_entry net stop_event scheduler thread_config acc w = (Ok acc', w') →
  entries_counted acc' = entries_counted acc + 1
  ∧ added acc ≤ added acc' ∧ updated acc ≤ updated acc' ∧ skipped acc ≤ skipped acc'.
Proof.
  assert (∀ error, entries_counted (count_error error acc) = entries_counted acc + 1) as Herror.
  { intros error. unfold entries_counted, count_error. cbn. rewrite length_app. cbn. lia. }
  assert (entries_counted (count_added acc) = entries_counted acc + 1) as Hadded
    by (unfold entries_counted, count_added; cbn; lia).
  assert (entries_counted (count_updated acc) = entries_counted acc + 1) as Hupdated
    by (unfold entries_counted, count_updated; cbn; lia).
  assert (entries_counted (count_skipped acc) = entries_counted acc + 1) as Hskipped
    by (unfold entries_counted, count_skipped; cbn; lia).
  assert (∀ existing tid a b c d w1 acc1 w2,
            write_subscription existing tid a b c d acc w1 = (Ok acc1, w2) →
            acc1 = count_updated acc ∨ acc1 = count_added acc) as Hwrite.
  { intros existing tid a b c d w1 acc1 w2. unfold write_subscription, bind, ret, db_execute, modify.
    destruct existing; intros [= <- _]; [by left|by right]. }
  unfold load_from_config_entry.
  destruct (cfg_tid thread_config) as [tid|].
  2: { intros [= <- _]. rewrite Herror. cbn. lia. }
  destruct (decide (tid = 0)).
  { intros [= <- _]. rewrite Herror. cbn. lia. }
  destruct (negb (default true (cfg_enabled thread_config))).
  { intros [= <- _]. rewrite Hskipped. cbn. lia. }
  unfold bind at 1 2, db_query, get.
  destruct (decide ((count_and_max_post_number tid (working (conn w))).1 > 0)).
  - unfold bind at 1, crawler_fetch_page.
    destruct (fetch_page net tid 1) as [[first_page|]|e]; [| |done].
    2: { intros [= <- _]. rewrite Herror. cbn. lia. }
    destruct (negb (page_truthy first_page)).
    { intros [= <- _]. rewrite Herror. cbn. lia. }
    destruct (parse_page_result first_page) as [thread_data posts_data].
    unfold bind at 1, lift.
    destruct (getitem "total_posts" (th_total_posts thread_data)) as [current_total_posts|e];
      [|done].
    unfold bind at 1.
    destruct (getitem "total_pages" (th_total_pages thread_data)) as [current_total_pages|e];
      [|done].
    destruct (decide (_ >= current_total_posts - 1)).
    + unfold bind at 1 2, db_query, get, db_commit, modify, ret.
      match goal with |- context [write_subscription ?ex ?t ?a ?b ?c ?d acc ?w1] =>
        pose proof (Hwrite ex t a b c d w1) as Hw;
        destruct (write_subscription ex t a b c d acc w1) as [[acc1|e] w2] end; [|done].
      unfold bind. intros [= <- _].
      destruct (Hw acc1 w2 eq_refl) as [-> | ->]; rewrite ?Hupdated, ?Hadded; cbn; lia.
    + unfold bind at 1.
      destruct (floordiv _ _) as [q|e]; [|done].
      unfold bind at 1.
      destruct (db_save_thread thread_data _) as [[saved|e] w1]; [|done].
      unfold bind at 1.
      destruct (crawler_crawl _ _ _ _ _ _ _ _ w1) as [[[]|e] w2]; [|done].
      unfold bind at 1 2, db_query, get, db_commit, modify, ret.
      match goal with |- context [write_subscription ?ex ?t ?a ?b ?c ?d acc ?w1] =>
        pose proof (Hwrite ex t a b c d w1) as Hw;
        destruct (write_subscription ex t a b c d acc w1) as [[acc1|e] w3] end; [|done].
      unfold bind. intros [= <- _].
      destruct (Hw acc1 w3 eq_refl) as [-> | ->]; rewrite ?Hupdated, ?Hadded; cbn; lia.
  - unfold bind.
    destruct (add_thread _ _ _ _ _ _ _ w) as [[[|]|e] w1]; [| |done].
    + intros [= <- _]. rewrite Hadded. cbn. lia.
    + intros [= <- _]. rewrite Herror. cbn. lia.
Qed.

Lemma load_from_config_loop_counts net stop_event scheduler entries acc w acc' w' :
  load_from_config_loop net stop_event scheduler entries acc w = (Ok acc', w') →
  entries_counted acc ≤ entries_counted acc' ≤ entries_counted acc + Z.of_nat (length entries)
  ∧ added acc ≤ added acc' ∧ updated acc ≤ updated acc' ∧ skipped acc ≤ skipped acc'
  ∧ (never_set stop_event →
     entries_counted acc' = entries_counted acc + Z.of_nat (length entries)).
Proof.
  revert acc w. induction entries as [|thread_config rest IH]; intros acc w.
  { intros [= <- _]. cbn [length]. repeat split; lia. }
  cbn [load_from_config_loop]. unfold bind at 1.
  assert (∃ stop w0, stop_requested stop_event w = (Ok stop, w0)
                     ∧ (never_set stop_event → stop = false)) as (stop & w0 & -> & Hstop).
  { unfold stop_requested. destruct stop_event as [is_set|].
    - eexists _, _. split; [done|]. intros Hnever. by apply (Hnever is_set).
    - by eexists _, _. }
  destruct stop.
  { intros [= <- _]. rewrite length_cons. split; [lia|]. split; [lia|].
    split; [lia|]. split; [lia|]. intros Hnever. by specialize (Hstop Hnever). }
  unfold bind.
  destruct (load_from_config_entry net stop_event scheduler thread_config acc w0)
    as [[acc1|e] w1] eqn:Hentry; [|done].
  apply load_from_config_entry_counts in Hentry as (Hone & Ha & Hu & Hs).
  intros Hloop. apply IH in Hloop as (Hrest & Ha' & Hu' & Hs' & Hall).
  rewrite length_cons. split; [lia|]. split; [lia|]. split; [lia|]. split; [lia|].
  intros Hnever. rewrite (Hall Hnever). lia.
Qed.

(** X17.  When [load_from_config] returns, its summary accounts for
    the entries it went through, each in exactly one of added, updated,
    skipped and errors: the four never add up to more than the number
    of entries, and add up to exactly that number when the stop event
    was never seen set.  It answers with the error of an empty
    configuration exactly when the list of entries is empty. *)
Theorem sync_counts_every_entry net stop_event scheduler entries w result :
  (load_from_config net stop_event scheduler entries w).1 = Ok result →
  match result with
  | SyncError _ => entries = []
  | SyncDone acc =>
      entries ≠ []
      ∧ 0 ≤ added acc ∧ 0 ≤ updated acc ∧ 0 ≤ skipped acc
      ∧ entries_counted acc ≤ Z.of_nat (length entries)
      ∧ (never_set stop_event → entries_counted acc = Z.of_nat (length entries))
  end.
Proof.
  unfold load_from_config. destruct entries as [|thread_config rest].
  { by intros [= <-]. }
  unfold bind.
  destruct (load_from_config_loop net stop_event scheduler (thread_config :: rest)
              no_counters w) as [[acc|e] w'] eqn:Hloop; [|done].
  intros [= <-]. apply load_from_config_loop_counts in Hloop as (Hc & Ha & Hu & Hs & Hall).
  change (entries_counted no_counters) with 0 in *. cbn [added updated skipped no_counters] in *.
  split; [done|]. split; [lia|]. split; [lia|]. split; [lia|]. split; [lia|].
  intros Hnever. rewrite (Hall Hnever). lia.
Qed.

(** The configuration of the sample: an entry for thread 8, one that
    is disabled, and one without a tid. *)
Lemma sync_counts_every_entry_witness :
  let entries :=
    [config_thread_8;
     {| cfg_tid := Some 7; cfg_enabled := Some false; cfg_author_filter := None;
        cfg_author_notification := None; cfg_check_interval := None |};
     {| cfg_tid := None; cfg_enabled := None; cfg_author_filter := None;
        cfg_author_notification := None; cfg_check_interval := None |}] in
  ∃ acc,
    (load_from_config forum_one_post None in_page_order entries world_before_sync).1
    = Ok (SyncDone acc)
    ∧ entries_counted acc = 3.
Proof.
  intros entries.
  pose proof (sync_counts_every_entry forum_one_post None in_page_order entries
                world_before_sync) as Hcounts.
  destruct (load_from_config forum_one_post None in_page_order entries world_before_sync).1
    as [[error|acc]|e] eqn:Hresult.
  - discriminate (Hcounts _ eq_refl).
  - exists acc. split; [reflexivity|].
    destruct (Hcounts _ eq_refl) as (_ & _ & _ & _ & _ & Hall).
    apply Hall. intros is_set Hsome. discriminate Hsome.
  - vm_compute in Hresult. discriminate Hresult.
Defined.

(* ===================================================================== *)
(** ** The notification senders *)
(* ===================================================================== *)

Section NotificationManager.

Import Notification.

Variable server : gateway.

(** X18.  The manager built from a configuration holds at most two
    senders: Bark when it is enabled and both its server URL and its
    device key are set and not empty, and the console unless it is
    disabled.  [NotificationManager.send] never raises and returns the
    number of senders that delivered: one for Bark when the server
    answers with a body whose code is 200, and none when the request or
    its decoding raises; one for the console. *)
Theorem manager_send_counts config title message kwargs :
  let senders := manager_init config in
  let bark_active :=
    default false (bark_enabled config)
    && nonempty (default "" (bark_server_url config))
    && nonempty (default "" (bark_device_key config)) in
  let console_active := default true (console_notification_enabled config) in
  manager_send server senders title message kwargs
  = (if bark_active then
       match server (bark_request (bark_init config) title message kwargs) with
       | JsonBody code => if decide (code = Some 200) then 1 else 0
       | _ => 0
       end
     else 0)
    + (if console_active then 1 else 0)
  ∧ has_senders senders = bark_active || console_active
  ∧ length senders = ((if bark_active then 1 else 0) + (if console_active then 1 else 0))%nat
  ∧ Forall (λ sender, is_configured sender = true) senders.
Proof.
  intros senders bark_active console_active. subst senders bark_active console_active.
  unfold manager_init, manager_send, has_senders.
  cbn [is_configured bark_sender console_sender].
  unfold bark_is_configured, console_is_configured.
  cbn [bark_init console_init server_url device_key enabled].
  destruct (default false (bark_enabled config));
    destruct (nonempty (default "" (bark_server_url config))) eqn:Hurl;
    destruct (nonempty (default "" (bark_device_key config))) eqn:Hkey;
    destruct (default true (console_notification_enabled config)) eqn:Hconsole;
    cbn [andb orb app foldl length Nat.add];
    cbn [send any_sender bark_sender console_sender];
    unfold bark_send, console_send, bark_is_configured;
    cbn [bark_init server_url device_key enabled negb];
    rewrite ?Hurl, ?Hkey; cbn [andb negb];
    (split; [|split; [done|split; [done|]]]);
    try (repeat constructor; cbn; unfold bark_is_configured, console_is_configured; cbn;
         by rewrite ?Hurl, ?Hkey).
  all: cbn [console_init enabled]; rewrite ?Hconsole; cbn [negb]; try done.
  all: destruct (server _) as [code| |e]; try done; by case_decide; case_bool_decide.
Qed.

End NotificationManager.

(** *** The URL of a Bark request *)

Lemma string_app_cons a (s1 s2 : string) : String a s1 +:+ s2 = String a (s1 +:+ s2).
Proof. done. Qed.

Lemma string_app_assoc (s1 s2 s3 : string) : (s1 +:+ s2) +:+ s3 = s1 +:+ (s2 +:+ s3).
Proof. induction s1 as [|a s1 IH]; [done|]. by rewrite !string_app_cons, IH. Qed.

Lemma string_app_nil_r (s : string) : s +:+ "" = s.
Proof. induction s as [|a s IH]; [done|]. by rewrite string_app_cons, IH. Qed.

Lemma string_rev_app_spec (s1 s2 : string) :
  String.rev_app s1 s2 = String.rev s1 +:+ s2.
Proof.
  unfold String.rev. revert s2. induction s1 as [|a s1 IH]; intros s2; [done|].
  cbn [String.rev_app].
  rewrite (IH (String a s2)), (IH (String a "")), string_app_assoc. done.
Qed.

Lemma string_rev_cons a (s : string) : String.rev (String a s) = String.rev s +:+ String a "".
Proof. unfold String.rev at 1. cbn [String.rev_app]. apply string_rev_app_spec. Qed.

Lemma string_rev_app (s1 s2 : string) :
  String.rev (s1 +:+ s2) = String.rev s2 +:+ String.rev s1.
Proof.
  induction s1 as [|a s1 IH].
  { by rewrite string_app_nil_r. }
  by rewrite string_app_cons, !string_rev_cons, IH, string_app_assoc.
Qed.

Lemma string_rev_involutive (s : string) : String.rev (String.rev s) = s.
Proof.
  induction s as [|a s IH]; [done|].
  by rewrite string_rev_cons, string_rev_app, IH.
Qed.

Lemma slashes_snoc n : Notification.slashes n +:+ "/" = String "/" (Notification.slashes n).
Proof.
  induction n as [|n IH]; [done|].
  cbn [Notification.slashes]. by rewrite string_app_cons, IH.
Qed.

Lemma string_rev_slashes n : String.rev (Notification.slashes n) = Notification.slashes n.
Proof.
  induction n as [|n IH]; [done|].
  cbn [Notification.slashes]. by rewrite string_rev_cons, IH, slashes_snoc.
Qed.

Lemma lstrip_slash_spec (s : string) :
  (∃ n, s = Notification.slashes n +:+ Notification.lstrip_slash s)
  ∧ ∀ t, Notification.lstrip_slash s ≠ String "/" t.
Proof.
  induction s as [|a s [[n IHn] IH]]; cbn [Notification.lstrip_slash].
  { split; [by exists 0%nat|done]. }
  destruct (decide (a = "/"%char)) as [->|Hne].
  - split; [|done]. exists (S n). cbn [Notification.slashes].
    by rewrite string_app_cons, <- IHn.
  - split; [by exists 0%nat|]. intros t [= Ha _]. done.
Qed.

Section BarkRequest.

Import Notification.

(** X19.  The URL of a Bark request is the configured server URL
    without its trailing slashes, one slash, and the device key: however
    many slashes end the configured URL, none is doubled before the
    key, and a URL made of slashes only leaves the key behind a single
    slash. *)
Theorem bark_request_url self title message kwargs :
  ∃ base n,
    server_url self = base +:+ slashes n
    ∧ (∀ t, base ≠ t +:+ "/")
    ∧ (bark_request self title message kwargs).1 = base +:+ "/" +:+ device_key self.
Proof.
  unfold bark_request. cbn [fst]. unfold rstrip_slash.
  destruct (lstrip_slash_spec (String.rev (server_url self))) as [[n Hn] Hstart].
  exists (String.rev (lstrip_slash (String.rev (server_url self)))), n.
  split; [|split; [|done]].
  - rewrite <- (string_rev_involutive (server_url self)) at 1.
    rewrite Hn at 1. by rewrite string_rev_app, string_rev_slashes.
  - intros t Heq. apply (f_equal String.rev) in Heq.
    rewrite string_rev_involutive, string_rev_app in Heq.
    change (String.rev "/") with "/" in Heq. rewrite string_app_cons in Heq.
    by apply Hstart in Heq.
Qed.

End BarkRequest.

(* ===================================================================== *)
(** ** The queries with a LIMIT *)
(* ===================================================================== *)

Lemma sql_limit_spec {A} (limit : option Z) (rows : list A) :
  sql_limit limit rows `prefix_of` rows
  ∧ length (sql_limit limit rows)
    = match limit with
      | Some n => if decide (0 < n) then (Z.to_nat n `min` length rows)%nat else length rows
      | None => length rows
      end.
Proof.
  unfold sql_limit. destruct limit as [n|]; [|done].
  destruct (decide (n = 0)) as [->|Hnz]; [done|].
  destruct (decide (n < 0)); destruct (decide (0 < n)); try lia; [done|].
  split; [apply prefix_take|]. by rewrite length_take.
Qed.

Lemma selected_posts_sorted (R : relation post_record) `{∀ a b, Decision (R a b)}
    (P : post_record → Prop) `{∀ r, Decision (P r)} (table : gmap Z PostRow) :
  Transitive R → Total R →
  let rows := merge_sort R (filter P (map_to_list table)) in
  (∀ k row, (k, row) ∈ rows ↔ table !! k = Some row ∧ P (k, row))
  ∧ StronglySorted R rows
  ∧ NoDup rows.*1.
Proof.
  intros Htrans Htotal rows. subst rows. split; [|split].
  - intros k row. rewrite merge_sort_Permutation, list_elem_of_filter, elem_of_map_to_list.
    tauto.
  - by apply StronglySorted_merge_sort.
  - rewrite merge_sort_Permutation.
    apply (sublist_NoDup _ (map_to_list table).*1).
    + apply NoDup_fst_map_to_list.
    + apply fmap_sublist, sublist_filter.
Qed.

(** X20.  [get_posts_by_thread] and [get_posts_by_author] without a
    limit return exactly the stored posts of the thread, or of the
    author, each once: the first by ascending, the second by descending
    post timestamp.  With a limit above 0 they return the first that
    many rows of the same list, or all when there are fewer; a limit of
    0 does not limit: it returns every row, not none. *)
Theorem posts_queries_with_limit tid author limit c :
  let of_thread := get_posts_by_thread tid None c in
  let of_author := get_posts_by_author author None c in
  (∀ k row, (k, row) ∈ of_thread ↔ posts (working c) !! k = Some row ∧ row_tid row = tid)
  ∧ (∀ k row, (k, row) ∈ of_author ↔
       posts (working c) !! k = Some row ∧ row_author_uid row = author)
  ∧ StronglySorted by_post_timestamp of_thread
  ∧ StronglySorted by_post_timestamp_desc of_author
  ∧ NoDup of_thread.*1 ∧ NoDup of_author.*1
  ∧ get_posts_by_thread tid limit c `prefix_of` of_thread
  ∧ get_posts_by_author author limit c `prefix_of` of_author
  ∧ length (get_posts_by_thread tid limit c)
    = match limit with
      | Some n => if decide (0 < n) then (Z.to_nat n `min` length of_thread)%nat
                  else length of_thread
      | None => length of_thread
      end
  ∧ length (get_posts_by_author author limit c)
    = match limit with
      | Some n => if decide (0 < n) then (Z.to_nat n `min` length of_author)%nat
                  else length of_author
      | None => length of_author
      end
  ∧ get_posts_by_thread tid (Some 0) c = of_thread
  ∧ get_posts_by_author author (Some 0) c = of_author.
Proof.
  intros of_thread of_author. subst of_thread of_author.
  unfold get_posts_by_thread, get_posts_by_author.
  destruct (selected_posts_sorted by_post_timestamp
              (λ r : post_record, row_tid r.2 = tid) (posts (working c)))
    as (Hin1 & Hsorted1 & Hnodup1).
  { intros x y z. unfold by_post_timestamp. lia. }
  { intros x y. unfold by_post_timestamp. lia. }
  destruct (selected_posts_sorted by_post_timestamp_desc
              (λ r : post_record, row_author_uid r.2 = author) (posts (working c)))
    as (Hin2 & Hsorted2 & Hnodup2).
  { intros x y z. unfold by_post_timestamp_desc. lia. }
  { intros x y. unfold by_post_timestamp_desc. lia. }
  cbn [sql_limit].
  split; [done|]. split; [done|]. split; [done|]. split; [done|].
  split; [done|]. split; [done|].
  split; [apply sql_limit_spec|]. split; [apply sql_limit_spec|].
  split; [apply sql_limit_spec|]. split; [apply sql_limit_spec|].
  done.
Qed.

(* ===================================================================== *)
(** ** The event history *)
(* ===================================================================== *)

(** X21.  [get_events] changes nothing and returns events newest
    first, at most [limit] of them when the limit is not negative, so
    none for a limit of 0.  For a thread id other than 0 they are events
    of that thread, without a title; for no thread id, or 0, they are
    events of any thread that is stored, each with the title of its
    thread, and the events of a thread that is not stored are left out.
    With a negative limit every such event is returned. *)
Theorem get_events_spec tid limit w :
  ∃ rows,
    get_events tid limit w = (Ok rows, w)
    ∧ StronglySorted newest_first rows
    ∧ (0 ≤ limit → (length rows ≤ Z.to_nat limit)%nat)
    ∧ (∀ e t, (e, t) ∈ rows →
         e ∈ monitoring_events (db_of w)
         ∧ match tid with
           | Some n =>
               if decide (n = 0) then t = title <$> threads (db_of w) !! event_tid e ∧ is_Some t
               else event_tid e = n ∧ t = None
           | None => t = title <$> threads (db_of w) !! event_tid e ∧ is_Some t
           end)
    ∧ (limit < 0 →
       rows ≡ₚ match tid with
               | Some n =>
                   if decide (n = 0) then events_with_title (db_of w)
                   else (λ e, (e, None)) <$> filter (λ e, event_tid e = n)
                                               (monitoring_events (db_of w))
               | None => events_with_title (db_of w)
               end).
Proof.
  eexists. split; [reflexivity|]. fold (db_of w).
  set (selected := match tid with
                   | Some t => if decide (t = 0) then events_with_title (db_of w) else _
                   | None => _
                   end).
  assert (Transitive newest_first) as Htrans.
  { intros x y z. unfold newest_first. lia. }
  assert (Total newest_first) as Htotal.
  { intros x y. unfold newest_first. lia. }
  assert (sql_limit_param limit (merge_sort newest_first selected)
          `prefix_of` merge_sort newest_first selected) as Hprefix.
  { unfold sql_limit_param. case_decide; [done|]. apply prefix_take. }
  assert (∀ e t, (e, t) ∈ events_with_title (db_of w) →
                 e ∈ monitoring_events (db_of w)
                 ∧ t = title <$> threads (db_of w) !! event_tid e ∧ is_Some t) as Hjoined.
  { intros e t. unfold events_with_title. rewrite list_elem_of_omap.
    intros (e' & Hin & Hrow).
    destruct (threads (db_of w) !! event_tid e') as [row|] eqn:Hthread; [|done].
    injection Hrow as <- <-. rewrite Hthread. done. }
  split; [|split; [|split]].
  - destruct Hprefix as [rest Hrest].
    pose proof (StronglySorted_merge_sort newest_first selected) as Hsorted.
    rewrite Hrest in Hsorted. clear Hrest.
    induction (sql_limit_param limit (merge_sort newest_first selected)) as [|x l IH];
      [constructor|].
    simpl in Hsorted. apply StronglySorted_inv in Hsorted as [Hl Hx].
    constructor; [by apply IH|]. by apply Forall_app in Hx as [Hx _].
  - intros Hlimit. unfold sql_limit_param. case_decide; [lia|].
    rewrite length_take. lia.
  - intros e t Hin.
    assert ((e, t) ∈ selected) as Hsel.
    { rewrite <- (merge_sort_Permutation newest_first selected).
      destruct Hprefix as [rest ->]. apply elem_of_app. by left. }
    subst selected. destruct tid as [n|]; [destruct (decide (n = 0))|].
    + by apply Hjoined.
    + apply list_elem_of_fmap in Hsel as (e' & [= <- <-] & [Htid He']%list_elem_of_filter).
      done.
    + by apply Hjoined.
  - intros Hneg. unfold sql_limit_param. rewrite decide_True by done.
    apply merge_sort_Permutation.
Qed.

(* ===================================================================== *)
(** ** The author lists, written and read back *)
(* ===================================================================== *)

(** *** [int(str(n))] *)

Lemma digit_val_pretty_N_char (r : N) :
  (r < 10)%N →
  digit_val (pretty_N_char r) = Some (Z.of_N r) ∧ pretty_N_char r ≠ "_"%char.
Proof.
  intros Hr.
  assert (r = 0 ∨ r = 1 ∨ r = 2 ∨ r = 3 ∨ r = 4 ∨ r = 5 ∨ r = 6 ∨ r = 7 ∨ r = 8 ∨ r = 9)%N
    as Hcases by lia.
  repeat (destruct Hcases as [->|Hcases]; [by split|]). subst r. by split.
Qed.

Lemma string_forall_app P (s t : string) :
  string_forall P (s +:+ t) = string_forall P s && string_forall P t.
Proof.
  induction s as [|a s IH]; [done|].
  rewrite string_app_cons. cbn [string_forall]. by rewrite IH, andb_assoc.
Qed.

(** The digits [pretty_N_go] puts in front of [s], and what [digits]
    makes of them. *)
Lemma pretty_N_go_digits (x : N) :
  (0 < x)%N →
  ∃ d m, d ≠ "" ∧ string_forall is_digit d = true
         ∧ ∀ s, pretty_N_go x s = d +:+ s
                ∧ ∀ acc after_digit,
                    digits acc after_digit (d +:+ s) = digits (acc * m + Z.of_N x) true s.
Proof.
  induction (N.lt_wf_0 x) as [x _ IH]. intros Hpos.
  assert (x `mod` 10 < 10)%N as Hmod by (apply N.mod_lt; lia).
  destruct (digit_val_pretty_N_char (x `mod` 10) Hmod) as [Hval Hnot].
  assert (Z.of_N x = 10 * Z.of_N (x `div` 10) + Z.of_N (x `mod` 10)) as Hx.
  { rewrite (N.div_mod x 10) at 1 by lia. lia. }
  destruct (decide (x `div` 10 = 0)%N) as [Hsmall|Hbig].
  - exists (String (pretty_N_char (x `mod` 10)) ""), 10.
    split; [done|]. split.
    { cbn. unfold is_digit. by rewrite Hval. }
    intros s. split.
    + by rewrite pretty_N_go_step, Hsmall, pretty_N_go_0.
    + intros acc after_digit.
      change (String (pretty_N_char (x `mod` 10)) "" +:+ s)
        with (String (pretty_N_char (x `mod` 10)) s).
      cbn [digits]. rewrite decide_False by done. rewrite Hval. f_equal. rewrite Hx, Hsmall. lia.
  - destruct (IH (x `div` 10)%N) as (d & m & Hd & Hdigits & Hgo).
    { apply N.div_lt; lia. }
    { lia. }
    exists (d +:+ String (pretty_N_char (x `mod` 10)) ""), (10 * m).
    split. { destruct d; [done|]. done. }
    split.
    { rewrite string_forall_app, Hdigits. cbn [string_forall andb].
      unfold is_digit. by rewrite Hval. }
    intros s.
    assert ((d +:+ String (pretty_N_char (x `mod` 10)) "") +:+ s
            = d +:+ String (pretty_N_char (x `mod` 10)) s) as Happ.
    { by rewrite string_app_assoc. }
    rewrite Happ. split.
    + rewrite pretty_N_go_step by done. apply Hgo.
    + intros acc after_digit.
      destruct (Hgo (String (pretty_N_char (x `mod` 10)) s)) as [_ ->].
      cbn [digits]. rewrite decide_False by done. rewrite Hval. f_equal. lia.
Qed.

Lemma string_forall_impl (P Q : ascii → bool) (s : string) :
  (∀ a, P a = true → Q a = true) →
  string_forall P s = true → string_forall Q s = true.
Proof.
  intros Himpl. induction s as [|a s IH]; [done|]. cbn [string_forall].
  intros [Ha Hs]%andb_prop. by rewrite (Himpl a Ha), IH.
Qed.

Lemma string_forall_rev P (s : string) :
  string_forall P (String.rev s) = string_forall P s.
Proof.
  induction s as [|a s IH]; [done|].
  rewrite string_rev_cons, string_forall_app, IH. cbn [string_forall].
  by rewrite andb_true_r, andb_comm.
Qed.

Lemma lstrip_no_space (s : string) :
  string_forall (λ a, negb (is_space a)) s = true → lstrip s = s.
Proof.
  destruct s as [|a s]; [done|]. cbn [string_forall lstrip].
  intros [Ha _]%andb_prop. by destruct (is_space a).
Qed.

Lemma strip_no_space (s : string) :
  string_forall (λ a, negb (is_space a)) s = true → strip s = s.
Proof.
  intros Hs. unfold strip. rewrite (lstrip_no_space s Hs).
  rewrite lstrip_no_space by by rewrite string_forall_rev.
  apply string_rev_involutive.
Qed.

Lemma number_char_no_space a : is_number_char a = true → negb (is_space a) = true.
Proof.
  unfold is_number_char, is_digit, digit_val, is_space.
  intros [Hdigit | Hdash]%orb_prop.
  - case_bool_decide as Hrange; [|done].
    apply negb_true_iff, orb_false_iff. split; apply bool_decide_eq_false; lia.
  - apply bool_decide_eq_true in Hdash as ->. done.
Qed.

Lemma number_char_no_comma a : is_number_char a = true → a ≠ ","%char.
Proof. intros Ha ->. done. Qed.

(** [str(n)] is an optional minus sign and the digits of [|n|]. *)
Lemma str_int_shape (n : Z) :
  ∃ d, d ≠ "" ∧ string_forall is_digit d = true
       ∧ str_int n = (if decide (n < 0) then String "-" d else d)
       ∧ digits 0 false d = Some (Z.abs n).
Proof.
  assert (∀ p, ∃ d, d ≠ "" ∧ string_forall is_digit d = true
                    ∧ pretty (N.pos p) = d ∧ digits 0 false d = Some (Z.pos p)) as Hpos.
  { intros p. destruct (pretty_N_go_digits (N.pos p) ltac:(lia)) as (d & m & Hd & Hdigits & Hgo).
    exists d. split; [done|]. split; [done|].
    destruct (Hgo "") as [Hpretty Hparse]. rewrite string_app_nil_r in *.
    split.
    - unfold pretty, pretty_N. by rewrite decide_False.
    - rewrite (Hparse 0 false). cbn [digits]. f_equal; lia. }
  destruct n as [|p|p].
  - exists "0". by repeat split.
  - destruct (Hpos p) as (d & Hd & Hdigits & Hpretty & Hparse).
    exists d. split; [done|]. split; [done|]. split; [|done].
    rewrite decide_False by lia. done.
  - destruct (Hpos p) as (d & Hd & Hdigits & Hpretty & Hparse).
    exists d. split; [done|]. split; [done|]. split; [|done].
    rewrite decide_True by lia. unfold str_int, pretty, pretty_Z.
    fold (pretty (N.pos p)). change (pretty p) with (pretty (N.pos p)).
    by rewrite Hpretty.
Qed.

Lemma str_int_number_chars (n : Z) : string_forall is_number_char (str_int n) = true.
Proof.
  destruct (str_int_shape n) as (d & _ & Hdigits & -> & _).
  assert (string_forall is_number_char d = true) as Hd.
  { eapply string_forall_impl; [|exact Hdigits].
    intros a Ha. unfold is_number_char. by rewrite Ha. }
  case_decide; [|done]. cbn [string_forall]. by rewrite Hd.
Qed.

Lemma int_unsigned a r :
  is_digit a = true →
  strip (String a r) = String a r →
  Py.int (String a r)
  = match digits 0 false (String a r) with
    | Some n => Ok n
    | None => Raise (ValueError (String a r))
    end.
Proof.
  intros Ha Hstrip. unfold Py.int. rewrite Hstrip.
  destruct a as [[] [] [] [] [] [] [] []];
    first [reflexivity | (vm_compute in Ha; discriminate Ha)].
Qed.

(** [int(str(n)) == n] *)
Lemma int_str_int (n : Z) : Py.int (str_int n) = Ok n.
Proof.
  assert (strip (str_int n) = str_int n) as Hstrip.
  { apply strip_no_space.
    eapply string_forall_impl; [apply number_char_no_space|apply str_int_number_chars]. }
  destruct (str_int_shape n) as (d & Hd & Hdigits & Hshape & Hparse).
  rewrite Hshape in *. case_decide as Hneg.
  - unfold Py.int. rewrite Hstrip, Hparse. cbn [fmap option_fmap option_map]. f_equal; lia.
  - destruct d as [|a d]; [done|]. cbn [string_forall] in Hdigits.
    apply andb_prop in Hdigits as [Ha _].
    rewrite (int_unsigned a d Ha Hstrip), Hparse. f_equal; lia.
Qed.

(** *** [','.join(...)] and [split(',')] *)

Lemma split_go_piece c cur (t rest : string) :
  string_forall (λ a, bool_decide (a ≠ c)) t = true →
  split_go c cur (t +:+ rest) = split_go c (String.rev_app t cur) rest.
Proof.
  revert cur. induction t as [|a t IH]; intros cur; [done|].
  cbn [string_forall]. intros [Ha Ht]%andb_prop. apply bool_decide_eq_true in Ha.
  rewrite string_app_cons. cbn [split_go String.rev_app].
  rewrite decide_False by done. by apply IH.
Qed.

Lemma split_join c (parts : list string) :
  parts ≠ [] →
  Forall (λ t, string_forall (λ a, bool_decide (a ≠ c)) t = true) parts →
  split c (join (String c "") parts) = parts.
Proof.
  intros Hne Hall. unfold split.
  induction Hall as [|t rest Ht Hrest IH]; [done|]. clear Hne.
  destruct rest as [|t' rest].
  - cbn [join]. rewrite <- (string_app_nil_r t) at 1.
    rewrite split_go_piece by done. cbn [split_go].
    by rewrite string_rev_app_spec, string_app_nil_r, string_rev_involutive.
  - change (join (String c "") (t :: t' :: rest))
      with (t +:+ String c "" +:+ join (String c "") (t' :: rest)).
    rewrite split_go_piece by done.
    change (String c "" +:+ join (String c "") (t' :: rest))
      with (String c (join (String c "") (t' :: rest))).
    cbn [split_go]. rewrite decide_True by done.
    rewrite IH by done.
    by rewrite string_rev_app_spec, string_app_nil_r, string_rev_involutive.
Qed.

Lemma map_r_int_str_int (ns : list Z) : map_r Py.int (str_int <$> ns) = Ok ns.
Proof.
  induction ns as [|n ns IH]; [done|].
  cbn [fmap list_fmap map_r]. fold (str_int <$> ns). by rewrite int_str_int, IH.
Qed.

Lemma author_list_written_and_read (uids : list Z) :
  parse_author_uids (join_or_none (Some (JInt <$> uids))) = Ok (list_to_set uids)
  ∧ match join_or_none (Some (JInt <$> uids)) with
    | None => uids = []
    | Some text =>
        str_truthy (Some text) = true
        ∧ split ","%char text = str_int <$> uids
        ∧ int_set text = Ok (list_to_set uids)
    end.
Proof.
  destruct uids as [|n rest]; [done|].
  set (uids := n :: rest).
  assert (join_or_none (Some (JInt <$> uids)) = Some (join "," (str_int <$> uids))) as ->.
  { unfold uids. cbn [fmap list_fmap join_or_none]. do 2 f_equal.
    cbn [str]. f_equal. fold (JInt <$> rest). fold (str <$> (JInt <$> rest)).
    by rewrite <- list_fmap_compose. }
  assert (split ","%char (join "," (str_int <$> uids)) = str_int <$> uids) as Hsplit.
  { apply split_join; [done|]. apply Forall_fmap, Forall_true. intros k.
    eapply string_forall_impl; [|apply str_int_number_chars].
    intros a Ha. apply bool_decide_eq_true. by apply number_char_no_comma. }
  assert (int_set (join "," (str_int <$> uids)) = Ok (list_to_set uids)) as Hset.
  { unfold int_set. by rewrite Hsplit, map_r_int_str_int. }
  assert (str_truthy (Some (join "," (str_int <$> uids))) = true) as Htruthy.
  { destruct (str_int_shape n) as (d & Hd & _ & Hshape & _).
    unfold uids. cbn [fmap list_fmap]. fold (str_int <$> rest).
    destruct (str_int <$> rest) as [|t ts]; cbn [join]; rewrite Hshape.
    - case_decide; [done|]. by destruct d.
    - case_decide; [done|]. by destruct d. }
  split; [|done].
  unfold parse_author_uids. by rewrite Htruthy.
Qed.

(** X22.  The author lists survive storage: a list of integer uids
    that [add_thread] or [load_from_config] writes as text, the uids
    joined by commas, is read back by [check_thread] as the set of those
    uids, duplicates merged; the empty list is written as NULL and read
    as the empty set, which filters nothing. *)
Theorem author_list_round_trip (uids : list Z) :
  parse_author_uids (join_or_none (Some (JInt <$> uids))) = Ok (list_to_set uids)
  ∧ match join_or_none (Some (JInt <$> uids)) with
    | None => uids = []
    | Some text =>
        str_truthy (Some text) = true
        ∧ split ","%char text = str_int <$> uids
        ∧ int_set text = Ok (list_to_set uids)
    end.
Proof. apply author_list_written_and_read. Qed.

(* ===================================================================== *)
(** ** A check that succeeds *)
(* ===================================================================== *)

(** Every way [check_thread] can go, as a case analysis. *)
Lemma check_thread_cases net tid w (Q : result check_result * World → Prop) :
  (active_subscription tid (db_of w) = None →
   Q (Ok (CheckError ("Thread " +:+ str_int tid +:+ " not monitored")), w)) →
  (∀ monitor_config e,
     active_subscription tid (db_of w) = Some monitor_config →
     parse_author_uids (author_filter monitor_config) = Raise e →
     Q (Raise e, w)) →
  (∀ monitor_config author_uids,
     active_subscription tid (db_of w) = Some monitor_config →
     parse_author_uids (author_filter monitor_config) = Ok author_uids →
     threads (db_of w) !! tid = None →
     Q (Ok (CheckError ("Thread " +:+ str_int tid +:+ " not found in database")), w)) →
  (∀ monitor_config author_uids thread,
     active_subscription tid (db_of w) = Some monitor_config →
     parse_author_uids (author_filter monitor_config) = Ok author_uids →
     threads (db_of w) !! tid = Some thread →
     (∀ first_page, fetch_page net tid 1 = Ok (Some first_page) →
                    page_truthy first_page = false) →
     is_ok (fetch_page net tid 1) = true →
     Q (Ok (CheckError "Failed to fetch thread"), after_failed_fetch tid w)) →
  (∀ monitor_config author_uids thread e,
     active_subscription tid (db_of w) = Some monitor_config →
     parse_author_uids (author_filter monitor_config) = Ok author_uids →
     threads (db_of w) !! tid = Some thread →
     (fetch_page net tid 1 = Raise e
      ∨ ∃ first_page,
          net tid 1 = Reply first_page ∧ page_truthy first_page = true
          ∧ total_posts thread < default 0 (vrows first_page)
          ∧ new_page_range (total_posts thread) (default 20 (perPage first_page))
              (default 0 (totalPage first_page)) = Raise e) →
     Q (Ok (CheckError ("Error checking thread: " +:+ str_exn e)),
        with_error_event tid e (log_fetch tid 1 w))) →
  (∀ monitor_config author_uids thread first_page,
     active_subscription tid (db_of w) = Some monitor_config →
     parse_author_uids (author_filter monitor_config) = Ok author_uids →
     threads (db_of w) !! tid = Some thread →
     net tid 1 = Reply first_page →
     page_truthy first_page = true →
     default 0 (vrows first_page) ≤ total_posts thread →
     Q (Ok (Checked {| cr_tid := tid; cr_new_posts := 0; cr_total_new_posts := None;
                       cr_total_posts := default 0 (vrows first_page);
                       cr_posts := [] |}),
        after_quiet_check tid first_page w)) →
  (∀ monitor_config author_uids thread first_page start_page end_page good bad rest e,
     active_subscription tid (db_of w) = Some monitor_config →
     parse_author_uids (author_filter monitor_config) = Ok author_uids →
     threads (db_of w) !! tid = Some thread →
     net tid 1 = Reply first_page →
     page_truthy first_page = true →
     total_posts thread < default 0 (vrows first_page) →
     new_page_range (total_posts thread) (default 20 (perPage first_page))
       (default 0 (totalPage first_page)) = Ok (start_page, end_page) →
     range_incl start_page end_page = good ++ bad :: rest →
     (∀ page_num, page_num ∈ good → is_ok (fetch_page net tid page_num) = true) →
     fetch_page net tid bad = Raise e →
     Q (Ok (CheckError ("Error checking thread: " +:+ str_exn e)),
        with_error_event tid e (log_fetches tid (good ++ [bad]) (log_fetch tid 1 w)))) →
  (∀ monitor_config author_uids thread first_page start_page end_page,
     active_subscription tid (db_of w) = Some monitor_config →
     parse_author_uids (author_filter monitor_config) = Ok author_uids →
     threads (db_of w) !! tid = Some thread →
     net tid 1 = Reply first_page →
     page_truthy first_page = true →
     total_posts thread < default 0 (vrows first_page) →
     new_page_range (total_posts thread) (default 20 (perPage first_page))
       (default 0 (totalPage first_page)) = Ok (start_page, end_page) →
     (∀ page_num, page_num ∈ range_incl start_page end_page →
        is_ok (fetch_page net tid page_num) = true) →
     let fresh := fresh_posts (posts (db_of w))
                    (posts_of_pages net tid (range_incl start_page end_page)) in
     let eligible := eligible_posts author_uids fresh in
     let w' := after_new_posts_check net tid author_uids first_page start_page end_page w in
     Q match parse_author_uids (author_notification monitor_config) with
       | Ok notification_uids =>
           (Ok (Checked {| cr_tid := tid;
                           cr_new_posts := Z.of_nat (length eligible);
                           cr_total_new_posts := Some (Z.of_nat (length fresh));
                           cr_total_posts := default 0 (vrows first_page);
                           cr_posts := eligible |}),
            notified (notifications_for tid (title thread) notification_uids eligible) w')
       | Raise e =>
           (Ok (CheckError ("Error checking thread: " +:+ str_exn e)),
            with_error_event tid e w')
       end) →
  Q (check_thread net tid w).
Proof.
  intros Hnone Hfilter_raise Hnothread Hmissing Hraise Hquiet Hcrash Hnew.
  destruct (active_subscription tid (db_of w)) as [monitor_config|] eqn:Hsub.
  2: { unfold check_thread, bind, db_query, get. fold (db_of w). rewrite Hsub.
       by apply Hnone. }
  destruct (parse_author_uids (author_filter monitor_config)) as [author_uids|e] eqn:Hfilter.
  2: { unfold check_thread, bind, db_query, get, lift. fold (db_of w).
       rewrite Hsub, Hfilter. by eapply Hfilter_raise. }
  destruct (threads (db_of w) !! tid) as [thread|] eqn:Hthread.
  2: { unfold check_thread, bind, db_query, get, lift. fold (db_of w).
       rewrite Hsub, Hfilter. unfold get_thread. fold (db_of w). rewrite Hthread.
       by eapply Hnothread. }
  assert (∀ reply, net tid 1 = reply →
            (∀ first_page, reply = Reply first_page → page_truthy first_page = false) →
            (∀ e, reply ≠ Crash e) →
            Q (check_thread net tid w)) as Hno_page.
  { intros reply Hnet Hfalsy Hnocrash.
    erewrite check_thread_first_page_missing; try done.
    - eapply Hmissing; try done.
      + unfold fetch_page. rewrite Hnet. destruct reply; try done.
        intros p [= <-]. by apply Hfalsy.
      + unfold fetch_page. rewrite Hnet. destruct reply; try done.
        by destruct (Hnocrash e).
    - unfold fetch_page. rewrite Hnet. destruct reply; try done.
      intros p [= <-]. by apply Hfalsy.
    - unfold fetch_page. rewrite Hnet. destruct reply; try done.
      by destruct (Hnocrash e). }
  destruct (net tid 1) as [first_page| | |e] eqn:Hnet.
  2-3: by apply (Hno_page _ eq_refl).
  2: { erewrite check_thread_first_page_crash; try done.
       - eapply Hraise; try done. left. unfold fetch_page. by rewrite Hnet.
       - unfold fetch_page. by rewrite Hnet. }
  destruct (page_truthy first_page) eqn:Htruthy.
  2: { apply (Hno_page _ eq_refl); [|done]. intros p [= <-]. done. }
  destruct (decide (default 0 (vrows first_page) ≤ total_posts thread)) as [Hle|Hgt].
  { erewrite check_thread_no_change by done. by eapply Hquiet. }
  destruct (new_page_range (total_posts thread) (default 20 (perPage first_page))
              (default 0 (totalPage first_page))) as [[start_page end_page]|e] eqn:Hrange.
  2: { erewrite check_thread_range_raise by (try done; lia).
       eapply Hraise; try done. right. exists first_page.
       split; [done|]. split; [done|]. split; [lia|done]. }
  destruct (first_crash net tid (range_incl start_page end_page))
    as [[index bad]|] eqn:Hfirst; unfold first_crash in Hfirst.
  - apply list_find_Some in Hfirst as (Hat & Hbad & Hbefore).
    apply list_elem_of_split_length in Hat as (good & rest & Hpages & ->).
    destruct (fetch_page net tid bad) as [r|e] eqn:Hfetch; [done|].
    assert (∀ page_num, page_num ∈ good → is_ok (fetch_page net tid page_num) = true)
      as Hgood.
    { intros page_num Hin. apply list_elem_of_lookup in Hin as [i Hi].
      specialize (Hbefore i page_num).
      rewrite Hpages, lookup_app_l in Hbefore by (by apply lookup_lt_Some in Hi).
      specialize (Hbefore Hi ltac:(by apply lookup_lt_Some in Hi)).
      by destruct (is_ok (fetch_page net tid page_num)). }
    erewrite (check_thread_fetch_crash net tid w monitor_config author_uids thread
                first_page start_page end_page good bad rest e); try done; try lia.
    eapply Hcrash; try done. lia.
  - apply list_find_None in Hfirst.
    assert (∀ page_num, page_num ∈ range_incl start_page end_page →
              is_ok (fetch_page net tid page_num) = true) as Hok.
    { intros page_num Hin. rewrite Forall_forall in Hfirst.
      specialize (Hfirst page_num Hin). simpl in Hfirst.
      by destruct (is_ok (fetch_page net tid page_num)). }
    erewrite (check_thread_new_posts net tid w monitor_config author_uids thread
                first_page start_page end_page); try done; try lia.
    eapply Hnew; try done. lia.
Qed.

Lemma posts_after_new_posts_check net tid author_uids first_page start_page end_page w :
  posts (db_of (after_new_posts_check net tid author_uids first_page start_page end_page w))
  = store_posts (clock w)
      (fresh_posts (posts (db_of w))
         (posts_of_pages net tid (range_incl start_page end_page)))
      (posts (db_of w)).
Proof. done. Qed.



(* ===================================================================== *)
(** ** The footprint of a synchronisation *)
(* ===================================================================== *)

Lemma sync_footprint_refl tids w : sync_footprint tids w w.
Proof.
  split; try done.
  - exists []. split; [apply sublist_nil_l|]. by rewrite app_nil_r.
  - exists []. split; [by rewrite app_nil_r|constructor].
Qed.

Lemma sync_footprint_trans tids1 tids2 w w1 w2 :
  sync_footprint tids1 w w1 → sync_footprint tids2 w1 w2 →
  sync_footprint (tids1 ++ tids2) w w2.
Proof.
  intros [(r1 & Hr1 & F1) (h1 & S1 & Hh1) O1 C1 M1 P1]
         [(r2 & Hr2 & F2) (h2 & S2 & Hh2) O2 C2 M2 P2].
  split.
  - exists (r1 ++ r2). split; [by apply sublist_app|].
    by rewrite F2, F1, fmap_app, app_assoc.
  - exists (h1 ++ h2). split; [by rewrite S2, S1, app_assoc|].
    apply Forall_app. split.
    + eapply Forall_impl; [exact Hh1|]. intros page Hin. apply elem_of_app. by left.
    + eapply Forall_impl; [exact Hh2|]. intros page Hin. apply elem_of_app. by right.
  - by rewrite O2.
  - by rewrite C2.
  - intros t Ht. rewrite M2, M1; [done| |]; intros Hin; apply Ht, elem_of_app; auto.
  - intros k Hk. by apply P2, P1.
Qed.

(** A crawl whose callback only saves posts. *)
Lemma crawler_crawl_keeps {X} net stop_event scheduler tid start_page end_page
    (callback : Z → option Page → World * X → (World * X) * option exn) x w :
  (∀ w0 page_num result s,
     saving_posts_keeps w0 s.1 → saving_posts_keeps w0 (callback page_num result s).1.1) →
  committed (conn w) = working (conn w) →
  saving_posts_keeps (log_submit tid (range_incl start_page end_page) w)
    (crawler_crawl net stop_event scheduler tid start_page end_page callback x w).2.
Proof.
  intros Hkeeps Hclean. unfold crawler_crawl.
  set (pages := range_incl start_page end_page).
  set (w0 := log_submit tid pages w).
  set (local_stop := (λ is_set k, is_set (polls w + k)%nat) <$> stop_event).
  assert (saving_posts_keeps w0 w0) as Hstart by by apply saving_posts_keeps_refl.
  assert (saving_posts_keeps w0
            (final (crawl_pages_range_with_callback net tid callback local_stop
                      start_page end_page (scheduler tid pages) (w0, x))).1) as Hfinal.
  { unfold crawl_pages_range_with_callback.
    destruct (decide (start_page > end_page)); [done|].
    apply (process_invariant net tid callback local_stop
             (λ s, saving_posts_keeps w0 s.1)
             (λ page_num result s, Hkeeps w0 page_num result s)).
    done. }
  destruct (crawl_pages_range_with_callback net tid callback local_stop
              start_page end_page (scheduler tid pages) (w0, x))
    as [[wf xf] calls' polled' status']. cbn [final polled status fst snd] in *.
  by destruct status'.
Qed.

Lemma load_from_config_callback_saves max_post_number w0 page_num page_result s :
  saving_posts_keeps w0 s.1 →
  saving_posts_keeps w0 (load_from_config_callback max_post_number page_num page_result s).1.1.
Proof.
  destruct s as [w []]. cbn [fst]. intros Hkeeps.
  unfold load_from_config_callback.
  destruct page_result as [page|]; [|done].
  destruct (page_truthy page); [|done].
  destruct (parse_page_result page) as [thread_data posts_data].
  destruct posts_data as [|post rest]; [done|].
  destruct (filter_r _ (post :: rest)) as [[|p new_posts]|e]; [done| |done].
  pose proof (db_save_posts_batch_keeps (p :: new_posts) w0 w Hkeeps) as Hsaved.
  cbn [fst]. by destruct (db_save_posts_batch (p :: new_posts) w) as [saved w1].
Qed.

Lemma sync_footprint_one tid pages w w' :
  (fetched w' = fetched w ∨ fetched w' = fetched w ++ [(tid, 1)]) →
  submitted w' = submitted w ++ ((λ page, (tid, page)) <$> pages) →
  outbox w' = outbox w →
  clock w' = clock w →
  (∀ t, t ≠ tid → monitored_threads (db_of w') !! t = monitored_threads (db_of w) !! t) →
  (∀ k, is_Some (posts (db_of w) !! k) → is_Some (posts (db_of w') !! k)) →
  sync_footprint [tid] w w'.
Proof.
  intros Hfetched Hsubmitted Houtbox Hclock Hmonitored Hposts. split; try done.
  - destruct Hfetched as [Hsame|Hone].
    + exists []. split; [apply sublist_nil_l|]. by rewrite app_nil_r.
    + by exists [tid].
  - eexists. split; [done|]. apply Forall_fmap, Forall_true. intros page. cbn. by left.
  - intros t Ht. apply Hmonitored. intros ->. apply Ht. by left.
Qed.

Lemma write_subscription_changes existing tid author_filter_str author_notification_str
    check_interval' latest_timestamp acc w :
  let r := write_subscription existing tid author_filter_str author_notification_str
             check_interval' latest_timestamp acc w in
  is_ok r.1 = true
  ∧ fetched r.2 = fetched w ∧ submitted r.2 = submitted w
  ∧ outbox r.2 = outbox w ∧ clock r.2 = clock w
  ∧ posts (db_of r.2) = posts (db_of w)
  ∧ ∀ t, t ≠ tid → monitored_threads (db_of r.2) !! t = monitored_threads (db_of w) !! t.
Proof.
  unfold write_subscription, bind, db_execute, modify, ret.
  destruct existing; cbn [fst snd]; repeat split; try done.
  - intros t Hne. unfold db_of, update_subscription. cbn. by rewrite lookup_alter_ne.
  - intros t Hne. unfold db_of, insert_subscription. cbn. by rewrite lookup_insert_ne.
Qed.

(** What one entry of the configuration changes. *)
Lemma load_from_config_entry_footprint net stop_event scheduler thread_config acc w :
  sync_footprint (synced_tids [thread_config]) w
    (load_from_config_entry net stop_event scheduler thread_config acc w).2.
Proof.
  unfold load_from_config_entry, synced_tids. cbn [omap list_omap].
  destruct (cfg_tid thread_config) as [tid|]; [|apply sync_footprint_refl].
  destruct (decide (tid = 0)); [apply sync_footprint_refl|].
  destruct (default true (cfg_enabled thread_config)); cbn [negb];
    [|apply sync_footprint_refl].
  unfold bind at 1 2, db_query, get.
  destruct (decide ((count_and_max_post_number tid (working (conn w))).1 > 0)).
  - (* posts are stored *)
    unfold bind at 1, crawler_fetch_page.
    set (w1 := log_fetch tid 1 w).
    assert (sync_footprint [tid] w w1) as Hw1.
    { apply (sync_footprint_one tid []); try done; [by right|by rewrite app_nil_r]. }
    destruct (fetch_page net tid 1) as [[first_page|]|e]; [| |done]; [|done].
    destruct (negb (page_truthy first_page)); [done|].
    destruct (parse_page_result first_page) as [thread_data posts_data] eqn:Hparse.
    assert (thread_data = (parse_page_result first_page).1) as -> by by rewrite Hparse.
    unfold bind at 1, lift.
    destruct (getitem "total_posts" _) as [current_total_posts|e]; [|done].
    unfold bind at 1.
    destruct (getitem "total_pages" _) as [current_total_pages|e]; [|done].
    destruct (decide (_ >= current_total_posts - 1)).
    + (* up to date *)
      unfold bind at 1 2, db_query, get.
      match goal with |- context [write_subscription ?ex ?t ?a ?b ?c ?d acc ?w0] =>
        destruct (write_subscription_changes ex t a b c d acc w0)
          as (Hok & F & S & O & C & P & M);
        destruct (write_subscription ex t a b c d acc w0) as [[acc1|e] w2] end;
        [|done].
      unfold bind, db_commit, modify, ret. cbn [fst snd] in *.
      apply (sync_footprint_one tid []).
      * right. cbn. by rewrite F.
      * cbn. by rewrite S, app_nil_r.
      * cbn. by rewrite O.
      * cbn. by rewrite C.
      * intros t Hne. unfold db_of in *. cbn. by rewrite M.
      * intros k Hk. unfold db_of in *. cbn. by rewrite P.
    + (* behind *)
      unfold bind at 1.
      destruct (floordiv _ _) as [q|e]; [|done].
      unfold bind at 1, db_save_thread. rewrite save_thread_parse.
      set (w2 := set_conn _ w1).
      unfold bind at 1.
      match goal with |- context [crawler_crawl _ _ _ ?t ?a ?b ?cb ?x w2] =>
        pose proof (crawler_crawl_keeps net stop_event scheduler t a b cb x w2
                      (load_from_config_callback_saves _) eq_refl) as Hw3;
        destruct (crawler_crawl net stop_event scheduler t a b cb x w2)
          as [[[]|e] w3] end; cbn [snd] in Hw3.
      2: { destruct Hw3 as (_ & M3 & T3 & E3 & C3 & F3 & S3 & O3 & P3). cbn [snd].
           match type of S3 with context [log_submit _ ?pages _] =>
             apply (sync_footprint_one tid pages) end.
           - right. by rewrite F3.
           - by rewrite S3.
           - by rewrite O3.
           - by rewrite C3.
           - intros t Hne. by rewrite M3.
           - intros k Hk. by apply P3. }
      unfold bind at 1 2, db_query, get.
      match goal with |- context [write_subscription ?ex ?t ?a ?b ?c ?d acc ?w0] =>
        destruct (write_subscription_changes ex t a b c d acc w0)
          as (Hok & F & S & O & C & P & M);
        destruct (write_subscription ex t a b c d acc w0) as [[acc1|e] w4] end;
        [|done].
      unfold bind, db_commit, modify, ret. cbn [fst snd] in *.
      destruct Hw3 as (_ & M3 & T3 & E3 & C3 & F3 & S3 & O3 & P3).
      match type of S3 with context [log_submit _ ?pages _] =>
        apply (sync_footprint_one tid pages) end.
      * right. cbn. by rewrite F, F3.
      * cbn. by rewrite S, S3.
      * cbn. by rewrite O, O3.
      * cbn. by rewrite C, C3.
      * intros t Hne. unfold db_of in *. cbn. by rewrite M, M3.
      * intros k Hk. unfold db_of in *. cbn. rewrite P. by apply P3.
  - (* no post is stored *)
    unfold bind.
    destruct (add_thread_cases net stop_event scheduler tid (cfg_author_filter thread_config)
                (default 300 (cfg_check_interval thread_config))
                (cfg_author_notification thread_config) w)
      as (saved & Hres & F & C & O & M & P & _ & Hsaved).
    destruct (add_thread _ _ _ _ _ _ _ w) as [r w1]. cbn [fst snd] in *. subst r.
    destruct saved; cbn [snd].
    + destruct Hsaved as (first_page & _ & _ & _ & _ & _ & S).
      by apply (sync_footprint_one tid (range_incl 2 (default 0 (totalPage first_page))));
        [right| | | | |].
    + subst w1. apply (sync_footprint_one tid []); try done; [by right|by rewrite app_nil_r].
Qed.

Lemma sync_footprint_polls tids n w : sync_footprint tids w (add_polls n w).
Proof.
  split; try done.
  - exists []. split; [apply sublist_nil_l|]. by rewrite app_nil_r.
  - exists []. split; [by rewrite app_nil_r|constructor].
Qed.

Lemma load_from_config_loop_footprint net stop_event scheduler entries acc w :
  sync_footprint (synced_tids entries) w
    (load_from_config_loop net stop_event scheduler entries acc w).2.
Proof.
  revert acc w. induction entries as [|thread_config rest IH]; intros acc w.
  { apply sync_footprint_refl. }
  change (synced_tids (thread_config :: rest))
    with (synced_tids ([thread_config] ++ rest)).
  unfold synced_tids. rewrite omap_app. fold (synced_tids [thread_config]).
  fold (synced_tids rest).
  cbn [load_from_config_loop]. unfold bind at 1.
  assert (∃ stop n, stop_requested stop_event w = (Ok stop, add_polls n w))
    as (stop & n & ->).
  { unfold stop_requested. destruct stop_event as [is_set|].
    - by eexists _, 1%nat.
    - exists false, 0%nat. f_equal. unfold add_polls. destruct w. cbn. f_equal. lia. }
  destruct stop; [apply sync_footprint_polls|].
  unfold bind.
  pose proof (load_from_config_entry_footprint net stop_event scheduler thread_config acc
                (add_polls n w)) as Hentry.
  assert (sync_footprint (synced_tids [thread_config]) w
            (load_from_config_entry net stop_event scheduler thread_config acc
               (add_polls n w)).2) as Hentry'.
  { destruct Hentry as [F S O C M P]. split; done. }
  destruct (load_from_config_entry net stop_event scheduler thread_config acc (add_polls n w))
    as [[acc1|e] w1]; cbn [snd] in *.
  - eapply sync_footprint_trans; [exact Hentry'|apply IH].
  - eapply sync_footprint_trans; [exact Hentry'|apply sync_footprint_refl].
Qed.

(** X24.  Whatever the forum answers, [load_from_config] acts only on
    the entries that have a thread id other than 0 and are not
    disabled: it requests the first page of some of them, at most once
    for each entry and in the order of the file, hands only pages of
    such threads to the worker pool, and changes the subscription of no
    other thread.  It sends no notification, leaves the clock alone and
    loses no stored post.  This holds as well when an exception leaves
    it. *)
Theorem sync_acts_on_enabled_entries net stop_event scheduler entries w :
  sync_footprint (synced_tids entries) w
    (load_from_config net stop_event scheduler entries w).2.
Proof.
  unfold load_from_config. destruct entries as [|thread_config rest].
  { apply sync_footprint_refl. }
  unfold bind.
  pose proof (load_from_config_loop_footprint net stop_event scheduler
                (thread_config :: rest) no_counters w) as Hloop.
  by destruct (load_from_config_loop net stop_event scheduler (thread_config :: rest)
                 no_counters w) as [[acc|e] w'].
Qed.

(* ===================================================================== *)
(** ** The monitoring loop *)
(* ===================================================================== *)

(** A check of a thread that is subscribed and stored starts with a
    request for its first page. *)
Lemma check_thread_requests_first_page net tid w :
  is_Some (active_subscription tid (db_of w)) →
  is_Some (threads (db_of w) !! tid) →
  is_ok (check_thread net tid w).1 = true →
  ∃ pages, fetched (check_thread net tid w).2
           = fetched w ++ (tid, 1) :: ((λ page, (tid, page)) <$> pages).
Proof.
  intros [row Hrow] [thread Hthread]. pattern (check_thread net tid w).
  apply check_thread_cases; cbn [fst snd is_ok]; try congruence.
  - intros. by exists [].
  - intros. by exists [].
  - intros. by exists [].
  - intros monitor_config author_uids thread' first_page start_page end_page good bad rest e.
    intros. exists (good ++ [bad]). unfold with_error_event, log_fetches, log_fetch.
    cbn. by rewrite <- app_assoc.
  - intros monitor_config author_uids thread' first_page start_page end_page. intros.
    exists (range_incl start_page end_page).
    by destruct (parse_author_uids (author_notification monitor_config)).
Qed.

(** A check keeps the subscriptions active and the thread rows
    stored. *)
Lemma check_footprint_keeps_listed tid w w' t :
  check_footprint tid w w' →
  is_Some (active_subscription t (db_of w)) → is_Some (threads (db_of w) !! t) →
  is_Some (active_subscription t (db_of w')) ∧ is_Some (threads (db_of w') !! t).
Proof.
  intros Hfp [row Hrow] [thread Hthread]. split.
  - apply active_subscription_Some in Hrow as [Hrow Hactive].
    destruct (fp_monitored _ _ _ Hfp) as [Heq|Heq].
    + exists row. apply active_subscription_Some. by rewrite Heq.
    + exists (if decide (t = tid) then checked_at (clock w) row else row).
      apply active_subscription_Some. rewrite Heq, lookup_touch_last_checked.
      case_decide; subst; rewrite Hrow; done.
  - destruct (fp_threads _ _ _ Hfp) as [Heq|[first_page Heq]]; rewrite Heq.
    + by rewrite Hthread.
    + rewrite lookup_upsert_thread. case_decide; [done|]. by rewrite Hthread.
Qed.

Lemma time_sleep_one w : time_sleep 1 w = (Ok tt, set_clock (clock w + 1) w).
Proof. done. Qed.

Lemma check_due_cons net thread rest w :
  check_due net (thread :: rest) w
  = match check_thread net thread.1.1 w with
    | (Ok _, w1) => check_due net rest (set_clock (clock w1 + 1) w1)
    | (Raise e, w1) => (Raise e, w1)
    end.
Proof.
  cbn [check_due]. unfold bind.
  destruct (check_thread net thread.1.1 w) as [[result|e] w1]; [|done].
  by rewrite time_sleep_one.
Qed.

(** The loop over the threads that are due. *)
Lemma check_due_requests net due w :
  filters_parse w →
  (∀ thread, thread ∈ due →
     is_Some (active_subscription thread.1.1 (db_of w))
     ∧ is_Some (threads (db_of w) !! thread.1.1)) →
  let r := check_due net due w in
  r.1 = Ok tt
  ∧ filters_parse r.2
  ∧ polls r.2 = polls w
  ∧ ∃ requested,
      fetched r.2 = fetched w ++ requested
      ∧ (∀ page, page ∈ requested → ∃ thread, thread ∈ due ∧ thread.1.1 = page.1)
      ∧ (∀ thread, thread ∈ due → (thread.1.1, 1) ∈ requested).
Proof.
  revert w. induction due as [|thread rest IH]; intros w Hparse Hlisted.
  { cbn. split; [done|]. split; [done|]. split; [done|]. exists [].
    rewrite app_nil_r. split; [done|]. split; by intros ? ?%elem_of_nil. }
  rewrite check_due_cons.
  pose proof (check_thread_changes net thread.1.1 w) as Hfp.
  destruct (check_thread_returns net thread.1.1 w Hparse) as [result Hres].
  destruct (Hlisted thread ltac:(by left)) as [Hactive Hstored].
  destruct (check_thread_requests_first_page net thread.1.1 w Hactive Hstored
              ltac:(by rewrite Hres)) as [pages Hpages].
  destruct (check_thread net thread.1.1 w) as [r w1]. cbn [fst snd] in *. subst r.
  set (w2 := set_clock (clock w1 + 1) w1).
  assert (filters_parse w2) as Hparse2.
  { by apply (check_footprint_filters_parse thread.1.1 w w1). }
  assert (∀ other, other ∈ rest →
            is_Some (active_subscription other.1.1 (db_of w2))
            ∧ is_Some (threads (db_of w2) !! other.1.1)) as Hlisted2.
  { intros other Hin. destruct (Hlisted other ltac:(by right)) as [Ha Hs].
    by apply (check_footprint_keeps_listed thread.1.1 w w1). }
  destruct (IH w2 Hparse2 Hlisted2) as (Hok & Hparse' & Hpolls & requested & Hfetched & Hfrom & Hall).
  split; [done|]. split; [done|].
  split. { rewrite Hpolls. apply (fp_polls _ _ _ Hfp). }
  exists ((thread.1.1, 1) :: ((λ page, (thread.1.1, page)) <$> pages) ++ requested).
  split. { rewrite Hfetched. cbn [fetched w2 set_clock]. rewrite Hpages.
           by rewrite <- app_assoc. }
  split.
  - intros page [->|Hin]%elem_of_cons.
    { exists thread. split; [by left|done]. }
    apply elem_of_app in Hin as [Hin|Hin].
    + apply list_elem_of_fmap in Hin as (p & -> & _). exists thread. split; [by left|done].
    + destruct (Hfrom page Hin) as (other & Hother & Heq). exists other.
      split; [by right|done].
  - intros other [->|Hin]%elem_of_cons; [by left|].
    right. apply elem_of_app. right. by apply Hall.
Qed.

(** The wait between two evaluations only sleeps and reads the stop
    event. *)
Lemma wait_or_stop_spec stop_event seconds w :
  let r := wait_or_stop stop_event seconds w in
  ∃ stopped, r.1 = Ok stopped
    ∧ conn r.2 = conn w ∧ fetched r.2 = fetched w
    ∧ submitted r.2 = submitted w ∧ outbox r.2 = outbox w
    ∧ (polls w ≤ polls r.2)%nat.
Proof.
  revert w. induction seconds as [|seconds IH]; intros w.
  { exists false. by repeat split. }
  cbn [wait_or_stop]. unfold bind, stop_requested.
  destruct stop_event as [is_set|].
  - destruct (is_set (polls w)).
    + exists true. cbn. repeat split; try done. lia.
    + rewrite time_sleep_one.
      destruct (IH (set_clock (clock (add_polls 1 w) + 1) (add_polls 1 w)))
        as (stopped & Hres & C & F & S & O & P).
      exists stopped. split; [done|]. rewrite C, F, S, O. repeat split; try done.
      cbn [polls set_clock add_polls] in P. lia.
  - rewrite time_sleep_one.
    destruct (IH (set_clock (clock w + 1) w)) as (stopped & Hres & C & F & S & O & P).
    exists stopped. split; [done|]. rewrite C, F, S, O. by repeat split.
Qed.

Lemma filters_parse_conn w w' : conn w' = conn w → filters_parse w → filters_parse w'.
Proof. intros Hconn Hparse t row. unfold db_of. rewrite Hconn. apply Hparse. Qed.



(** *** The loop stops *)

Lemma run_loop_stops_with_fuel net is_set check_all_interval first_set iterations w :
  filters_parse w →
  0 ≤ check_all_interval →
  (∀ k, (first_set ≤ k)%nat → is_set k = true) →
  (0 < iterations)%nat →
  (first_set < polls w + iterations)%nat →
  (run_loop net (Some is_set) iterations check_all_interval w).1 = Ok Stopped.
Proof.
  intros Hparse Hinterval Hset. revert w Hparse.
  induction iterations as [|iterations IH]; intros w Hparse Hpos Hfuel; [lia|].
  cbn [run_loop]. unfold bind at 1, stop_requested.
  destruct (is_set (polls w)) eqn:Hnow; [done|].
  assert (polls w < first_set)%nat as Hbefore.
  { destruct (decide (first_set ≤ polls w)%nat) as [Hle|]; [|lia].
    rewrite (Hset _ Hle) in Hnow. done. }
  set (w1 := add_polls 1 w).
  assert (filters_parse w1) as Hparse1 by done.
  unfold bind at 1.
  destruct (list_monitored_rows w1) as (rows & -> & Hin & _).
  destruct rows as [|row rows'] eqn:Hrows.
  - unfold bind, time_sleep. rewrite decide_False by lia. unfold sleep, modify.
    apply IH; [done|lia|cbn; lia].
  - rewrite <- Hrows in *. unfold bind at 1, get.
    set (due := threads_to_check (clock w1) rows).
    destruct (check_due_requests net due w1 Hparse1) as (Hok & Hparse2 & Hpolls & _).
    { intros thread [_ Hthread]%list_elem_of_filter. destruct thread as [[t m] th].
      apply Hin in Hthread as (Hm & Hactive & Hth). cbn [fst snd]. split.
      - exists m. by apply active_subscription_Some.
      - by exists th. }
    unfold bind at 1.
    destruct (check_due net due w1) as [r2 w2]. cbn [fst snd] in *. subst r2.
    unfold bind.
    destruct (wait_or_stop_spec (Some is_set) (Z.to_nat check_all_interval) w2)
      as (stopped & Hres & C & _ & _ & _ & P).
    destruct (wait_or_stop (Some is_set) (Z.to_nat check_all_interval) w2) as [r3 w3].
    cbn [fst snd] in *. subst r3.
    destruct stopped; [done|].
    apply IH; [by apply (filters_parse_conn w2)|lia|cbn in Hpolls; lia].
Qed.



(* ===================================================================== *)
(** ** A notification list that cannot be read *)
(* ===================================================================== *)

(** After the world of a check that saved new posts, or any world with
    its subscriptions and thread rows, a check finds nothing. *)
Lemma check_again_after_new_posts net tid w monitor_config author_uids thread
    first_page start_page end_page later w1 :
  active_subscription tid (db_of w) = Some monitor_config →
  parse_author_uids (author_filter monitor_config) = Ok author_uids →
  threads (db_of w) !! tid = Some thread →
  net tid 1 = Reply first_page →
  page_truthy first_page = true →
  page_tid first_page = tid →
  let w' := after_new_posts_check net tid author_uids first_page start_page end_page w in
  monitored_threads (db_of w1) = monitored_threads (db_of w') →
  threads (db_of w1) = threads (db_of w') →
  check_thread net tid (set_clock later w1)
  = (Ok (Checked {| cr_tid := tid; cr_new_posts := 0; cr_total_new_posts := None;
                    cr_total_posts := default 0 (vrows first_page); cr_posts := [] |}),
     after_quiet_check tid first_page (set_clock later w1)).
Proof.
  intros Hsub Hfilter Hthread Hnet Htruthy Htid w' Hmonitored Hthreads.
  apply active_subscription_Some in Hsub as [Hrow Hactive].
  apply (check_thread_no_change net tid _ (checked_at (clock w) monitor_config)
           author_uids (refreshed thread (page_thread_row (clock w) first_page))
           first_page); try done.
  - apply active_subscription_Some. split; [|done].
    change (db_of (set_clock later w1)) with (db_of w1). rewrite Hmonitored.
    unfold w'. rewrite monitored_after_new_posts_check, decide_True by done.
    by rewrite Hrow.
  - change (db_of (set_clock later w1)) with (db_of w1). rewrite Hthreads.
    unfold w'. rewrite threads_after_new_posts_check, decide_True by done.
    by rewrite Htid, Hthread.
Qed.



(* ===================================================================== *)
(** ** From the subscription to the check *)
(* ===================================================================== *)



(* ===================================================================== *)
(** ** Posts saved, posts found *)
(* ===================================================================== *)



(* ===================================================================== *)
(** ** Removal and the next synchronisation *)
(* ===================================================================== *)

(** X30.  A thread removed with [remove_thread] comes back with the
    next synchronisation: when the configuration still lists the thread
    and its stored posts are up to date, [load_from_config] finds the
    row that [remove_thread] left, counts the entry as updated, and sets
    the row active again with the filter, notification list and
    interval of the file; [last_checked], the last post timestamp and
    the creation date are those the subscription had before its
    removal. *)
Theorem sync_reactivates_removed_thread net stop_event scheduler thread_config acc w tid
    row post_count' max_post_number first_page :
  cfg_tid thread_config = Some tid →
  tid ≠ 0 →
  default true (cfg_enabled thread_config) = true →
  monitored_threads (db_of w) !! tid = Some row →
  count_and_max_post_number tid (db_of w) = (post_count', Some max_post_number) →
  0 < post_count' →
  net tid 1 = Reply first_page →
  page_truthy first_page = true →
  default 0 (vrows first_page) - 1 ≤ max_post_number →
  let w1 := (remove_thread tid w).2 in
  let r := load_from_config_entry net stop_event scheduler thread_config acc w1 in
  active_subscription tid (db_of w1) = None
  ∧ r.1 = Ok (count_updated acc)
  ∧ active_subscription tid (db_of r.2)
    = Some {| author_filter := join_or_none (cfg_author_filter thread_config);
              author_notification := join_or_none (cfg_author_notification thread_config);
              check_interval := default 300 (cfg_check_interval thread_config);
              last_checked := last_checked row;
              last_post_timestamp := last_post_timestamp row;
              is_active := true;
              monitor_created_at := monitor_created_at row |}
  ∧ committed (conn r.2) = working (conn r.2).
Proof.
  intros Htid Hnz Henabled Hrow Hcount Hsome Hnet Htruthy Hmax w1 r. subst r w1.
  assert (remove_thread tid w
          = (Ok true, set_conn (λ c, commit (execute (deactivate tid) c)) w)) as ->
    by reflexivity.
  cbn [snd]. set (w1 := set_conn _ w).
  assert (monitored_threads (db_of w1) !! tid
          = Some {| author_filter := author_filter row;
                    author_notification := author_notification row;
                    check_interval := check_interval row;
                    last_checked := last_checked row;
                    last_post_timestamp := last_post_timestamp row;
                    is_active := false;
                    monitor_created_at := monitor_created_at row |}) as Hrow1.
  { unfold w1, db_of. cbn [conn set_conn commit execute working].
    rewrite lookup_deactivate, decide_True by done. fold (db_of w). by rewrite Hrow. }
  split.
  { unfold active_subscription. by rewrite Hrow1. }
  rewrite (load_from_config_entry_up_to_date net stop_event scheduler thread_config acc w1
             tid post_count' max_post_number first_page) by done.
  cbn [fst snd]. rewrite Hrow1. cbn [count_written].
  split; [done|]. split; [|done].
  unfold active_subscription, after_up_to_date_sync, db_of.
  cbn [conn working fresh_conn]. fold (db_of w1).
  rewrite (lookup_write_subscription thread_config tid _ _ _ (db_of w1) tid eq_refl).
  rewrite decide_True by done. rewrite Hrow1. done.
Qed.

(** Thread 8 is subscribed and up to date; it is removed, and the next
    synchronisation still lists it: the subscription is active again,
    with the [last_checked] it had. *)
Lemma sync_reactivates_removed_thread_witness :
  let w1 := (remove_thread 8 world_after_sync).2 in
  let r := load_from_config_entry forum_one_post None in_page_order config_thread_8
             no_counters w1 in
  is_Some (active_subscription 8 (db_of world_after_sync))
  ∧ active_subscription 8 (db_of w1) = None
  ∧ r.1 = Ok (count_updated no_counters)
  ∧ last_checked <$> active_subscription 8 (db_of r.2) = Some (Some 1000)
  ∧ is_active <$> active_subscription 8 (db_of r.2) = Some true.
Proof.
  intros w1 r.
  destruct (monitored_threads (db_of world_after_sync) !! 8) as [row|] eqn:Hrow;
    [|vm_compute in Hrow; discriminate].
  destruct (sync_reactivates_removed_thread forum_one_post None in_page_order
              config_thread_8 no_counters world_after_sync 8 row 1 0
              (sample_page 1 1 [raw_post_in 8 8000 100 0])
              ltac:(reflexivity) ltac:(discriminate) ltac:(reflexivity)
              Hrow ltac:(vm_compute; reflexivity) ltac:(reflexivity)
              ltac:(reflexivity) ltac:(reflexivity) ltac:(vm_compute; discriminate))
    as (Hgone & Hcount & Hback & _).
  split; [vm_compute; eauto|].
  split; [exact Hgone|]. split; [exact Hcount|].
  fold w1 r in Hback. rewrite Hback. cbn [fmap option_fmap option_map last_checked is_active].
  vm_compute in Hrow. injection Hrow as <-. split; reflexivity.
Defined.
